(** * Beta estimation scripts of non-linear-beta: a shallow embedding

    The repository is a collection of Python scripts that compute the
    "beta" of a stock against a market benchmark with numpy and pandas.
    This development embeds the estimators of

      - beta_5year_comparison.py      (calculate_beta_simple, main)
      - corrected_beta_analysis.py    (calculate_beta_fixed)
      - monthly_beta_10year.py        (calculate_beta_monthly)
      - compare_positive_beta_methods.py
      - yahoo_beta_replication.py, explain_beta_methods.py
      - analyze_nvidia_beta.py, final_test.py, getBars.py

    Modelling conventions.

      - A finite float is a rational ([Q], compared with [==]).  The
        values a numpy division can produce besides a finite number
        (inf, -inf, nan) are kept as separate constructors of
        [float64], so that "returns NaN" and "divides by zero" remain
        observable.  Signed zeros are not distinguished.
      - np.cov and np.var, whose float64 results depend on rounding,
        are a parameter of the estimators (the class [Statistics]).
        What is proved about the tests the code makes on a computed
        variance ([== 0], [> 0]) is proved for every [Statistics].  A
        theorem that does not name the statistics is about [exact],
        the statistics computed without rounding: it states a value or
        an identity between formulas, which the float64 results match
        up to rounding.
      - A timestamp is an integer ([Z]); a pandas Series or the
        [close] column of a DataFrame is the list of its
        (index, value) rows in storage order.
      - A closing price is a strictly positive rational by
        construction: getBars drops rows whose close is NaN and the
        provider reports positive prices.
      - Python exceptions are an error monad [exc]; console output is a
        list of messages.
      - np.corrcoef and np.std need a square root and are left out; no
        branch of the embedded functions depends on them. *)

From Stdlib Require Import List ZArith QArith Qabs Lia Lqa Bool Sorted Permutation.
Import ListNotations.
Local Open Scope Q_scope.

(** ** Python exceptions *)

Inductive exn : Type :=
| AttributeError
| KeyError
| ValueError
| IndexError
| ConnectionError.

Inductive exc (A : Type) : Type :=
| Ok (a : A)
| Raise (e : exn).

Arguments Ok {A} a.
Arguments Raise {A} e.

Definition exc_bind {A B : Type} (c : exc A) (k : A -> exc B) : exc B :=
  match c with
  | Ok a => k a
  | Raise e => Raise e
  end.

Notation "x <- c ;; k" := (exc_bind c (fun x => k))
  (at level 61, c at next level, right associativity).

(** ** numpy *)

Module Numpy.

(** A numpy float64: a finite value, an infinity or nan. *)
Inductive float64 : Type :=
| Finite (q : Q)
| PosInf
| NegInf
| NaN.

Definition Qlt_bool (x y : Q) : bool := negb (Qle_bool y x).

(** [a / b] on float64 scalars (IEEE 754, numpy does not raise). *)
Definition fdiv (a b : float64) : float64 :=
  match a, b with
  | NaN, _ | _, NaN => NaN
  | Finite x, Finite y =>
      if Qeq_bool y 0 then
        if Qeq_bool x 0 then NaN
        else if Qlt_bool 0 x then PosInf else NegInf
      else Finite (x / y)
  | Finite _, (PosInf | NegInf) => Finite 0
  | PosInf, Finite y => if Qlt_bool y 0 then NegInf else PosInf
  | NegInf, Finite y => if Qlt_bool y 0 then PosInf else NegInf
  | (PosInf | NegInf), (PosInf | NegInf) => NaN
  end.

(** [a == 0] *)
Definition feq0 (a : float64) : bool :=
  match a with
  | Finite q => Qeq_bool q 0
  | _ => false
  end.

(** [a > 0] *)
Definition fgt0 (a : float64) : bool :=
  match a with
  | Finite q => Qlt_bool 0 q
  | PosInf => true
  | _ => false
  end.

Definition is_finite (a : float64) : bool :=
  match a with
  | Finite _ => true
  | _ => false
  end.

(** Equality of float64 values up to [==] on the finite ones; nan is
    only used here as a value, so it is related to itself. *)
Definition feq (a b : float64) : Prop :=
  match a, b with
  | Finite x, Finite y => x == y
  | PosInf, PosInf | NegInf, NegInf | NaN, NaN => True
  | _, _ => False
  end.

(** Sum of an array.  Partial sums are kept in lowest terms
    ([Qred q == q]) so that the model can be run on long series. *)
Definition Qsum (l : list Q) : Q := fold_right (fun v acc => Qred (v + acc)) 0 l.

Definition Qlen (l : list Q) : Q := inject_Z (Z.of_nat (length l)).

(** np.mean of a non-empty array, in lowest terms. *)
Definition mean (x : list Q) : Q := Qred (Qsum x / Qlen x).

(** Sum of squared deviations from the mean. *)
Definition sum_sq_dev (x : list Q) : Q :=
  let m := mean x in
  Qsum (map (fun v => (v - m) * (v - m)) x).

(** Sum of products of deviations from the two means (arrays of one
    length). *)
Definition sum_cross_dev (x y : list Q) : Q :=
  let mx := mean x in
  let my := mean y in
  Qsum (map (fun p => (fst p - mx) * (snd p - my)) (combine x y)).

(** Variance with [ddof] delta degrees of freedom: the sum of squared
    deviations over [n - ddof] ([ddof = 1] is the sample variance,
    [ddof = 0] the population variance). *)
Definition variance (ddof : nat) (x : list Q) : Q :=
  sum_sq_dev x / inject_Z (Z.of_nat (length x - ddof)).

(** Sample covariance: the sum of cross deviations over [n - 1]. *)
Definition sample_cov (x y : list Q) : Q :=
  sum_cross_dev x y / inject_Z (Z.of_nat (length x - 1)).

(** np.var(x, ddof=ddof) computed without rounding: nan when there
    are no more than [ddof] observations (0/0). *)
Definition np_var_ddof (ddof : nat) (x : list Q) : float64 :=
  if (length x <=? ddof)%nat then NaN else Finite (variance ddof x).

(** The two statistics the estimators ask numpy for.  numpy computes
    them in float64: what it returns is the statistic up to rounding
    errors that depend on the order in which it sums.  In particular
    np.var of an array of equal values need not be 0: for 21 copies
    of 0.2 it is about 7.7e-34, because the computed mean differs
    from 0.2 in the last bit.  A comparison of a computed variance
    with 0 therefore cannot be decided from the exact variance.  The
    estimators are written over any pair of routines; what is proved
    about the branch a comparison takes is proved for every pair. *)
Class Statistics : Type := {
  (** np.cov(x, y)[0, 1] with the default ddof=1, for two arrays of
      one length *)
  cov_value : list Q -> list Q -> float64;
  (** np.var(x) with the default ddof=0 *)
  var_value : list Q -> float64
}.

(** The statistics computed without rounding: the sample covariance
    (with fewer than two observations the normalisation is
    0 * inf = nan) and the population variance.  They are what the
    theorems about values and identities refer to. *)
#[global] Instance exact : Statistics := {|
  cov_value := fun x y => if (length x <=? 1)%nat then NaN else Finite (sample_cov x y);
  var_value := np_var_ddof 0
|}.

Section Calls.

Context {stats : Statistics}.

(** np.var(x) *)
Definition np_var (x : list Q) : float64 := var_value x.

(** np.cov(x, y)[0, 1].  Arrays of different lengths cannot be
    stacked (ValueError). *)
Definition np_cov (x y : list Q) : exc float64 :=
  if negb (length x =? length y)%nat then Raise ValueError
  else Ok (cov_value x y).

End Calls.

(** np.sum(mask) for a boolean mask. *)
Definition np_sum_mask (mask : list bool) : nat :=
  length (filter (fun b => b) mask).

(** The elements of [x] at the positions where [mask] is true. *)
Definition masked {A : Type} (x : list A) (mask : list bool) : list A :=
  map fst (filter snd (combine x mask)).

(** x[mask]: boolean indexing; the mask must have the length of x. *)
Definition bool_index {A : Type} (x : list A) (mask : list bool) : exc (list A) :=
  if negb (length x =? length mask)%nat then Raise IndexError
  else Ok (masked x mask).

(** market_ret > 0 and market_ret < 0, elementwise. *)
Definition gt0_mask (x : list Q) : list bool := map (fun m => Qlt_bool 0 m) x.

Definition lt0_mask (x : list Q) : list bool := map (fun m => Qlt_bool m 0) x.

(** np.diff(x) *)
Fixpoint np_diff (x : list Q) : list Q :=
  match x with
  | a :: ((b :: _) as tl) => (b - a) :: np_diff tl
  | _ => []
  end.

(** An elementwise binary operation on two 1-D arrays, with numpy's
    broadcasting: a one-element array is stretched to the other
    length, other lengths must agree (ValueError). *)
Definition broadcast2 (f : Q -> Q -> Q) (x y : list Q) : exc (list Q) :=
  match x, y with
  | [a], _ => Ok (map (fun v => f a v) y)
  | _, [b] => Ok (map (fun u => f u b) x)
  | _, _ =>
      if (length x =? length y)%nat
      then Ok (map (fun p => f (fst p) (snd p)) (combine x y))
      else Raise ValueError
  end.

(** x / y on arrays.  It is only applied to divisors that are prices,
    hence nonzero, where float division is [Qdiv]. *)
Definition np_divide_arrays (x y : list Q) : exc (list Q) := broadcast2 Qdiv x y.

(** x * y on arrays. *)
Definition np_multiply_arrays (x y : list Q) : exc (list Q) := broadcast2 Qmult x y.

(** x - c for a scalar c. *)
Definition np_sub_scalar (x : list Q) (c : Q) : list Q := map (fun v => v - c) x.

(** Population covariance (np.cov(x, y, bias=1)[0, 1]). *)
Definition pop_cov (x y : list Q) : Q := sum_cross_dev x y / Qlen x.

(** scipy.stats.linregress(x, y).slope, as scipy computes it:
    ssxym / ssxm with both taken from np.cov(x, y, bias=1).  Empty
    input, arrays of different lengths and an x whose values are all
    identical raise ValueError. *)
Definition linregress_slope (x y : list Q) : exc float64 :=
  match x with
  | [] => Raise ValueError
  | x0 :: _ =>
      if negb (length x =? length y)%nat then Raise ValueError
      else if (1 <? length x)%nat && forallb (fun v => Qeq_bool v x0) x
      then Raise ValueError
      else Ok (fdiv (Finite (pop_cov x y)) (Finite (variance 0 x)))
  end.

End Numpy.

Import Numpy.

(** ** pandas *)

Module Pandas.

(** A closing price: a strictly positive rational. *)
Record price : Type := mkPrice { pnum : positive; pden : positive }.

Definition price_val (p : price) : Q := Z.pos (pnum p) # pden p.

(** A Series: its (index, value) rows in storage order. *)
Definition Series (A : Type) : Type := list (Z * A).

Definition index {A : Type} (s : Series A) : list Z := map fst s.

Definition values {A : Type} (s : Series A) : list A := map snd s.

Definition mem (t : Z) (l : list Z) : bool := existsb (Z.eqb t) l.

(** Index.unique(): first occurrences, in order. *)
Fixpoint unique (l : list Z) : list Z :=
  match l with
  | [] => []
  | t :: l' => t :: filter (fun u => negb (u =? t)%Z) (unique l')
  end.

(** a.intersection(b): the labels of [a] that occur in [b], without
    repetition, in the order of [a] (for two increasing indexes this is
    the increasing order). *)
Definition intersection (a b : list Z) : list Z :=
  filter (fun t => mem t b) (unique a).

(** s.loc[labels]: for each label in turn the rows of [s] carrying it;
    a label that is not in the index raises KeyError. *)
Fixpoint loc {A : Type} (s : Series A) (labels : list Z) : exc (Series A) :=
  match labels with
  | [] => Ok []
  | t :: labels' =>
      match filter (fun row => (fst row =? t)%Z) s with
      | [] => Raise KeyError
      | rows => rest <- loc s labels' ;; Ok (rows ++ rest)
      end
  end.

(** s.pct_change(): nan in the first row, then
    (price[i] - price[i-1]) / price[i-1]; [None] stands for nan. *)
Fixpoint pct_change_from (prev : price) (s : Series price) : Series (option Q) :=
  match s with
  | [] => []
  | (t, p) :: s' =>
      (t, Some ((price_val p - price_val prev) / price_val prev))
        :: pct_change_from p s'
  end.

Definition pct_change (s : Series price) : Series (option Q) :=
  match s with
  | [] => []
  | (t, p) :: s' => (t, None) :: pct_change_from p s'
  end.

(** s.dropna() *)
Fixpoint dropna (s : Series (option Q)) : Series Q :=
  match s with
  | [] => []
  | (t, Some v) :: s' => (t, v) :: dropna s'
  | (_, None) :: s' => dropna s'
  end.

(** A DataFrame of bars, reduced to its index and its [close] column.
    Where Python may hold None instead of a frame the type is
    [option DataFrame]. *)
Definition DataFrame : Type := Series price.

(** Attribute or item access on a value that may be None. *)
Definition deref (df : option DataFrame) : exc DataFrame :=
  match df with
  | Some d => Ok d
  | None => Raise AttributeError
  end.

End Pandas.

Import Pandas.

(** Console output. *)
Inductive message : Type :=
| ErrorCalculatingBeta (e : exn)
| NoDataFound
| ErrorFetchingData (e : exn)
| NoClosePriceColumn
| AllClosePricesNaN
| SuccessfullyFetched (rows : nat)
| InsufficientFiveYearData
| BetaCalculationFailed
| BetaComputed.

(** ** beta_5year_comparison.py *)

Module Beta5Year.

Record BetaResult : Type := mkBetaResult {
  beta : float64;
  positive_beta : option float64;
  negative_beta : option float64;
  data_points : nat;
  positive_days : nat;
  negative_days : nat
}.

(** Lines 24-38 of calculate_beta_simple: the two price columns are
    restricted to the common dates, returns are taken on the
    restricted columns and both arrays are cut to the shorter length.
    [None] is the early [return None] of line 26. *)
Definition align_on_common_dates (stock_data market_data : DataFrame)
  : exc (option (list Q * list Q)) :=
  let common_dates := intersection (index stock_data) (index market_data) in
  if (length common_dates <? 50)%nat then Ok None
  else
    stock_aligned <- loc stock_data common_dates ;;
    market_aligned <- loc market_data common_dates ;;
    let stock_returns := dropna (pct_change stock_aligned) in
    let market_returns := dropna (pct_change market_aligned) in
    let min_len := Nat.min (length stock_returns) (length market_returns) in
    let stock_ret := firstn min_len (values stock_returns) in
    let market_ret := firstn min_len (values market_returns) in
    Ok (Some (stock_ret, market_ret)).

Section Estimator.

Context {stats : Statistics}.

(** Lines 57-63 and 65-71: one block, written once for positive_mask
    and once for negative_mask. *)
Definition directional_beta (stock_ret market_ret : list Q) (mask : list bool)
  : exc (option float64) :=
  if (10 <? np_sum_mask mask)%nat then
    stock_sub <- bool_index stock_ret mask ;;
    market_sub <- bool_index market_ret mask ;;
    cov_sub <- np_cov stock_sub market_sub ;;
    let var_sub := np_var market_sub in
    if fgt0 var_sub then Ok (Some (fdiv cov_sub var_sub)) else Ok None
  else Ok None.

(** Lines 40-81 of calculate_beta_simple: the estimate on the aligned
    return arrays. *)
Definition estimate (stock_ret market_ret : list Q) : exc (option BetaResult) :=
  covariance <- np_cov stock_ret market_ret ;;
  let market_variance := np_var market_ret in
  if feq0 market_variance then Ok None
  else
    let beta := fdiv covariance market_variance in
    let positive_mask := gt0_mask market_ret in
    let negative_mask := lt0_mask market_ret in
    pos <- directional_beta stock_ret market_ret positive_mask ;;
    neg <- directional_beta stock_ret market_ret negative_mask ;;
    Ok (Some {| beta := beta;
                positive_beta := pos;
                negative_beta := neg;
                data_points := length stock_ret;
                positive_days := np_sum_mask positive_mask;
                negative_days := np_sum_mask negative_mask |}).

(** The body of the try block of calculate_beta_simple. *)
Definition calculate_beta_simple_body (stock_data market_data : option DataFrame)
  : exc (option BetaResult) :=
  stock_df <- deref stock_data ;;
  market_df <- deref market_data ;;
  aligned <- align_on_common_dates stock_df market_df ;;
  match aligned with
  | None => Ok None
  | Some (stock_ret, market_ret) => estimate stock_ret market_ret
  end.

(** calculate_beta_simple: the value returned and what is printed
    (the except clause prints and returns None). *)
Definition calculate_beta_simple (stock_data market_data : option DataFrame)
  : option BetaResult * list message :=
  match calculate_beta_simple_body stock_data market_data with
  | Ok r => (r, [])
  | Raise e => (None, [ErrorCalculatingBeta e])
  end.

End Estimator.

End Beta5Year.

(** ** corrected_beta_analysis.py *)

Module Corrected.

Record FixedResult : Type := mkFixedResult {
  traditional_beta : float64;
  positive_beta : option float64;
  negative_beta : option float64;
  beta_ratio : option float64;
  data_points : nat;
  positive_days : nat;
  negative_days : nat
}.

(** Truth value of [None] or a float64 in a Python condition: None and
    zero are false, everything else (nan included) is true. *)
Definition py_truthy (v : option float64) : bool :=
  match v with
  | None => false
  | Some f => negb (feq0 f)
  end.

(** [v != 0] *)
Definition py_ne0 (v : option float64) : bool :=
  match v with
  | None => true
  | Some f => negb (feq0 f)
  end.

(** Lines 76-86: returns first, then the intersection of the two
    return indexes and a label lookup on each side. *)
Definition align_returns (stock_data market_data : DataFrame)
  : exc (option (list Z * list Q * list Q)) :=
  let stock_returns := dropna (pct_change stock_data) in
  let market_returns := dropna (pct_change market_data) in
  let common_idx := intersection (index stock_returns) (index market_returns) in
  if (length common_idx <? 50)%nat then Ok None
  else
    stock_rows <- loc stock_returns common_idx ;;
    market_rows <- loc market_returns common_idx ;;
    Ok (Some (common_idx, values stock_rows, values market_rows)).

Section Estimator.

Context {stats : Statistics}.

(** Lines 104-108 and 110-114. *)
Definition directional_beta (stock_aligned market_aligned : list Q) (mask : list bool)
  : exc (option float64) :=
  if (20 <? np_sum_mask mask)%nat then
    stock_sub <- bool_index stock_aligned mask ;;
    market_sub <- bool_index market_aligned mask ;;
    sub_cov <- np_cov stock_sub market_sub ;;
    let sub_var := np_var market_sub in
    if fgt0 sub_var then Ok (Some (fdiv sub_cov sub_var)) else Ok None
  else Ok None.

(** Line 120: positive_beta / negative_beta if positive_beta and
    negative_beta and negative_beta != 0 else None. *)
Definition ratio_of (positive_beta negative_beta : option float64) : option float64 :=
  if py_truthy positive_beta && py_truthy negative_beta && py_ne0 negative_beta
  then match positive_beta, negative_beta with
       | Some p, Some n => Some (fdiv p n)
       | _, _ => None
       end
  else None.

(** Lines 88-124 on the aligned arrays. *)
Definition estimate (n_common : nat) (stock_aligned market_aligned : list Q)
  : exc (option FixedResult) :=
  covariance <- np_cov stock_aligned market_aligned ;;
  let market_variance := np_var market_aligned in
  if feq0 market_variance then Ok None
  else
    let traditional_beta := fdiv covariance market_variance in
    let positive_mask := gt0_mask market_aligned in
    let negative_mask := lt0_mask market_aligned in
    positive_beta <- directional_beta stock_aligned market_aligned positive_mask ;;
    negative_beta <- directional_beta stock_aligned market_aligned negative_mask ;;
    Ok (Some {| traditional_beta := traditional_beta;
                positive_beta := positive_beta;
                negative_beta := negative_beta;
                beta_ratio := ratio_of positive_beta negative_beta;
                data_points := n_common;
                positive_days := np_sum_mask positive_mask;
                negative_days := np_sum_mask negative_mask |}).

(** calculate_beta_fixed has no try block: an exception propagates. *)
Definition calculate_beta_fixed (stock_data market_data : option DataFrame)
  : exc (option FixedResult) :=
  match stock_data, market_data with
  | Some stock_df, Some market_df =>
      aligned <- align_returns stock_df market_df ;;
      match aligned with
      | None => Ok None
      | Some (common_idx, stock_aligned, market_aligned) =>
          estimate (length common_idx) stock_aligned market_aligned
      end
  | _, _ => Ok None
  end.

End Estimator.

End Corrected.

(** ** monthly_beta_10year.py *)

Module Monthly.

Record MonthlyResult : Type := mkMonthlyResult {
  beta : float64;
  positive_beta : option float64;
  negative_beta : option float64;
  months : nat;
  positive_months : nat;
  negative_months : nat
}.

Section WithResample.

Context {stats : Statistics}.

(** data['close'].resample('ME').last().pct_change(): the month-end
    resampling belongs to pandas and its calendar and is taken as
    given. *)
Variable resample_last_pct_change : DataFrame -> Series (option Q).

Definition resample_to_monthly (data : option DataFrame) : option (Series Q) :=
  match data with
  | None => None
  | Some df =>
      if (length df =? 0)%nat then None
      else Some (dropna (resample_last_pct_change df))
  end.

(** Lines 75-82 and 84-91. *)
Definition directional_beta (stock_ret market_ret : list Q) (mask : list bool)
  : exc (option float64) :=
  if (5 <? np_sum_mask mask)%nat then
    stock_sub <- bool_index stock_ret mask ;;
    market_sub <- bool_index market_ret mask ;;
    if (1 <? length stock_sub)%nat then
      cov_sub <- np_cov stock_sub market_sub ;;
      let var_sub := np_var market_sub in
      if fgt0 var_sub then Ok (Some (fdiv cov_sub var_sub)) else Ok None
    else Ok None
  else Ok None.

(** Lines 55-102 on the aligned arrays. *)
Definition estimate (stock_ret market_ret : list Q) : exc (option MonthlyResult) :=
  covariance <- np_cov stock_ret market_ret ;;
  let market_variance := np_var market_ret in
  if feq0 market_variance then Ok None
  else
    let positive_mask := gt0_mask market_ret in
    let negative_mask := lt0_mask market_ret in
    pos <- directional_beta stock_ret market_ret positive_mask ;;
    neg <- directional_beta stock_ret market_ret negative_mask ;;
    Ok (Some {| beta := fdiv covariance market_variance;
                positive_beta := pos;
                negative_beta := neg;
                months := length stock_ret;
                positive_months := np_sum_mask positive_mask;
                negative_months := np_sum_mask negative_mask |}).

Definition calculate_beta_monthly_body (stock_data market_data : option DataFrame)
  : exc (option MonthlyResult) :=
  match resample_to_monthly stock_data, resample_to_monthly market_data with
  | Some stock_monthly, Some market_monthly =>
      let common_dates := intersection (index stock_monthly) (index market_monthly) in
      if (length common_dates <? 24)%nat then Ok None
      else
        stock_aligned <- loc stock_monthly common_dates ;;
        market_aligned <- loc market_monthly common_dates ;;
        estimate (values stock_aligned) (values market_aligned)
  | _, _ => Ok None
  end.

Definition calculate_beta_monthly (stock_data market_data : option DataFrame)
  : option MonthlyResult * list message :=
  match calculate_beta_monthly_body stock_data market_data with
  | Ok r => (r, [])
  | Raise e => (None, [ErrorCalculatingBeta e])
  end.

End WithResample.

End Monthly.

(** ** compare_positive_beta_methods.py *)

Module ComparePositive.

Section Estimator.

Context {stats : Statistics}.

Definition calculate_positive_beta_original_method (stock_returns market_returns : list Q)
  : exc (option float64 * nat) :=
  let positive_mask := gt0_mask market_returns in
  let positive_days_count := np_sum_mask positive_mask in
  if (20 <? positive_days_count)%nat then
    stock_pos <- bool_index stock_returns positive_mask ;;
    market_pos <- bool_index market_returns positive_mask ;;
    pos_covariance <- np_cov stock_pos market_pos ;;
    let pos_market_variance := np_var market_pos in
    if fgt0 pos_market_variance
    then Ok (Some (fdiv pos_covariance pos_market_variance), positive_days_count)
    else Ok (None, positive_days_count)
  else Ok (None, positive_days_count).

End Estimator.

End ComparePositive.

(** ** yahoo_beta_replication.py

    Method A and Method B are compared with one another as formulas:
    their statistics are the ones computed without rounding. *)

Module YahooReplication.

(** Lines 95-98, "Method A: Standard covariance/variance". *)
Definition beta_a (stock_ret market_ret : list Q) : exc float64 :=
  covariance <- np_cov stock_ret market_ret ;;
  let market_variance := np_var_ddof 1 market_ret in
  Ok (fdiv covariance market_variance).

(** Lines 100-103, "Method B: Linear regression (slope)". *)
Definition beta_b (stock_ret market_ret : list Q) : exc float64 :=
  linregress_slope market_ret stock_ret.

End YahooReplication.

(** ** explain_beta_methods.py, demonstrate_with_real_data

    As for yahoo_beta_replication.py, the statistics are the ones
    computed without rounding. *)

Module ExplainMethods.

(** np.sum((a - a_mean) * (b - b_mean)) *)
Definition sum_dev_products (a b : list Q) : exc Q :=
  prods <- np_multiply_arrays (np_sub_scalar a (mean a)) (np_sub_scalar b (mean b)) ;;
  Ok (Qsum prods).

(** np.sum((a - a_mean) ** 2) *)
Definition sum_dev_squares (a : list Q) : Q :=
  Qsum (map (fun d => d * d) (np_sub_scalar a (mean a))).

(** len(a) - 1, a Python integer. *)
Definition len_minus_1 (a : list Q) : Q := inject_Z (Z.of_nat (length a) - 1).

(** Lines 122-130. *)
Definition beta_cov_manual (stock_ret market_ret : list Q) : exc float64 :=
  cov_numerator <- sum_dev_products stock_ret market_ret ;;
  let cov_manual := fdiv (Finite cov_numerator) (Finite (len_minus_1 stock_ret)) in
  let var_numerator := sum_dev_squares market_ret in
  let var_manual := fdiv (Finite var_numerator) (Finite (len_minus_1 market_ret)) in
  Ok (fdiv cov_manual var_manual).

(** Lines 137-140. *)
Definition beta_cov_numpy (stock_ret market_ret : list Q) : exc float64 :=
  covariance <- np_cov stock_ret market_ret ;;
  let variance := np_var_ddof 1 market_ret in
  Ok (fdiv covariance variance).

(** Line 151. *)
Definition beta_reg_manual (stock_ret market_ret : list Q) : exc float64 :=
  num <- sum_dev_products market_ret stock_ret ;;
  Ok (fdiv (Finite num) (Finite (sum_dev_squares market_ret))).

(** Line 156. *)
Definition slope (stock_ret market_ret : list Q) : exc float64 :=
  linregress_slope market_ret stock_ret.

End ExplainMethods.

(** ** analyze_nvidia_beta.py, the loop body of analyze_nvidia_beta_periods *)

Module AnalyzeNvidia.

(** Lines 54-59: returns of each download, cut to the shorter length.
    The code cuts the bare value arrays; the rows are kept here with
    their timestamps, which the cut does not look at, so that one can
    see which dates end up paired.  The nan mask of lines 62-64 keeps
    every pair, the returns of prices being numbers. *)
Definition paired_returns (nvda_period spy_period : DataFrame) : Series Q * Series Q :=
  let nvda_returns := dropna (pct_change nvda_period) in
  let spy_returns := dropna (pct_change spy_period) in
  let min_len := Nat.min (length nvda_returns) (length spy_returns) in
  (firstn min_len nvda_returns, firstn min_len spy_returns).

Section Period.

Context {stats : Statistics}.

(** Lines 53-67: the beta printed for one period, [None] when a guard
    skips the period. *)
Definition period_beta (nvda_period spy_period : DataFrame) : exc (option float64) :=
  if (50 <? length nvda_period)%nat then
    let (nvda_rows, spy_rows) := paired_returns nvda_period spy_period in
    let nvda_clean := values nvda_rows in
    let spy_clean := values spy_rows in
    if (50 <? length nvda_clean)%nat then
      c <- np_cov nvda_clean spy_clean ;;
      Ok (Some (fdiv c (np_var spy_clean)))
    else Ok None
  else Ok None.

End Period.

End AnalyzeNvidia.

(** ** final_test.py *)

Module FinalTest.

(** Lines 21-22: np.diff(prices) / prices[:-1]. *)
Definition returns_of (prices : list price) : exc (list Q) :=
  let pv := map price_val prices in
  np_divide_arrays (np_diff pv) (removelast pv).

End FinalTest.

(** ** getBars.py *)

Module GetBars.

(** One row of the frame yf.download returns; [None] is nan. *)
Record RawRow : Type := mkRawRow {
  row_ts : Z;
  row_adj_close : option price;
  row_close : option price
}.

(** The downloaded frame: which of the two close columns it has, and
    its rows. *)
Record RawFrame : Type := mkRawFrame {
  has_adj_close : bool;
  has_close : bool;
  raw_rows : list RawRow
}.

(** What the call of yf.download does: it raises or returns a frame. *)
Inductive download_result : Type :=
| DownloadRaises (e : exn)
| Downloaded (df : RawFrame).

(** df.dropna(subset=['close']) *)
Fixpoint dropna_close (col : Series (option price)) : DataFrame :=
  match col with
  | [] => []
  | (t, Some p) :: col' => (t, p) :: dropna_close col'
  | (_, None) :: col' => dropna_close col'
  end.

(** getBars: the frame returned (or None) and what is printed. *)
Definition getBars (download : download_result) : option DataFrame * list message :=
  match download with
  | DownloadRaises e => (None, [ErrorFetchingData e])
  | Downloaded df =>
      match raw_rows df with
      | [] => (None, [NoDataFound])
      | rows =>
          let close :=
            if has_adj_close df
            then Some (map (fun r => (row_ts r, row_adj_close r)) rows)
            else if has_close df
            then Some (map (fun r => (row_ts r, row_close r)) rows)
            else None in
          match close with
          | None => (None, [NoClosePriceColumn])
          | Some col =>
              match dropna_close col with
              | [] => (None, [AllClosePricesNaN])
              | kept => (Some kept, [SuccessfullyFetched (length kept)])
              end
          end
      end
  end.

End GetBars.

(** ** beta_5year_comparison.py, main: one turn of the loop over symbols *)

Module Main5Year.

Import GetBars Beta5Year.

Section Loop.

Context {stats : Statistics}.

(** Lines 111-154 for one symbol: the row appended to [results], if
    any, and what is printed. *)
Definition process_symbol (download : download_result) (market_data : DataFrame)
  : option BetaResult * list message :=
  let (stock_data, log1) := getBars download in
  match stock_data with
  | None => (None, log1 ++ [InsufficientFiveYearData])
  | Some stock_df =>
      if (length stock_df <? 50)%nat
      then (None, log1 ++ [InsufficientFiveYearData])
      else
        let (beta_result, log2) := calculate_beta_simple (Some stock_df) (Some market_data) in
        match beta_result with
        | None => (None, log1 ++ log2 ++ [BetaCalculationFailed])
        | Some r => (Some r, log1 ++ log2 ++ [BetaComputed])
        end
  end.

End Loop.

End Main5Year.

(** ** What the estimators report, stated once *)

(** The mask of the observations whose benchmark return is exactly
    zero: the complement of the two masks of the estimators. *)
Definition eq0_mask (x : list Q) : list bool := map (fun m => Qeq_bool m 0) x.

(** The value a directional block reports, with the statistics
    computed without rounding, for the subset selected by [mask] when
    it needs more than [k] observations: the sample covariance over
    the population variance of the subset, or None. *)
Definition directional_value (k : nat) (stock_ret market_ret : list Q) (mask : list bool)
  : option float64 :=
  if (k <? np_sum_mask mask)%nat && fgt0 (np_var (masked market_ret mask))
  then Some (Finite (sample_cov (masked stock_ret mask) (masked market_ret mask)
                     / variance 0 (masked market_ret mask)))
  else None.

(** ** The directional split, in the words of the specification

    The aligned set is the list of (asset return, benchmark return)
    observations [combine stock_ret market_ret]. *)

(** The observations with benchmark_return > 0. *)
Definition positive_subset (stock_ret market_ret : list Q) : list (Q * Q) :=
  filter (fun o => Qlt_bool 0 (snd o)) (combine stock_ret market_ret).

(** The observations with benchmark_return < 0. *)
Definition negative_subset (stock_ret market_ret : list Q) : list (Q * Q) :=
  filter (fun o => Qlt_bool (snd o) 0) (combine stock_ret market_ret).

(** The observations with benchmark_return == 0. *)
Definition zero_set (stock_ret market_ret : list Q) : list (Q * Q) :=
  filter (fun o => Qeq_bool (snd o) 0) (combine stock_ret market_ret).

Section Reported.

Context {stats : Statistics}.

(** The benchmark variance of a set of observations as numpy computes
    it. *)
Definition computed_variance (obs : list (Q * Q)) : float64 :=
  var_value (map snd obs).

(** The covariance/variance formula on a set of observations: the
    computed covariance of the two sides over the computed variance
    of the benchmark side. *)
Definition cov_over_var (obs : list (Q * Q)) : float64 :=
  fdiv (cov_value (map fst obs) (map snd obs)) (computed_variance obs).

(** What a directional block with limit [k] makes of a subset: the
    formula when the subset has more than [k] observations and a
    computed variance greater than zero, None otherwise. *)
Definition subset_beta (k : nat) (obs : list (Q * Q)) : option float64 :=
  if (k <? length obs)%nat && fgt0 (computed_variance obs)
  then Some (cov_over_var obs)
  else None.

(** A directional beta [b] of the subset [obs] is only ever the
    quotient by a computed variance that is greater than zero, and a
    subset whose computed variance is zero gets none. *)
Definition variance_guarded (k : nat) (obs : list (Q * Q)) (b : option float64) : Prop :=
  (forall x, b = Some x ->
     (k < length obs)%nat /\
     fgt0 (computed_variance obs) = true /\
     feq0 (computed_variance obs) = false /\
     x = cov_over_var obs) /\
  (feq0 (computed_variance obs) = true -> b = None) /\
  (fgt0 (computed_variance obs) = false -> b = None).

(** The rule of a directional block with limit [k]: the formula on the
    subset when it has more than [k] observations and a computed
    variance greater than zero, None when it has [k] or fewer, or a
    computed variance that is not greater than zero. *)
Definition threshold_rule (k : nat) (obs : list (Q * Q)) (b : option float64) : Prop :=
  ((k < length obs)%nat /\ fgt0 (computed_variance obs) = true ->
     b = Some (cov_over_var obs)) /\
  ((length obs <= k)%nat \/ fgt0 (computed_variance obs) = false -> b = None).

End Reported.

(** ** Concrete price histories *)

Module Examples.

(** [n] repetitions of a cycle of whole-number closes, on the
    consecutive dates 0, 1, 2, ... *)
Definition bars (cycle : list positive) (n : nat) : DataFrame :=
  combine (map Z.of_nat (seq 0 (n * length cycle)))
          (flat_map (fun _ => map (fun c => mkPrice c 1) cycle) (seq 0 n)).

(** A benchmark that goes 4, 6, 3, 6, 4, 6, ...: returns +1/2, -1/2,
    +1, -1/3 in turn (56 closes). *)
Definition market_zigzag : DataFrame := bars [4; 6; 3; 6]%positive 14.

(** A stock that stands still whenever that benchmark rises and moves
    when it falls: 10, 10, 5, 5, 10, ... (56 closes). *)
Definition stock_still_on_rises : DataFrame := bars [10; 10; 5; 5]%positive 14.

(** A benchmark all of whose rises are a doubling: 4, 8, 4, 8, 2, 4,
    8, ... (55 closes). *)
Definition market_doubling : DataFrame := bars [4; 8; 4; 8; 2]%positive 11.

Definition stock_wandering : DataFrame := bars [10; 12; 9; 11; 10]%positive 11.

(** A benchmark that never moves (55 closes). *)
Definition market_flat : DataFrame := bars [7]%positive 55.

(** The same dates with one bar missing. *)
Definition without_date (t : Z) (df : DataFrame) : DataFrame :=
  filter (fun row => negb (fst row =? t)%Z) df.

(** Ten bars only. *)
Definition short_history : DataFrame := bars [7; 8]%positive 5.

(** A download that holds the given closes in both close columns. *)
Definition raw_of (df : DataFrame) : GetBars.RawFrame :=
  {| GetBars.has_adj_close := true;
     GetBars.has_close := true;
     GetBars.raw_rows :=
       map (fun row => GetBars.mkRawRow (fst row) (Some (snd row)) (Some (snd row))) df |}.

(** The return arrays calculate_beta_simple works on. *)
Definition aligned_of (stock_data market_data : DataFrame) : list Q * list Q :=
  match Beta5Year.align_on_common_dates stock_data market_data with
  | Ok (Some arrays) => arrays
  | _ => ([], [])
  end.

(** Five aligned returns: 2%, -1%, 3%, 0, 1.5% against 1%, -0.5%, 2%,
    0, 1%. *)
Definition five_asset_returns : list Q := [2 # 100; -1 # 100; 3 # 100; 0; 15 # 1000].

Definition five_benchmark_returns : list Q := [1 # 100; -5 # 1000; 2 # 100; 0; 1 # 100].

End Examples.

(** ** More float64 operations *)

Module Floats.

(** [a - b] *)
Definition fsub (a b : float64) : float64 :=
  match a, b with
  | NaN, _ | _, NaN => NaN
  | Finite x, Finite y => Finite (x - y)
  | Finite _, PosInf => NegInf
  | Finite _, NegInf => PosInf
  | PosInf, PosInf | NegInf, NegInf => NaN
  | PosInf, _ => PosInf
  | NegInf, _ => NegInf
  end.

(** abs(a) *)
Definition fabs (a : float64) : float64 :=
  match a with
  | Finite x => Finite (Qabs x)
  | PosInf | NegInf => PosInf
  | NaN => NaN
  end.

(** [a < b]; false as soon as one side is nan. *)
Definition flt (a b : float64) : bool :=
  match a, b with
  | NaN, _ | _, NaN => false
  | Finite x, Finite y => Qlt_bool x y
  | Finite _, PosInf => true
  | Finite _, NegInf => false
  | PosInf, _ => false
  | NegInf, NegInf => false
  | NegInf, _ => true
  end.

End Floats.

Import Floats.

(** ** corrected_beta_analysis.py, the script above calculate_beta_fixed *)

Module CorrectedScript.

Section Script.

Context {stats : Statistics}.

(** Lines 20-40: returns of the two close columns, their common dates,
    and covariance over variance with no guard. *)
Definition manual_beta (nvda_prices spy_prices : Series price) : exc float64 :=
  let nvda_returns := dropna (pct_change nvda_prices) in
  let spy_returns := dropna (pct_change spy_prices) in
  let common_dates := intersection (index nvda_returns) (index spy_returns) in
  nvda_aligned <- loc nvda_returns common_dates ;;
  spy_aligned <- loc spy_returns common_dates ;;
  covariance <- np_cov (values nvda_aligned) (values spy_aligned) ;;
  let market_variance := np_var (values spy_aligned) in
  Ok (fdiv covariance market_variance).

End Script.

End CorrectedScript.

(** ** compare_positive_beta_methods.py, the regression method *)

Module CompareMethods.

Definition calculate_positive_beta_regression_method (stock_returns market_returns : list Q)
  : exc (option float64 * nat) :=
  let positive_mask := gt0_mask market_returns in
  let positive_days_count := np_sum_mask positive_mask in
  if (5 <? positive_days_count)%nat then
    stock_pos <- bool_index stock_returns positive_mask ;;
    market_pos <- bool_index market_returns positive_mask ;;
    if (1 <? length stock_pos)%nat then
      slope_pos <- linregress_slope market_pos stock_pos ;;
      Ok (Some slope_pos, positive_days_count)
    else Ok (None, positive_days_count)
  else Ok (None, positive_days_count).

End CompareMethods.

(** ** yahoo_beta_replication.py: one method of get_yahoo_style_beta,
    and the search for the best match in main *)

Module YahooLoop.

Record MethodResult : Type := mkMethodResult {
  Beta_CovVar : float64;
  Beta_Regression : float64;
  Months : nat;
  Start_Date : Z;
  End_Date : Z
}.

(** s.tail(n) *)
Definition tail {A : Type} (n : nat) (l : list A) : list A :=
  skipn (length l - n) l.

(** idx[0] and idx[-1] *)
Definition first_label (idx : list Z) : exc Z :=
  match idx with
  | [] => Raise IndexError
  | t :: _ => Ok t
  end.

Definition last_label (idx : list Z) : exc Z :=
  match idx with
  | [] => Raise IndexError
  | t :: rest => Ok (last rest t)
  end.

(** Lines 70-127 for one pair of monthly price series: [None] when
    fewer than 12 months are common.  Method C and R-squared need a
    square root and are left out. *)
Definition method_result (stock_monthly market_monthly : Series price)
  : exc (option MethodResult) :=
  let stock_returns := dropna (pct_change stock_monthly) in
  let market_returns := dropna (pct_change market_monthly) in
  let common_dates := intersection (index stock_returns) (index market_returns) in
  if (length common_dates <? 12)%nat then Ok None
  else
    stock_all <- loc stock_returns common_dates ;;
    market_all <- loc market_returns common_dates ;;
    let over := (60 <? length stock_all)%nat in
    let stock_aligned := if over then tail 60 stock_all else stock_all in
    let market_aligned := if over then tail 60 market_all else market_all in
    start <- first_label (index stock_aligned) ;;
    stop <- last_label (index stock_aligned) ;;
    beta_a <- YahooReplication.beta_a (values stock_aligned) (values market_aligned) ;;
    beta_b <- YahooReplication.beta_b (values stock_aligned) (values market_aligned) ;;
    Ok (Some {| Beta_CovVar := beta_a;
                Beta_Regression := beta_b;
                Months := length stock_aligned;
                Start_Date := start;
                End_Date := stop |}).

(** Yahoo's figure the script compares with. *)
Definition yahoo_target : Q := 212 # 100.

(** Lines 189-203 of main: the loop that keeps the row whose
    regression beta is nearest to 2.12, started from no row and an
    infinite distance. *)
Definition best_step {A : Type} (beta_of : A -> float64) (st : option A * float64) (row : A)
  : option A * float64 :=
  let diff := fabs (fsub (beta_of row) (Finite yahoo_target)) in
  if flt diff (snd st) then (Some row, diff) else st.

Definition best_match {A : Type} (beta_of : A -> float64) (rows : list A)
  : option A * float64 :=
  fold_left (best_step beta_of) rows (None, PosInf).

End YahooLoop.

(** ** monthly_beta_10year.py, main: the results table and the regime
    breakdown *)

Module MonthlyMain.

(** row['Positive_Beta'] if pd.notna(row['Positive_Beta']) else 0 *)
Definition table_beta (b : option float64) : float64 :=
  match b with
  | None | Some NaN => Finite 0
  | Some x => x
  end.

(** Lines 263-265: total, positive and negative months of the
    benchmark's monthly returns. *)
Definition regime_breakdown (market_monthly : Series Q) : nat * nat * nat :=
  let total_months := length market_monthly in
  let positive_months := length (filter (fun row => Qlt_bool 0 (snd row)) market_monthly) in
  let negative_months := (total_months - positive_months)%nat in
  (total_months, positive_months, negative_months).

End MonthlyMain.

(** What the best-match loop of yahoo_beta_replication.py has established
    after the rows [seen]: no row with a finite beta yet, or the row
    whose beta is nearest to Yahoo's figure. *)
Definition best_so_far {A : Type} (beta_of : A -> float64) (seen : list A)
  (st : option A * float64) : Prop :=
  match fst st with
  | None =>
      snd st = PosInf /\ forall row, In row seen -> is_finite (beta_of row) = false
  | Some best =>
      In best seen /\
      exists b, beta_of best = Finite b /\
                snd st = Finite (Qabs (b - YahooLoop.yahoo_target)) /\
                forall row b', In row seen -> beta_of row = Finite b' ->
                  Qabs (b - YahooLoop.yahoo_target) <= Qabs (b' - YahooLoop.yahoo_target)
  end.

(** The close getBars reads in a row: Adj Close when the frame has
    that column, Close otherwise. *)
Definition close_of (raw : GetBars.RawFrame) (r : GetBars.RawRow) : option price :=
  if GetBars.has_adj_close raw then GetBars.row_adj_close r else GetBars.row_close r.

(** The bars of [df] on the dates that [other] has too. *)
Definition restrict (df other : DataFrame) : DataFrame :=
  filter (fun row => mem (fst row) (index other)) df.

(** * Properties *)

(** ** Sums, means and deviations *)

Section Sums.

Lemma Qsum_cons (a : Q) (l : list Q) : Qsum (a :: l) == a + Qsum l.
Proof. unfold Qsum; cbn [fold_right]. apply Qred_correct. Qed.

Lemma Qsum_app (l1 l2 : list Q) : Qsum (l1 ++ l2) == Qsum l1 + Qsum l2.
Proof.
  induction l1 as [|a l1 IH]; cbn [app].
  - change (Qsum []) with 0. ring.
  - rewrite !Qsum_cons, IH. ring.
Qed.

Lemma Qsum_map_ext {A : Type} (f g : A -> Q) (l : list A) :
  (forall a, In a l -> f a == g a) -> Qsum (map f l) == Qsum (map g l).
Proof.
  induction l as [|a l IH]; intros H; cbn [map].
  - reflexivity.
  - assert (Ha : f a == g a) by (apply H; now left).
    rewrite !Qsum_cons, IH, Ha.
    + reflexivity.
    + intros b Hb. apply H. now right.
Qed.

Lemma Qsum_nonneg (l : list Q) : (forall v, In v l -> 0 <= v) -> 0 <= Qsum l.
Proof.
  induction l as [|a l IH]; intros H.
  - change (Qsum []) with 0. apply Qle_refl.
  - rewrite Qsum_cons.
    assert (0 <= a) by (apply H; now left).
    assert (0 <= Qsum l) by (apply IH; intros v Hv; apply H; now right).
    lra.
Qed.

Lemma Qsum_zero_terms (l : list Q) :
  (forall v, In v l -> 0 <= v) -> Qsum l == 0 -> forall v, In v l -> v == 0.
Proof.
  induction l as [|a l IH]; intros Hpos Hsum v Hv.
  - destruct Hv.
  - rewrite Qsum_cons in Hsum.
    assert (Ha : 0 <= a) by (apply Hpos; now left).
    assert (Hl : 0 <= Qsum l) by (apply Qsum_nonneg; intros w Hw; apply Hpos; now right).
    destruct Hv as [<-|Hv].
    + lra.
    + apply IH; auto.
      * intros w Hw. apply Hpos. now right.
      * lra.
Qed.

Lemma Qsum_const (c : Q) (l : list Q) :
  (forall v, In v l -> v == c) -> Qsum l == Qlen l * c.
Proof.
  unfold Qlen. induction l as [|a l IH]; intros H.
  - change (Qsum []) with 0. cbn [length]. change (inject_Z (Z.of_nat 0)) with 0. ring.
  - assert (Ha : a == c) by (apply H; now left).
    cbn [length]. rewrite Nat2Z.inj_succ, <- Z.add_1_r, inject_Z_plus.
    rewrite Qsum_cons, IH, Ha by (intros v Hv; apply H; now right). ring.
Qed.

Lemma Qlen_pos (l : list Q) : l <> [] -> 0 < Qlen l.
Proof.
  destruct l as [|a l]; [congruence|intros _].
  unfold Qlen. replace 0 with (inject_Z 0) by reflexivity.
  rewrite <- Zlt_Qlt. cbn [length]. lia.
Qed.

Lemma inject_nat_pos (n : nat) : (0 < n)%nat -> 0 < inject_Z (Z.of_nat n).
Proof.
  intros H. replace 0 with (inject_Z 0) by reflexivity.
  rewrite <- Zlt_Qlt. lia.
Qed.

Lemma mean_spec (x : list Q) : mean x == Qsum x / Qlen x.
Proof. unfold mean. apply Qred_correct. Qed.

Lemma mean_const (c : Q) (x : list Q) :
  x <> [] -> (forall v, In v x -> v == c) -> mean x == c.
Proof.
  intros Hne H. pose proof (Qsum_const c x H) as Hs.
  rewrite mean_spec, Hs.
  pose proof (Qlen_pos x Hne). field. lra.
Qed.

Lemma Qsq_nonneg (q : Q) : 0 <= q * q.
Proof. unfold Qle, Qmult; simpl. rewrite Z.mul_1_r. apply Z.square_nonneg. Qed.

Lemma Qsq_zero (q : Q) : q * q == 0 -> q == 0.
Proof. unfold Qeq, Qmult; simpl. nia. Qed.

(** Sum of squared deviations about any centre. *)
Lemma sq_dev_sum_nonneg (m : Q) (x : list Q) :
  0 <= Qsum (map (fun v => (v - m) * (v - m)) x).
Proof.
  apply Qsum_nonneg. intros v Hv. apply in_map_iff in Hv.
  destruct Hv as [w [<- _]]. apply Qsq_nonneg.
Qed.

Lemma sum_sq_dev_nonneg (x : list Q) : 0 <= sum_sq_dev x.
Proof. unfold sum_sq_dev. apply sq_dev_sum_nonneg. Qed.

Lemma sum_sq_dev_zero_iff (x : list Q) :
  sum_sq_dev x == 0 <-> (forall v, In v x -> v == mean x).
Proof.
  unfold sum_sq_dev. cbv zeta. split.
  - intros H v Hv.
    assert (Hz : (v - mean x) * (v - mean x) == 0).
    { apply (Qsum_zero_terms (map (fun w => (w - mean x) * (w - mean x)) x)); auto.
      - intros w Hw. apply in_map_iff in Hw. destruct Hw as [u [<- _]].
        apply Qsq_nonneg.
      - apply in_map_iff. now exists v. }
    apply Qsq_zero in Hz. lra.
  - intros H.
    rewrite (Qsum_map_ext _ (fun _ => 0)).
    + rewrite (Qsum_const 0).
      * ring.
      * intros v Hv. apply in_map_iff in Hv. destruct Hv as [w [<- _]]. reflexivity.
    + intros v Hv. pose proof (H v Hv) as Hm. rewrite Hm. ring.
Qed.

Lemma sum_sq_dev_const (c : Q) (x : list Q) :
  (forall v, In v x -> v == c) -> sum_sq_dev x == 0.
Proof.
  intros H. destruct x as [|a x].
  - reflexivity.
  - apply sum_sq_dev_zero_iff. intros v Hv.
    assert (Hm : mean (a :: x) == c) by (apply mean_const; [congruence | auto]).
    rewrite Hm. auto.
Qed.

End Sums.

(** ** numpy statistics and boolean indexing *)

Section NumpyFacts.

Lemma Qlt_bool_iff (x y : Q) : Qlt_bool x y = true <-> x < y.
Proof.
  unfold Qlt_bool. rewrite negb_true_iff, <- not_true_iff_false, Qle_bool_iff.
  split; [apply Qnot_le_lt | apply Qlt_not_le].
Qed.

Lemma Qlt_bool_false_iff (x y : Q) : Qlt_bool x y = false <-> y <= x.
Proof.
  unfold Qlt_bool. rewrite negb_false_iff. apply Qle_bool_iff.
Qed.

Lemma Qeq_bool_false_iff (x y : Q) : Qeq_bool x y = false <-> ~ x == y.
Proof. rewrite <- not_true_iff_false, Qeq_bool_iff. reflexivity. Qed.

Lemma np_var_nonempty (x : list Q) : x <> [] -> np_var x = Finite (variance 0 x).
Proof. destruct x; [congruence | reflexivity]. Qed.

Lemma np_var_ddof1 (x : list Q) :
  (2 <= length x)%nat -> np_var_ddof 1 x = Finite (variance 1 x).
Proof.
  intros H. unfold np_var_ddof.
  destruct (Nat.leb_spec (length x) 1); [lia | reflexivity].
Qed.

Lemma np_cov_finite (x y : list Q) :
  length x = length y -> (2 <= length x)%nat ->
  np_cov x y = Ok (Finite (sample_cov x y)).
Proof.
  intros Hl Hn. unfold np_cov.
  rewrite (proj2 (Nat.eqb_eq _ _) Hl). cbn [negb cov_value exact].
  destruct (Nat.leb_spec (length x) 1); [lia | reflexivity].
Qed.

Lemma np_cov_same_length {stats : Statistics} (x y : list Q) :
  length x = length y -> np_cov x y = Ok (cov_value x y).
Proof.
  intros Hl. unfold np_cov. now rewrite (proj2 (Nat.eqb_eq _ _) Hl).
Qed.

Lemma np_cov_total {stats : Statistics} (x y : list Q) :
  length x = length y -> exists c, np_cov x y = Ok c.
Proof. intros Hl. rewrite np_cov_same_length by auto. eauto. Qed.

Lemma variance0_zero_iff (x : list Q) :
  x <> [] -> (variance 0 x == 0 <-> sum_sq_dev x == 0).
Proof.
  intros Hne. unfold variance. rewrite Nat.sub_0_r.
  pose proof (Qlen_pos x Hne) as Hp. unfold Qlen in Hp.
  split; intros H.
  - assert (E : sum_sq_dev x ==
                (sum_sq_dev x / inject_Z (Z.of_nat (length x))) * inject_Z (Z.of_nat (length x)))
      by (field; lra).
    rewrite E, H. ring.
  - rewrite H. field. lra.
Qed.

Lemma variance0_pos_iff (x : list Q) :
  x <> [] -> (0 < variance 0 x <-> 0 < sum_sq_dev x).
Proof.
  intros Hne. pose proof (sum_sq_dev_nonneg x) as Hnn.
  pose proof (variance0_zero_iff x Hne) as Hz.
  assert (Hv : 0 <= variance 0 x).
  { unfold variance. rewrite Nat.sub_0_r.
    pose proof (Qlen_pos x Hne) as Hp. unfold Qlen in Hp.
    apply Qle_shift_div_l; lra. }
  split; intros H.
  - destruct (Qlt_le_dec 0 (sum_sq_dev x)) as [|Hle]; auto.
    assert (sum_sq_dev x == 0) by lra. apply Hz in H0. lra.
  - destruct (Qlt_le_dec 0 (variance 0 x)) as [|Hle]; auto.
    assert (variance 0 x == 0) by lra. apply Hz in H0. lra.
Qed.

Lemma fdiv_finite (x y : Q) : ~ y == 0 -> fdiv (Finite x) (Finite y) = Finite (x / y).
Proof.
  intros H. cbn [fdiv]. now rewrite (proj2 (Qeq_bool_false_iff y 0) H).
Qed.

Lemma masked_length {A : Type} (x : list A) (mask : list bool) :
  length x = length mask -> length (masked x mask) = np_sum_mask mask.
Proof.
  unfold masked, np_sum_mask. rewrite length_map.
  revert mask. induction x as [|a x IH]; intros [|b mask] Hl; try discriminate; auto.
  cbn [combine filter snd]. injection Hl as Hl.
  destruct b; cbn [length]; rewrite IH; auto.
Qed.

Lemma bool_index_ok {A : Type} (x : list A) (mask : list bool) :
  length x = length mask -> bool_index x mask = Ok (masked x mask).
Proof.
  intros Hl. unfold bool_index. now rewrite (proj2 (Nat.eqb_eq _ _) Hl).
Qed.

Lemma gt0_mask_length (x : list Q) : length (gt0_mask x) = length x.
Proof. apply length_map. Qed.

Lemma lt0_mask_length (x : list Q) : length (lt0_mask x) = length x.
Proof. apply length_map. Qed.

End NumpyFacts.

Ltac directional_block :=
  intros Hs Hm;
  match goal with
  | |- ?f exact ?sr ?mr ?mask = Ok (directional_value ?k ?sr ?mr ?mask) =>
      unfold f, directional_value;
      destruct (Nat.ltb_spec k (np_sum_mask mask)) as [Hk|Hk]; cbn [andb]; [|reflexivity];
      rewrite (bool_index_ok sr mask Hs), (bool_index_ok mr mask Hm); cbn [exc_bind];
      pose proof (masked_length sr mask Hs) as Ls;
      pose proof (masked_length mr mask Hm) as Lm;
      try (destruct (Nat.ltb_spec 1 (length (masked sr mask))); [|lia]);
      rewrite np_cov_finite by lia; cbn [exc_bind];
      assert (Hne : masked mr mask <> []) by (intros E; rewrite E in Lm; cbn in Lm; lia);
      rewrite (np_var_nonempty _ Hne);
      cbn [fgt0];
      destruct (Qlt_bool 0 (variance 0 (masked mr mask))) eqn:Hv; [|reflexivity];
      apply Qlt_bool_iff in Hv;
      rewrite fdiv_finite by lra; reflexivity
  end.

Lemma directional_beta_5year (sr mr : list Q) (mask : list bool) :
  length sr = length mask -> length mr = length mask ->
  Beta5Year.directional_beta sr mr mask = Ok (directional_value 10 sr mr mask).
Proof. directional_block. Qed.

Lemma directional_beta_fixed (sr mr : list Q) (mask : list bool) :
  length sr = length mask -> length mr = length mask ->
  Corrected.directional_beta sr mr mask = Ok (directional_value 20 sr mr mask).
Proof. directional_block. Qed.

Lemma directional_beta_monthly (sr mr : list Q) (mask : list bool) :
  length sr = length mask -> length mr = length mask ->
  Monthly.directional_beta sr mr mask = Ok (directional_value 5 sr mr mask).
Proof. directional_block. Qed.

(** ** pandas: indexes, label lookup, returns *)

Section PandasFacts.

Lemma mem_In (t : Z) (l : list Z) : mem t l = true <-> In t l.
Proof.
  unfold mem. rewrite existsb_exists. split.
  - intros [u [Hu E]]. apply Z.eqb_eq in E. now subst.
  - intros H. exists t. split; auto. apply Z.eqb_refl.
Qed.

Lemma unique_In (t : Z) (l : list Z) : In t (unique l) <-> In t l.
Proof.
  induction l as [|a l IH]; cbn [unique]; [reflexivity|].
  cbn [In]. rewrite filter_In, IH, negb_true_iff, Z.eqb_neq.
  destruct (Z.eq_dec a t); intuition congruence.
Qed.

Lemma intersection_In (t : Z) (a b : list Z) :
  In t (intersection a b) <-> In t a /\ In t b.
Proof. unfold intersection. now rewrite filter_In, unique_In, mem_In. Qed.

Lemma loc_total {A : Type} (s : Series A) (labels : list Z) :
  (forall t, In t labels -> In t (index s)) ->
  exists rows, loc s labels = Ok rows /\ (length labels <= length rows)%nat.
Proof.
  induction labels as [|t labels IH]; intros H.
  - exists []. split; auto.
  - destruct IH as [rest [E L]]; [intros u Hu; apply H; now right|].
    cbn [loc]. rewrite E.
    destruct (filter (fun row => (fst row =? t)%Z) s) as [|r rows] eqn:F.
    + exfalso. assert (Ht : In t (index s)) by (apply H; now left).
      unfold index in Ht. apply in_map_iff in Ht. destruct Ht as [row [Hf Hr]].
      assert (Hin : In row (filter (fun row => (fst row =? t)%Z) s))
        by (apply filter_In; split; auto; now apply Z.eqb_eq).
      rewrite F in Hin. destruct Hin.
    + exists ((r :: rows) ++ rest). split; auto.
      rewrite length_app. cbn [length]. lia.
Qed.

Lemma dropna_pct_change_from_length (p : price) (s : Series price) :
  length (dropna (pct_change_from p s)) = length s.
Proof.
  revert p. induction s as [|[t q] s IH]; intros p; cbn; auto.
Qed.

Lemma dropna_pct_change_length (s : Series price) :
  length (dropna (pct_change s)) = (length s - 1)%nat.
Proof.
  destruct s as [|[t p] s]; cbn [pct_change dropna length]; auto.
  rewrite dropna_pct_change_from_length. lia.
Qed.

Lemma values_length {A : Type} (s : Series A) : length (values s) = length s.
Proof. apply length_map. Qed.

Lemma index_length {A : Type} (s : Series A) : length (index s) = length s.
Proof. apply length_map. Qed.

End PandasFacts.

(** ** calculate_beta_simple: the shape of its results *)

Section Beta5YearFacts.

Import Beta5Year.

(** The alignment never raises; the arrays it returns have one length,
    at least 49. *)
Lemma align_on_common_dates_ok (stock_data market_data : DataFrame) :
  exists a, align_on_common_dates stock_data market_data = Ok a /\
    forall sr mr, a = Some (sr, mr) ->
      length sr = length mr /\ (49 <= length sr)%nat.
Proof.
  unfold align_on_common_dates.
  set (common := intersection (index stock_data) (index market_data)).
  destruct (Nat.ltb_spec (length common) 50) as [Hlt|Hge].
  - exists None. split; auto. discriminate.
  - destruct (loc_total stock_data common) as [srows [Es Ls]].
    { intros t Ht. now apply intersection_In in Ht. }
    destruct (loc_total market_data common) as [mrows [Em Lm]].
    { intros t Ht. now apply intersection_In in Ht. }
    rewrite Es, Em. cbn [exc_bind].
    eexists. split; [reflexivity|].
    intros sr mr E. injection E as <- <-.
    rewrite !length_firstn, !values_length, !dropna_pct_change_length. lia.
Qed.

(** The estimate on two arrays of one length: it never raises, refuses
    a benchmark variance that compares equal to 0, and otherwise
    reports the quotients below. *)
Lemma estimate_shape (sr mr : list Q) :
  length sr = length mr ->
  exists c, np_cov sr mr = Ok c /\
    estimate sr mr =
      Ok (if feq0 (np_var mr) then None
          else Some {| beta := fdiv c (np_var mr);
                       positive_beta := directional_value 10 sr mr (gt0_mask mr);
                       negative_beta := directional_value 10 sr mr (lt0_mask mr);
                       data_points := length sr;
                       positive_days := np_sum_mask (gt0_mask mr);
                       negative_days := np_sum_mask (lt0_mask mr) |}).
Proof.
  intros Hl. destruct (np_cov_total sr mr Hl) as [c Hc].
  exists c. split; auto.
  unfold estimate. rewrite Hc. cbn [exc_bind].
  destruct (feq0 (np_var mr)); auto.
  rewrite !directional_beta_5year
    by (rewrite ?gt0_mask_length, ?lt0_mask_length; auto).
  reflexivity.
Qed.

(** A report comes from an aligned pair of at least 49 observations. *)
Lemma calculate_beta_simple_report (stock_data market_data : DataFrame) (r : BetaResult) :
  fst (calculate_beta_simple (Some stock_data) (Some market_data)) = Some r ->
  exists sr mr,
    align_on_common_dates stock_data market_data = Ok (Some (sr, mr)) /\
    length sr = length mr /\ (49 <= length sr)%nat /\
    estimate sr mr = Ok (Some r).
Proof.
  unfold calculate_beta_simple, calculate_beta_simple_body. cbn [deref exc_bind].
  destruct (align_on_common_dates_ok stock_data market_data) as [a [Ea Ha]].
  rewrite Ea. cbn [exc_bind].
  destruct a as [[sr mr]|]; [|discriminate].
  destruct (Ha sr mr eq_refl) as [Hl Hn].
  destruct (estimate_shape sr mr Hl) as [c [Hc He]].
  rewrite He. cbn [fst]. intros E.
  exists sr, mr. repeat split; auto. now rewrite <- E.
Qed.

(** calculate_beta_simple raises nothing on two frames: it prints
    nothing. *)
Lemma calculate_beta_simple_silent (stock_data market_data : DataFrame) :
  snd (calculate_beta_simple (Some stock_data) (Some market_data)) = [].
Proof.
  unfold calculate_beta_simple, calculate_beta_simple_body. cbn [deref exc_bind].
  destruct (align_on_common_dates_ok stock_data market_data) as [a [Ea Ha]].
  rewrite Ea. cbn [exc_bind].
  destruct a as [[sr mr]|]; [|reflexivity].
  destruct (Ha sr mr eq_refl) as [Hl Hn].
  destruct (estimate_shape sr mr Hl) as [c [Hc He]].
  now rewrite He.
Qed.

End Beta5YearFacts.

Section DirectionalValue.

Lemma directional_value_cases (k : nat) (sr mr : list Q) (mask : list bool) :
  length mr = length mask ->
  ((k < np_sum_mask mask)%nat /\ 0 < variance 0 (masked mr mask) /\
   np_var (masked mr mask) = Finite (variance 0 (masked mr mask)) /\
   directional_value k sr mr mask
   = Some (Finite (sample_cov (masked sr mask) (masked mr mask)
                   / variance 0 (masked mr mask)))) \/
  (((np_sum_mask mask <= k)%nat \/ variance 0 (masked mr mask) <= 0) /\
   directional_value k sr mr mask = None).
Proof.
  intros Hm. unfold directional_value.
  destruct (Nat.ltb_spec k (np_sum_mask mask)) as [Hk|Hk]; cbn [andb].
  - assert (Hne : masked mr mask <> []).
    { intros E. pose proof (masked_length mr mask Hm) as L. rewrite E in L. cbn in L. lia. }
    rewrite (np_var_nonempty _ Hne). cbn [fgt0].
    destruct (Qlt_bool 0 (variance 0 (masked mr mask))) eqn:Hv.
    + left. apply Qlt_bool_iff in Hv. auto.
    + right. apply Qlt_bool_false_iff in Hv. auto.
  - right. auto.
Qed.

End DirectionalValue.

Section OtherEstimators.

Lemma monthly_estimate_shape (sr mr : list Q) :
  length sr = length mr ->
  exists c, np_cov sr mr = Ok c /\
    Monthly.estimate sr mr =
      Ok (if feq0 (np_var mr) then None
          else Some {| Monthly.beta := fdiv c (np_var mr);
                       Monthly.positive_beta := directional_value 5 sr mr (gt0_mask mr);
                       Monthly.negative_beta := directional_value 5 sr mr (lt0_mask mr);
                       Monthly.months := length sr;
                       Monthly.positive_months := np_sum_mask (gt0_mask mr);
                       Monthly.negative_months := np_sum_mask (lt0_mask mr) |}).
Proof.
  intros Hl. destruct (np_cov_total sr mr Hl) as [c Hc].
  exists c. split; auto.
  unfold Monthly.estimate. rewrite Hc. cbn [exc_bind].
  destruct (feq0 (np_var mr)); auto.
  rewrite !directional_beta_monthly
    by (rewrite ?gt0_mask_length, ?lt0_mask_length; auto).
  reflexivity.
Qed.

Lemma fixed_estimate_shape (n : nat) (sr mr : list Q) :
  length sr = length mr ->
  exists c, np_cov sr mr = Ok c /\
    Corrected.estimate n sr mr =
      Ok (if feq0 (np_var mr) then None
          else
            let pos := directional_value 20 sr mr (gt0_mask mr) in
            let neg := directional_value 20 sr mr (lt0_mask mr) in
            Some {| Corrected.traditional_beta := fdiv c (np_var mr);
                    Corrected.positive_beta := pos;
                    Corrected.negative_beta := neg;
                    Corrected.beta_ratio := Corrected.ratio_of pos neg;
                    Corrected.data_points := n;
                    Corrected.positive_days := np_sum_mask (gt0_mask mr);
                    Corrected.negative_days := np_sum_mask (lt0_mask mr) |}).
Proof.
  intros Hl. destruct (np_cov_total sr mr Hl) as [c Hc].
  exists c. split; auto.
  unfold Corrected.estimate. rewrite Hc. cbn [exc_bind].
  destruct (feq0 (np_var mr)); auto.
  rewrite !directional_beta_fixed
    by (rewrite ?gt0_mask_length, ?lt0_mask_length; auto).
  reflexivity.
Qed.

Lemma positive_beta_original_method_shape (sr mr : list Q) :
  length sr = length mr ->
  ComparePositive.calculate_positive_beta_original_method sr mr
  = Ok (directional_value 20 sr mr (gt0_mask mr), np_sum_mask (gt0_mask mr)).
Proof.
  intros Hl.
  pose proof (directional_beta_fixed sr mr (gt0_mask mr)) as H.
  rewrite gt0_mask_length in H. specialize (H Hl eq_refl).
  unfold Corrected.directional_beta in H.
  unfold ComparePositive.calculate_positive_beta_original_method.
  destruct (20 <? np_sum_mask (gt0_mask mr))%nat.
  - destruct (bool_index sr (gt0_mask mr)) as [ss|]; [|discriminate]. cbn [exc_bind] in *.
    destruct (bool_index mr (gt0_mask mr)) as [ms|]; [|discriminate]. cbn [exc_bind] in *.
    destruct (np_cov ss ms) as [c|]; [|discriminate]. cbn [exc_bind] in *.
    destruct (fgt0 (np_var ms)); injection H as <-; reflexivity.
  - injection H as <-. reflexivity.
Qed.

(** With two observations or more the overall beta is the sample
    covariance over the population variance. *)
Lemma beta_is_sample_cov_over_population_var (sr mr : list Q) (r : Beta5Year.BetaResult) :
  length sr = length mr -> (2 <= length sr)%nat ->
  Beta5Year.estimate sr mr = Ok (Some r) ->
  ~ variance 0 mr == 0 /\
  Beta5Year.beta r = Finite (sample_cov sr mr / variance 0 mr).
Proof.
  intros Hl Hn He. destruct (estimate_shape sr mr Hl) as [c [Hc E]].
  rewrite E in He. rewrite np_cov_finite in Hc by auto. injection Hc as <-.
  assert (Hne : mr <> []) by (intros ->; cbn in Hl; lia).
  rewrite (np_var_nonempty mr Hne) in He. cbn [feq0] in He.
  destruct (Qeq_bool (variance 0 mr) 0) eqn:Hz; [discriminate|].
  apply Qeq_bool_false_iff in Hz. injection He as <-. cbn [Beta5Year.beta].
  split; auto. now apply fdiv_finite.
Qed.

End OtherEstimators.

(** ** The directional split *)

Section DirectionalSplit.

Lemma masked_map_filter {A : Type} (f : Q -> bool) (x : list A) (mr : list Q) :
  length x = length mr ->
  masked x (map f mr) = map fst (filter (fun o => f (snd o)) (combine x mr)).
Proof.
  unfold masked. revert mr.
  induction x as [|a x IH]; intros [|m mr] Hl; try discriminate; auto.
  injection Hl as Hl. cbn [map combine filter snd].
  destruct (f m); cbn [map fst]; now rewrite IH.
Qed.

(** Three tests of which exactly one holds on every element split a
    list into three parts. *)
Lemma three_way_split {A : Type} (p1 p2 p3 : A -> bool) (l : list A) :
  (forall a, In a l ->
     (p1 a = true /\ p2 a = false /\ p3 a = false) \/
     (p1 a = false /\ p2 a = true /\ p3 a = false) \/
     (p1 a = false /\ p2 a = false /\ p3 a = true)) ->
  Permutation l (filter p1 l ++ filter p2 l ++ filter p3 l).
Proof.
  induction l as [|a l IH]; intros H; [constructor|].
  assert (IH' : Permutation l (filter p1 l ++ filter p2 l ++ filter p3 l))
    by (apply IH; intros b Hb; apply H; now right).
  cbn [filter].
  destruct (H a (or_introl eq_refl)) as [(E1 & E2 & E3)|[(E1 & E2 & E3)|(E1 & E2 & E3)]];
    rewrite E1, E2, E3.
  - cbn [app]. now constructor.
  - now apply Permutation_cons_app.
  - rewrite !app_assoc. apply Permutation_cons_app. now rewrite <- app_assoc.
Qed.

Lemma sign_cases (m : Q) :
  (Qlt_bool 0 m = true /\ Qlt_bool m 0 = false /\ Qeq_bool m 0 = false) \/
  (Qlt_bool 0 m = false /\ Qlt_bool m 0 = true /\ Qeq_bool m 0 = false) \/
  (Qlt_bool 0 m = false /\ Qlt_bool m 0 = false /\ Qeq_bool m 0 = true).
Proof.
  destruct (Q_dec 0 m) as [[H|H]|H].
  - left. rewrite Qlt_bool_false_iff, Qeq_bool_false_iff.
    repeat split; [now apply Qlt_bool_iff | lra | lra].
  - right; left. rewrite Qlt_bool_false_iff, Qeq_bool_false_iff.
    repeat split; [lra | now apply Qlt_bool_iff | lra].
  - right; right. rewrite !Qlt_bool_false_iff.
    repeat split; [lra | lra | apply Qeq_bool_iff; lra].
Qed.

End DirectionalSplit.

(** ** The estimators over any statistics *)

Section AnyStatistics.

Context {stats : Statistics}.

Lemma fst_combine {A B : Type} (x : list A) (y : list B) :
  length x = length y -> map fst (combine x y) = x.
Proof.
  revert y. induction x as [|a x IH]; intros [|b y] H; try discriminate; auto.
  injection H as H. cbn [combine map fst]. now rewrite IH.
Qed.

Lemma snd_combine {A B : Type} (x : list A) (y : list B) :
  length x = length y -> map snd (combine x y) = y.
Proof.
  revert y. induction x as [|a x IH]; intros [|b y] H; try discriminate; auto.
  injection H as H. cbn [combine map snd]. now rewrite IH.
Qed.

Lemma masked_snd_filter (f : Q -> bool) (sr mr : list Q) :
  length sr = length mr ->
  masked mr (map f mr) = map snd (filter (fun o => f (snd o)) (combine sr mr)).
Proof.
  unfold masked. revert mr.
  induction sr as [|a sr IH]; intros [|m mr] Hl; try discriminate; auto.
  injection Hl as Hl. cbn [map combine filter snd].
  destruct (f m); cbn [map fst snd]; now rewrite IH.
Qed.

Lemma mask_count_filter (f : Q -> bool) (sr mr : list Q) :
  length sr = length mr ->
  np_sum_mask (map f mr) = length (filter (fun o => f (snd o)) (combine sr mr)).
Proof.
  intros Hl. rewrite <- (masked_length mr (map f mr)) by now rewrite length_map.
  now rewrite (masked_snd_filter f sr mr Hl), length_map.
Qed.

Lemma cov_over_var_aligned (sr mr : list Q) :
  length sr = length mr ->
  cov_over_var (combine sr mr) = fdiv (cov_value sr mr) (np_var mr).
Proof.
  intros Hl. unfold cov_over_var, computed_variance, np_var.
  now rewrite fst_combine, snd_combine.
Qed.

End AnyStatistics.

(** One directional block on the mask [map f market_ret]: it reports
    what [subset_beta] makes of the observations that pass [f]. *)
Ltac subset_block :=
  intros Hl;
  match goal with
  | |- ?d _ ?sr ?mr (map ?f ?mr) = Ok (subset_beta ?k _) =>
      unfold d, subset_beta, cov_over_var, computed_variance;
      rewrite (mask_count_filter f sr mr Hl);
      destruct (Nat.ltb_spec k (length (filter (fun o => f (snd o)) (combine sr mr))))
        as [Hk|Hk]; cbn [andb]; [|reflexivity];
      rewrite (bool_index_ok sr (map f mr)), (bool_index_ok mr (map f mr))
        by (rewrite length_map; auto);
      cbn [exc_bind];
      rewrite (masked_map_filter f sr mr Hl), (masked_snd_filter f sr mr Hl);
      rewrite ?length_map;
      try (destruct (Nat.ltb_spec 1 (length (filter (fun o => f (snd o)) (combine sr mr))));
           [|lia]);
      rewrite np_cov_same_length by (now rewrite !length_map);
      cbn [exc_bind]; unfold np_var;
      destruct (fgt0 _); reflexivity
  end.

Section AnyEstimator.

Context {stats : Statistics}.

Lemma directional_beta_5year_subset (sr mr : list Q) (f : Q -> bool) :
  length sr = length mr ->
  Beta5Year.directional_beta sr mr (map f mr)
  = Ok (subset_beta 10 (filter (fun o => f (snd o)) (combine sr mr))).
Proof. subset_block. Qed.

Lemma directional_beta_fixed_subset (sr mr : list Q) (f : Q -> bool) :
  length sr = length mr ->
  Corrected.directional_beta sr mr (map f mr)
  = Ok (subset_beta 20 (filter (fun o => f (snd o)) (combine sr mr))).
Proof. subset_block. Qed.

Lemma directional_beta_monthly_subset (sr mr : list Q) (f : Q -> bool) :
  length sr = length mr ->
  Monthly.directional_beta sr mr (map f mr)
  = Ok (subset_beta 5 (filter (fun o => f (snd o)) (combine sr mr))).
Proof. subset_block. Qed.

(** The estimate of calculate_beta_simple on two arrays of one
    length, whatever the statistics: no exception; None when the
    computed benchmark variance compares equal to 0; otherwise the
    report below. *)
Lemma estimate_reports (sr mr : list Q) :
  length sr = length mr ->
  Beta5Year.estimate sr mr =
    Ok (if feq0 (np_var mr) then None
        else Some {| Beta5Year.beta := cov_over_var (combine sr mr);
                     Beta5Year.positive_beta := subset_beta 10 (positive_subset sr mr);
                     Beta5Year.negative_beta := subset_beta 10 (negative_subset sr mr);
                     Beta5Year.data_points := length sr;
                     Beta5Year.positive_days := length (positive_subset sr mr);
                     Beta5Year.negative_days := length (negative_subset sr mr) |}).
Proof.
  intros Hl. unfold Beta5Year.estimate. rewrite np_cov_same_length by auto.
  cbn [exc_bind]. destruct (feq0 (np_var mr)); auto.
  unfold gt0_mask, lt0_mask. rewrite !directional_beta_5year_subset by auto.
  cbn [exc_bind]. rewrite !(mask_count_filter _ sr mr Hl), cov_over_var_aligned by auto.
  reflexivity.
Qed.

Lemma fixed_estimate_reports (n : nat) (sr mr : list Q) :
  length sr = length mr ->
  Corrected.estimate n sr mr =
    Ok (if feq0 (np_var mr) then None
        else
          let pos := subset_beta 20 (positive_subset sr mr) in
          let neg := subset_beta 20 (negative_subset sr mr) in
          Some {| Corrected.traditional_beta := cov_over_var (combine sr mr);
                  Corrected.positive_beta := pos;
                  Corrected.negative_beta := neg;
                  Corrected.beta_ratio := Corrected.ratio_of pos neg;
                  Corrected.data_points := n;
                  Corrected.positive_days := length (positive_subset sr mr);
                  Corrected.negative_days := length (negative_subset sr mr) |}).
Proof.
  intros Hl. unfold Corrected.estimate. rewrite np_cov_same_length by auto.
  cbn [exc_bind]. destruct (feq0 (np_var mr)); auto.
  unfold gt0_mask, lt0_mask. rewrite !directional_beta_fixed_subset by auto.
  cbn [exc_bind]. rewrite !(mask_count_filter _ sr mr Hl), cov_over_var_aligned by auto.
  reflexivity.
Qed.

Lemma monthly_estimate_reports (sr mr : list Q) :
  length sr = length mr ->
  Monthly.estimate sr mr =
    Ok (if feq0 (np_var mr) then None
        else Some {| Monthly.beta := cov_over_var (combine sr mr);
                     Monthly.positive_beta := subset_beta 5 (positive_subset sr mr);
                     Monthly.negative_beta := subset_beta 5 (negative_subset sr mr);
                     Monthly.months := length sr;
                     Monthly.positive_months := length (positive_subset sr mr);
                     Monthly.negative_months := length (negative_subset sr mr) |}).
Proof.
  intros Hl. unfold Monthly.estimate. rewrite np_cov_same_length by auto.
  cbn [exc_bind]. destruct (feq0 (np_var mr)); auto.
  unfold gt0_mask, lt0_mask. rewrite !directional_beta_monthly_subset by auto.
  cbn [exc_bind]. rewrite !(mask_count_filter _ sr mr Hl), cov_over_var_aligned by auto.
  reflexivity.
Qed.

Lemma original_method_reports (sr mr : list Q) :
  length sr = length mr ->
  ComparePositive.calculate_positive_beta_original_method sr mr
  = Ok (subset_beta 20 (positive_subset sr mr), length (positive_subset sr mr)).
Proof.
  intros Hl.
  pose proof (directional_beta_fixed_subset sr mr (fun m => Qlt_bool 0 m) Hl) as H.
  unfold Corrected.directional_beta in H.
  unfold ComparePositive.calculate_positive_beta_original_method, gt0_mask.
  rewrite (mask_count_filter _ sr mr Hl) in *. fold (positive_subset sr mr) in *.
  destruct (20 <? length (positive_subset sr mr))%nat.
  - destruct (bool_index sr _) as [ss|]; [|discriminate]. cbn [exc_bind] in *.
    destruct (bool_index mr _) as [ms|]; [|discriminate]. cbn [exc_bind] in *.
    destruct (np_cov ss ms) as [c|]; [|discriminate]. cbn [exc_bind] in *.
    destruct (fgt0 (np_var ms)); injection H as <-; reflexivity.
  - injection H as <-. reflexivity.
Qed.

Lemma fgt0_not_zero (v : float64) : fgt0 v = true -> feq0 v = false.
Proof.
  destruct v as [q| | |]; cbn; auto. intros H. apply Qlt_bool_iff in H.
  apply Qeq_bool_false_iff. lra.
Qed.

Lemma feq0_not_positive (v : float64) : feq0 v = true -> fgt0 v = false.
Proof.
  destruct v as [q| | |]; cbn; try discriminate. intros H. apply Qeq_bool_iff in H.
  apply Qlt_bool_false_iff. lra.
Qed.

Lemma subset_beta_guarded (k : nat) (obs : list (Q * Q)) :
  variance_guarded k obs (subset_beta k obs).
Proof.
  unfold variance_guarded, subset_beta.
  destruct (Nat.ltb_spec k (length obs)) as [Hk|Hk]; cbn [andb].
  - destruct (fgt0 (computed_variance obs)) eqn:Hv.
    + split; [|split].
      * intros x E. injection E as <-. repeat split; auto. now apply fgt0_not_zero.
      * intros Hz. apply feq0_not_positive in Hz. congruence.
      * discriminate.
    + split; [discriminate|]. split; reflexivity.
  - split; [discriminate|]. split; reflexivity.
Qed.

Lemma subset_beta_rule (k : nat) (obs : list (Q * Q)) :
  threshold_rule k obs (subset_beta k obs).
Proof.
  unfold threshold_rule, subset_beta.
  destruct (Nat.ltb_spec k (length obs)) as [Hk|Hk]; cbn [andb].
  - destruct (fgt0 (computed_variance obs)).
    + split; [reflexivity|]. intros [H|H]; [lia|discriminate].
    + split; [|reflexivity]. intros [_ H]. discriminate.
  - split; [|reflexivity]. intros [H _]. lia.
Qed.

Lemma split_by_sign (sr mr : list Q) :
  let obs := combine sr mr in
  (forall o, In o (positive_subset sr mr) <-> In o obs /\ 0 < snd o) /\
  (forall o, In o (negative_subset sr mr) <-> In o obs /\ snd o < 0) /\
  (forall o, In o (zero_set sr mr) <-> In o obs /\ snd o == 0) /\
  Permutation obs (positive_subset sr mr ++ negative_subset sr mr ++ zero_set sr mr).
Proof.
  cbv zeta. unfold positive_subset, negative_subset, zero_set.
  split; [|split; [|split]].
  - intros o. rewrite filter_In, Qlt_bool_iff. reflexivity.
  - intros o. rewrite filter_In, Qlt_bool_iff. reflexivity.
  - intros o. rewrite filter_In, Qeq_bool_iff. reflexivity.
  - apply three_way_split. intros o _. apply sign_cases.
Qed.

End AnyEstimator.

(** C4.  On every aligned pair, and whatever numpy's statistics
    return, the split goes strictly by the sign of the benchmark
    return.  The positive subset holds exactly the observations with
    a positive benchmark return, the negative subset those with a
    negative one, the zero set those with a benchmark return of zero;
    no observation is in both subsets; the two subsets and the zero
    set together are a rearrangement of the aligned set.  These are
    the subsets the code takes: the arrays it cuts out with its masks
    market_ret > 0 and market_ret < 0 are the two sides of the
    positive and of the negative subset, and calculate_beta_simple
    and calculate_beta_fixed, whenever the computed benchmark
    variance is not 0, return a report whose day counts are the sizes
    of the two subsets and whose directional betas are computed from
    the positive and from the negative subset. *)
Theorem directional_split_is_a_partition {stats : Statistics} (sr mr : list Q) :
  length sr = length mr ->
  let obs := combine sr mr in
  let pos := positive_subset sr mr in
  let neg := negative_subset sr mr in
  let zero := zero_set sr mr in
  (forall o, In o pos <-> In o obs /\ 0 < snd o) /\
  (forall o, In o neg <-> In o obs /\ snd o < 0) /\
  (forall o, In o zero <-> In o obs /\ snd o == 0) /\
  (forall o, ~ (In o pos /\ In o neg)) /\
  Permutation obs (pos ++ neg ++ zero) /\
  (bool_index sr (gt0_mask mr) = Ok (map fst pos) /\
   bool_index mr (gt0_mask mr) = Ok (map snd pos) /\
   bool_index sr (lt0_mask mr) = Ok (map fst neg) /\
   bool_index mr (lt0_mask mr) = Ok (map snd neg)) /\
  (feq0 (np_var mr) = false ->
   exists r, Beta5Year.estimate sr mr = Ok (Some r) /\
     Beta5Year.positive_days r = length pos /\
     Beta5Year.negative_days r = length neg /\
     Beta5Year.data_points r = (length pos + length neg + length zero)%nat /\
     Beta5Year.positive_beta r = subset_beta 10 pos /\
     Beta5Year.negative_beta r = subset_beta 10 neg) /\
  (forall n, feq0 (np_var mr) = false ->
   exists r, Corrected.estimate n sr mr = Ok (Some r) /\
     Corrected.positive_days r = length pos /\
     Corrected.negative_days r = length neg /\
     Corrected.positive_beta r = subset_beta 20 pos /\
     Corrected.negative_beta r = subset_beta 20 neg).
Proof.
  intros Hl obs pos neg zero.
  destruct (split_by_sign sr mr) as (Hpos & Hneg & Hzero & Hperm).
  split; [exact Hpos|]. split; [exact Hneg|]. split; [exact Hzero|].
  split.
  { intros o [H1 H2]. apply Hpos in H1. apply Hneg in H2. lra. }
  split; [exact Hperm|].
  split.
  { unfold gt0_mask, lt0_mask.
    rewrite !bool_index_ok by (rewrite length_map; auto).
    rewrite !(masked_map_filter _ sr mr Hl), !(masked_snd_filter _ sr mr Hl).
    repeat split; reflexivity. }
  split.
  - intros Hv. rewrite (estimate_reports sr mr Hl), Hv.
    eexists. split; [reflexivity|]. cbn.
    apply Permutation_length in Hperm. rewrite !length_app in Hperm.
    assert (Lo : length (combine sr mr) = length sr)
      by (rewrite length_combine; lia).
    repeat split; auto. fold pos neg zero obs in Hperm. unfold obs in Hperm. lia.
  - intros n Hv. rewrite (fixed_estimate_reports n sr mr Hl), Hv.
    eexists. split; [reflexivity|]. cbn. repeat split; auto.
Qed.

(** C10.  Whatever numpy's statistics return, in calculate_beta_simple
    and in calculate_beta_monthly a directional beta is reported only
    for a subset that passes the count test and whose benchmark
    variance, as np.var computes it, is greater than zero, and it is
    then the quotient by that variance; a subset whose computed
    variance is zero, or is not greater than zero, is reported as
    None.  No division by a zero variance is made. *)
Theorem directional_beta_never_divides_by_zero_variance
  {stats : Statistics} (sr mr : list Q) :
  length sr = length mr ->
  (forall r, Beta5Year.estimate sr mr = Ok (Some r) ->
     variance_guarded 10 (positive_subset sr mr) (Beta5Year.positive_beta r) /\
     variance_guarded 10 (negative_subset sr mr) (Beta5Year.negative_beta r)) /\
  (forall r, Monthly.estimate sr mr = Ok (Some r) ->
     variance_guarded 5 (positive_subset sr mr) (Monthly.positive_beta r) /\
     variance_guarded 5 (negative_subset sr mr) (Monthly.negative_beta r)).
Proof.
  intros Hl. split; intros r He.
  - rewrite (estimate_reports sr mr Hl) in He.
    destruct (feq0 (np_var mr)); [discriminate|]. injection He as <-.
    cbn [Beta5Year.positive_beta Beta5Year.negative_beta].
    split; apply subset_beta_guarded.
  - rewrite (monthly_estimate_reports sr mr Hl) in He.
    destruct (feq0 (np_var mr)); [discriminate|]. injection He as <-.
    cbn [Monthly.positive_beta Monthly.negative_beta].
    split; apply subset_beta_guarded.
Qed.

(** C5, as amended.  Whatever numpy's statistics return, in
    calculate_beta_simple a directional subset with more than 10
    observations and a computed benchmark variance greater than zero
    gets the beta computed from exactly its observations, by the
    covariance/variance formula that also gives the overall beta; a
    subset with 10 observations or fewer, or with a computed variance
    that is not greater than zero, is reported as None, never as a
    number.  A report is returned whenever the computed variance of
    all benchmark returns is not 0.
    calculate_positive_beta_original_method follows the same rule
    with 20 in place of 10. *)
Theorem directional_beta_threshold_rule {stats : Statistics} (sr mr : list Q) :
  length sr = length mr ->
  (forall r, Beta5Year.estimate sr mr = Ok (Some r) ->
     Beta5Year.beta r = cov_over_var (combine sr mr) /\
     threshold_rule 10 (positive_subset sr mr) (Beta5Year.positive_beta r) /\
     threshold_rule 10 (negative_subset sr mr) (Beta5Year.negative_beta r)) /\
  (feq0 (np_var mr) = false -> exists r, Beta5Year.estimate sr mr = Ok (Some r)) /\
  (exists b,
     ComparePositive.calculate_positive_beta_original_method sr mr
     = Ok (b, length (positive_subset sr mr)) /\
     threshold_rule 20 (positive_subset sr mr) b).
Proof.
  intros Hl. split; [|split].
  - intros r He. rewrite (estimate_reports sr mr Hl) in He.
    destruct (feq0 (np_var mr)); [discriminate|]. injection He as <-.
    cbn [Beta5Year.beta Beta5Year.positive_beta Beta5Year.negative_beta].
    split; [reflexivity|]. split; apply subset_beta_rule.
  - intros Hv. rewrite (estimate_reports sr mr Hl), Hv. eauto.
  - eexists. split; [now apply original_method_reports|]. apply subset_beta_rule.
Qed.

(** C5 as stated fails: on the doubling benchmark the positive subset
    has 32 observations, well above the limit, and calculate_beta_simple
    reports no positive beta.  The benchmark returns of the subset are
    all exactly 1 (8 / 4 - 1 and 4 / 2 - 1), so that their mean is 1
    and their variance 0 in float64 as well. *)
Lemma large_subset_without_directional_beta :
  exists r,
    fst (Beta5Year.calculate_beta_simple (Some Examples.stock_wandering)
                                         (Some Examples.market_doubling)) = Some r /\
    Beta5Year.positive_days r = 32%nat /\
    Beta5Year.positive_beta r = None.
Proof. eexists. split; [vm_compute; reflexivity|]. split; reflexivity. Qed.

Section ZeroVariance.

Lemma variance0_const (c : Q) (x : list Q) :
  x <> [] -> (forall v, In v x -> v == c) -> variance 0 x == 0.
Proof.
  intros Hne H. apply variance0_zero_iff; auto. now apply (sum_sq_dev_const c).
Qed.

Lemma directional_value_finite (k : nat) (sr mr : list Q) (mask : list bool) (x : float64) :
  directional_value k sr mr mask = Some x -> is_finite x = true.
Proof.
  unfold directional_value.
  destruct ((k <? np_sum_mask mask)%nat && fgt0 (np_var (masked mr mask)));
    [|discriminate].
  intros E. injection E as <-. reflexivity.
Qed.

End ZeroVariance.

(** C6, as amended.  Whatever numpy's statistics return: when the
    variance of the aligned benchmark returns, as np.var computes it,
    compares equal to 0, calculate_beta_simple returns None, the one
    value by which it reports every failure, and prints nothing, and
    calculate_beta_fixed returns None; neither returns a beta, so no
    nan and no infinity.  The test is made on the computed variance:
    when that does not compare equal to 0, calculate_beta_simple
    returns a report whose beta is the covariance/variance
    quotient. *)
Theorem zero_variance_benchmark_is_refused
  {stats : Statistics} (stock_data market_data : DataFrame) :
  (forall sr mr,
     Beta5Year.align_on_common_dates stock_data market_data = Ok (Some (sr, mr)) ->
     feq0 (np_var mr) = true ->
     Beta5Year.calculate_beta_simple (Some stock_data) (Some market_data) = (None, [])) /\
  (forall idx sr mr,
     Corrected.align_returns stock_data market_data = Ok (Some (idx, sr, mr)) ->
     length sr = length mr ->
     feq0 (np_var mr) = true ->
     Corrected.calculate_beta_fixed (Some stock_data) (Some market_data) = Ok None) /\
  (forall sr mr,
     Beta5Year.align_on_common_dates stock_data market_data = Ok (Some (sr, mr)) ->
     feq0 (np_var mr) = false ->
     exists r,
       Beta5Year.calculate_beta_simple (Some stock_data) (Some market_data) = (Some r, []) /\
       Beta5Year.beta r = cov_over_var (combine sr mr)).
Proof.
  assert (Hlen : forall sr mr,
     Beta5Year.align_on_common_dates stock_data market_data = Ok (Some (sr, mr)) ->
     length sr = length mr).
  { intros sr mr Ea.
    destruct (align_on_common_dates_ok stock_data market_data) as [a [Ea' Ha]].
    rewrite Ea in Ea'. injection Ea' as <-. now destruct (Ha sr mr eq_refl). }
  split; [|split].
  - intros sr mr Ea Hz.
    unfold Beta5Year.calculate_beta_simple, Beta5Year.calculate_beta_simple_body.
    cbn [deref exc_bind]. rewrite Ea. cbn [exc_bind].
    now rewrite (estimate_reports sr mr (Hlen sr mr Ea)), Hz.
  - intros idx sr mr Ea Hl Hz. unfold Corrected.calculate_beta_fixed.
    rewrite Ea. cbn [exc_bind].
    now rewrite (fixed_estimate_reports _ sr mr Hl), Hz.
  - intros sr mr Ea Hz.
    unfold Beta5Year.calculate_beta_simple, Beta5Year.calculate_beta_simple_body.
    cbn [deref exc_bind]. rewrite Ea. cbn [exc_bind].
    rewrite (estimate_reports sr mr (Hlen sr mr Ea)), Hz.
    eexists. split; reflexivity.
Qed.

(** C6 as stated fails: the code has no ZeroVarianceError.  A benchmark
    that never moves (its returns are all 0, and so is their variance
    however it is computed) makes calculate_beta_simple return None
    without a word, exactly what it returns for a history that is too
    short. *)
Lemma flat_benchmark_and_short_history_look_alike :
  (exists sr mr,
     Beta5Year.align_on_common_dates Examples.stock_wandering Examples.market_flat
     = Ok (Some (sr, mr)) /\
     forallb (fun v => Qeq_bool v 0) mr = true) /\
  Beta5Year.calculate_beta_simple (Some Examples.stock_wandering)
                                  (Some Examples.market_flat) = (None, []) /\
  (length Examples.short_history < 50)%nat /\
  Beta5Year.calculate_beta_simple (Some Examples.short_history)
                                  (Some Examples.market_zigzag) = (None, []).
Proof.
  split; [do 2 eexists; split; vm_compute; reflexivity|].
  split; [vm_compute; reflexivity|]. split; [vm_compute; lia|]. vm_compute; reflexivity.
Qed.

Section Conventions.

(** The quotient the estimators compute against the quotient of the
    two sample statistics: they differ by the factor n / (n - 1). *)
Lemma population_vs_sample_quotient (sr mr : list Q) :
  (2 <= length mr)%nat -> ~ sum_sq_dev mr == 0 ->
  sample_cov sr mr / variance 0 mr
  == (Qlen mr / (Qlen mr - 1)) * (sample_cov sr mr / variance 1 mr).
Proof.
  intros Hn Hs. unfold variance, Qlen. rewrite Nat.sub_0_r.
  assert (E1 : inject_Z (Z.of_nat (length mr - 1)) == inject_Z (Z.of_nat (length mr)) - 1).
  { rewrite Nat2Z.inj_sub by lia. unfold Z.sub. rewrite inject_Z_plus, inject_Z_opp.
    reflexivity. }
  rewrite E1.
  assert (Hp : 1 < inject_Z (Z.of_nat (length mr))).
  { replace 1 with (inject_Z 1) by reflexivity. rewrite <- Zlt_Qlt. lia. }
  field. repeat split; try lra; auto.
Qed.

End Conventions.

(** C1 on the code: on the zigzag benchmark calculate_beta_simple
    reports -4895/52812, the sample covariance over the population
    variance, where the quotient of the sample covariance by the
    sample variance is -89/978; the estimate of calculate_beta_monthly
    on the same arrays is the same number. *)
Theorem traditional_beta_divides_by_population_variance :
  exists r sr mr b,
    Beta5Year.align_on_common_dates Examples.stock_still_on_rises Examples.market_zigzag
    = Ok (Some (sr, mr)) /\
    fst (Beta5Year.calculate_beta_simple (Some Examples.stock_still_on_rises)
                                         (Some Examples.market_zigzag)) = Some r /\
    np_var_ddof 1 mr = Finite (variance 1 mr) /\ ~ variance 1 mr == 0 /\
    Beta5Year.beta r = Finite b /\
    b == -4895 # 52812 /\
    b == sample_cov sr mr / variance 0 mr /\
    sample_cov sr mr / variance 1 mr == -89 # 978 /\
    ~ b == sample_cov sr mr / variance 1 mr /\
    (exists r', Monthly.estimate sr mr = Ok (Some r') /\ Monthly.beta r' = Finite b).
Proof.
  do 4 eexists.
  split; [vm_compute; reflexivity|].
  split; [vm_compute; reflexivity|].
  split; [reflexivity|].
  split; [vm_compute; discriminate|].
  split; [reflexivity|].
  split; [vm_compute; reflexivity|].
  split; [vm_compute; reflexivity|].
  split; [vm_compute; reflexivity|].
  split; [vm_compute; discriminate|].
  eexists. split; vm_compute; reflexivity.
Qed.

(** ** Label lookup on indexes without repetition *)

Section UniqueIndex.

Lemma filter_all {A : Type} (f : A -> bool) (l : list A) :
  (forall a, In a l -> f a = true) -> filter f l = l.
Proof.
  induction l as [|a l IH]; intros H; cbn [filter]; auto.
  rewrite (H a (or_introl eq_refl)), IH; auto.
  intros b Hb. apply H. now right.
Qed.

Lemma filter_none {A : Type} (f : A -> bool) (l : list A) :
  (forall a, In a l -> f a = false) -> filter f l = [].
Proof.
  induction l as [|a l IH]; intros H; cbn [filter]; auto.
  rewrite (H a (or_introl eq_refl)), IH; auto.
  intros b Hb. apply H. now right.
Qed.

Lemma unique_NoDup (l : list Z) : NoDup l -> unique l = l.
Proof.
  induction 1 as [|a l Ha Hl IH]; cbn [unique]; auto.
  rewrite IH. f_equal. apply filter_all.
  intros b Hb. apply negb_true_iff, Z.eqb_neq. intros ->. contradiction.
Qed.

Lemma increasing_NoDup (l : list Z) : StronglySorted Z.lt l -> NoDup l.
Proof.
  induction 1 as [|a l Hs IH Ha]; constructor; auto.
  intros Hin. rewrite Forall_forall in Ha. specialize (Ha a Hin). lia.
Qed.

Lemma increasing_filter (f : Z -> bool) (l : list Z) :
  StronglySorted Z.lt l -> StronglySorted Z.lt (filter f l).
Proof.
  induction 1 as [|a l Hs IH Ha]; cbn [filter]; [constructor|].
  destruct (f a); auto. constructor; auto.
  rewrite Forall_forall in *. intros b Hb. apply Ha.
  now apply filter_In in Hb.
Qed.

Lemma increasing_tl (l : list Z) : StronglySorted Z.lt l -> StronglySorted Z.lt (tl l).
Proof. destruct 1; cbn; auto. constructor. Qed.

Lemma intersection_increasing (a b : list Z) :
  StronglySorted Z.lt a -> StronglySorted Z.lt (intersection a b).
Proof.
  intros H. unfold intersection.
  rewrite unique_NoDup by now apply increasing_NoDup.
  now apply increasing_filter.
Qed.

Lemma filter_one_row {A : Type} (s : Series A) (t : Z) :
  NoDup (index s) -> In t (index s) ->
  exists v, filter (fun row => (fst row =? t)%Z) s = [(t, v)] /\ In (t, v) s.
Proof.
  unfold index. induction s as [|[t0 v0] s IH]; intros Hnd Hin; [destruct Hin|].
  cbn [map fst] in Hnd. inversion Hnd as [|? ? Hn0 Hnd']; subst.
  cbn [filter fst]. destruct (Z.eqb_spec t0 t) as [->|Hne].
  - exists v0. split; [|now left]. f_equal. apply filter_none.
    intros [u w] Hrow. cbn [fst]. apply Z.eqb_neq. intros ->.
    apply Hn0. apply in_map_iff. now exists (t, w).
  - destruct Hin as [E|Hin]; [cbn in E; congruence|].
    destruct (IH Hnd' Hin) as [v [Ef Hv]]. exists v. split; auto. now right.
Qed.

Lemma loc_rows {A : Type} (s : Series A) (labels : list Z) :
  NoDup (index s) -> (forall t, In t labels -> In t (index s)) ->
  exists rows, loc s labels = Ok rows /\ index rows = labels /\
               (forall row, In row rows -> In row s).
Proof.
  intros Hnd. induction labels as [|t labels IH]; intros H.
  - exists []. repeat split; auto. intros row [].
  - destruct IH as [rest (E & Ei & Hr)]; [intros u Hu; apply H; now right|].
    destruct (filter_one_row s t Hnd) as [v [Ef Hv]]; [apply H; now left|].
    exists ((t, v) :: rest). cbn [loc]. rewrite Ef, E. cbn [exc_bind app].
    repeat split; auto.
    + unfold index in *. cbn [map fst]. now rewrite Ei.
    + intros row [<-|Hrow]; auto.
Qed.

Lemma index_dropna_pct_change_from (p : price) (s : Series price) :
  index (dropna (pct_change_from p s)) = index s.
Proof.
  unfold index. revert p. induction s as [|[t q] s IH]; intros p; cbn; auto.
  now rewrite IH.
Qed.

Lemma index_dropna_pct_change (s : Series price) :
  index (dropna (pct_change s)) = tl (index s).
Proof.
  destruct s as [|[t p] s]; auto.
  cbn [pct_change dropna]. rewrite index_dropna_pct_change_from. reflexivity.
Qed.

Lemma nth_error_row {A : Type} (rows : Series A) (i : nat) (t : Z) :
  nth_error (index rows) i = Some t ->
  exists v, nth_error rows i = Some (t, v) /\ nth_error (values rows) i = Some v.
Proof.
  unfold index, values. rewrite !nth_error_map.
  destruct (nth_error rows i) as [[u v]|]; [|discriminate].
  cbn. intros E. injection E as ->. now exists v.
Qed.

End UniqueIndex.

(** ** The alignment of calculate_beta_simple *)

(** On price histories with increasing dates calculate_beta_simple
    joins the two price columns on their common dates and takes the
    returns of the joined columns: both return arrays carry the common
    dates but the first, in increasing order, and the cut to the
    shorter length removes nothing. *)
Lemma align_on_common_dates_joins_prices (stock_data market_data : DataFrame) :
  StronglySorted Z.lt (index stock_data) ->
  StronglySorted Z.lt (index market_data) ->
  let common := intersection (index stock_data) (index market_data) in
  (50 <= length common)%nat ->
  exists stock_aligned market_aligned,
    loc stock_data common = Ok stock_aligned /\
    loc market_data common = Ok market_aligned /\
    index stock_aligned = common /\ index market_aligned = common /\
    StronglySorted Z.lt common /\
    index (dropna (pct_change stock_aligned)) = tl common /\
    index (dropna (pct_change market_aligned)) = tl common /\
    Beta5Year.align_on_common_dates stock_data market_data
    = Ok (Some (values (dropna (pct_change stock_aligned)),
                values (dropna (pct_change market_aligned)))).
Proof.
  intros Hs Hm common Hge.
  destruct (loc_rows stock_data common) as [srows (Es & Eis & _)].
  { now apply increasing_NoDup. }
  { intros t Ht. now apply intersection_In in Ht. }
  destruct (loc_rows market_data common) as [mrows (Em & Eim & _)].
  { now apply increasing_NoDup. }
  { intros t Ht. now apply intersection_In in Ht. }
  exists srows, mrows.
  split; [exact Es|]. split; [exact Em|]. split; [exact Eis|]. split; [exact Eim|].
  split; [now apply intersection_increasing|].
  split; [now rewrite index_dropna_pct_change, Eis|].
  split; [now rewrite index_dropna_pct_change, Eim|].
  unfold Beta5Year.align_on_common_dates. fold common.
  destruct (Nat.ltb_spec (length common) 50); [lia|].
  rewrite Es, Em. cbn [exc_bind].
  assert (L : length (dropna (pct_change srows)) = length (dropna (pct_change mrows))).
  { rewrite !dropna_pct_change_length, <- (index_length srows), <- (index_length mrows).
    now rewrite Eis, Eim. }
  rewrite <- L, Nat.min_id.
  rewrite <- (values_length (dropna (pct_change srows))) at 1.
  rewrite firstn_all.
  rewrite L, <- (values_length (dropna (pct_change mrows))), firstn_all.
  reflexivity.
Qed.

(** ** The alignment of calculate_beta_fixed *)

(** On price histories with increasing dates the alignment of
    calculate_beta_fixed is the join of the two return series on their
    timestamps: the common index holds exactly the timestamps present
    in both return series, once each and in increasing order, and the
    two arrays pair, position by position, the returns recorded in
    the two series at that timestamp. *)
Lemma align_returns_is_timestamp_join (stock_data market_data : DataFrame) :
  StronglySorted Z.lt (index stock_data) ->
  StronglySorted Z.lt (index market_data) ->
  let stock_returns := dropna (pct_change stock_data) in
  let market_returns := dropna (pct_change market_data) in
  exists a, Corrected.align_returns stock_data market_data = Ok a /\
    forall idx sr mr, a = Some (idx, sr, mr) ->
      (forall t, In t idx <-> In t (index stock_returns) /\ In t (index market_returns)) /\
      NoDup idx /\ StronglySorted Z.lt idx /\
      (50 <= length idx)%nat /\ length sr = length idx /\ length mr = length idx /\
      (forall i t, nth_error idx i = Some t ->
         exists x y, nth_error sr i = Some x /\ nth_error mr i = Some y /\
                     In (t, x) stock_returns /\ In (t, y) market_returns).
Proof.
  intros Hs Hm stock_returns market_returns.
  assert (Is : StronglySorted Z.lt (index stock_returns))
    by (unfold stock_returns; rewrite index_dropna_pct_change; now apply increasing_tl).
  assert (Im : StronglySorted Z.lt (index market_returns))
    by (unfold market_returns; rewrite index_dropna_pct_change; now apply increasing_tl).
  unfold Corrected.align_returns. fold stock_returns market_returns.
  set (common := intersection (index stock_returns) (index market_returns)).
  destruct (Nat.ltb_spec (length common) 50) as [Hlt|Hge].
  - exists None. split; auto. discriminate.
  - destruct (loc_rows stock_returns common) as [srows (Es & Eis & Hrs)].
    { now apply increasing_NoDup. }
    { intros t Ht. now apply intersection_In in Ht. }
    destruct (loc_rows market_returns common) as [mrows (Em & Eim & Hrm)].
    { now apply increasing_NoDup. }
    { intros t Ht. now apply intersection_In in Ht. }
    rewrite Es, Em. cbn [exc_bind]. eexists. split; [reflexivity|].
    intros idx sr mr E. injection E as <- <- <-.
    assert (Hinc : StronglySorted Z.lt common) by now apply intersection_increasing.
    split; [intros t; apply intersection_In|].
    split; [now apply increasing_NoDup|].
    split; [exact Hinc|]. split; [exact Hge|].
    split; [now rewrite values_length, <- (index_length srows), Eis|].
    split; [now rewrite values_length, <- (index_length mrows), Eim|].
    intros i t Hi.
    destruct (nth_error_row srows i t) as [x [Hx Vx]]; [now rewrite Eis|].
    destruct (nth_error_row mrows i t) as [y [Hy Vy]]; [now rewrite Eim|].
    exists x, y. repeat split; auto.
    + apply Hrs. eapply nth_error_In; eauto.
    + apply Hrm. eapply nth_error_In; eauto.
Qed.

(** C2 on the code: analyze_nvidia_beta_periods pairs the two return
    arrays by position.  With 20 missing from the stock's dates and 10
    from the benchmark's, both histories having increasing dates, it
    keeps 54 pairs where 53 timestamps are common to the two return
    series; the pair at position 9 joins the stock's return of date 10
    with the benchmark's return of date 11; date 10, absent from the
    benchmark, stays on the stock's side; and the beta it prints is
    not the beta calculate_beta_fixed obtains from the same histories
    joined on timestamps. *)
Theorem positional_pairing_misaligns_dates :
  let nvda := Examples.without_date 20 Examples.stock_still_on_rises in
  let spy := Examples.without_date 10 Examples.market_zigzag in
  let nvda_returns := dropna (pct_change nvda) in
  let spy_returns := dropna (pct_change spy) in
  exists nvda_rows spy_rows x y b r b',
    Sorted Z.lt (index nvda) /\ Sorted Z.lt (index spy) /\
    AnalyzeNvidia.paired_returns nvda spy = (nvda_rows, spy_rows) /\
    length nvda_rows = 54%nat /\ length spy_rows = 54%nat /\
    length (intersection (index nvda_returns) (index spy_returns)) = 53%nat /\
    nth_error nvda_rows 9 = Some (10%Z, x) /\
    nth_error spy_rows 9 = Some (11%Z, y) /\
    mem 10 (index spy_returns) = false /\
    mem 10 (index nvda_rows) = true /\
    AnalyzeNvidia.period_beta nvda spy = Ok (Some (Finite b)) /\
    Corrected.calculate_beta_fixed (Some nvda) (Some spy) = Ok (Some r) /\
    Corrected.traditional_beta r = Finite b' /\
    ~ b == b'.
Proof.
  cbv zeta. do 7 eexists.
  split; [vm_compute; repeat constructor|].
  split; [vm_compute; repeat constructor|].
  split; [vm_compute; reflexivity|].
  split; [reflexivity|]. split; [reflexivity|].
  split; [vm_compute; reflexivity|].
  split; [vm_compute; reflexivity|].
  split; [vm_compute; reflexivity|].
  split; [vm_compute; reflexivity|].
  split; [vm_compute; reflexivity|].
  split; [vm_compute; reflexivity|].
  split; [vm_compute; reflexivity|].
  split; [reflexivity|].
  vm_compute. discriminate.
Qed.

Section BetaRatio.

Import Corrected.

Lemma ratio_of_nonzero (p n : Q) :
  ~ p == 0 -> ~ n == 0 ->
  ratio_of (Some (Finite p)) (Some (Finite n)) = Some (Finite (p / n)).
Proof.
  intros Hp Hn. unfold ratio_of, py_truthy, py_ne0. cbn [feq0].
  rewrite (proj2 (Qeq_bool_false_iff p 0) Hp), (proj2 (Qeq_bool_false_iff n 0) Hn).
  cbn [negb andb]. now rewrite fdiv_finite.
Qed.

Lemma ratio_of_missing (pb nb : option float64) :
  pb = None \/ nb = None -> ratio_of pb nb = None.
Proof.
  intros [-> | ->]; unfold ratio_of; cbn [py_truthy andb]; auto.
  destruct (py_truthy pb); reflexivity.
Qed.

Lemma ratio_of_zero_negative (pb : option float64) (n : Q) :
  n == 0 -> ratio_of pb (Some (Finite n)) = None.
Proof.
  intros Hn. unfold ratio_of, py_truthy at 2, py_ne0. cbn [feq0].
  rewrite (proj2 (Qeq_bool_iff n 0) Hn). cbn [negb].
  now rewrite andb_false_r.
Qed.

(** The truth test of line 120 takes a positive beta of zero for a
    missing one. *)
Lemma ratio_of_zero_positive (p : Q) (nb : option float64) :
  p == 0 -> ratio_of (Some (Finite p)) nb = None.
Proof.
  intros Hp. unfold ratio_of, py_truthy at 1. cbn [feq0].
  now rewrite (proj2 (Qeq_bool_iff p 0) Hp).
Qed.

End BetaRatio.

(** C7 on the code: for the stock that stands still on every rise of
    the zigzag benchmark calculate_beta_fixed has a positive beta of
    zero and a negative beta of 243/26, and reports no beta_ratio. *)
Theorem zero_positive_beta_gives_no_ratio :
  exists r p n,
    Corrected.calculate_beta_fixed (Some Examples.stock_still_on_rises)
                                   (Some Examples.market_zigzag) = Ok (Some r) /\
    Corrected.positive_beta r = Some (Finite p) /\ p == 0 /\
    Corrected.negative_beta r = Some (Finite n) /\ n == 243 # 26 /\ ~ n == 0 /\
    Corrected.beta_ratio r = None.
Proof.
  do 3 eexists.
  split; [vm_compute; reflexivity|].
  split; [reflexivity|]. split; [reflexivity|].
  split; [reflexivity|]. split; [reflexivity|].
  split; [discriminate|reflexivity].
Qed.

(** ** Covariance over variance against the regression slope *)

Section RegressionSlope.

Lemma cross_dev_sym (a b : Q) (x y : list Q) :
  Qsum (map (fun p => (fst p - a) * (snd p - b)) (combine x y))
  == Qsum (map (fun p => (fst p - b) * (snd p - a)) (combine y x)).
Proof.
  revert y. induction x as [|u x IH]; intros [|v y]; cbn [combine map]; try reflexivity.
  rewrite !Qsum_cons, IH. cbn [fst snd]. ring.
Qed.

Lemma sum_cross_dev_sym (x y : list Q) : sum_cross_dev x y == sum_cross_dev y x.
Proof. unfold sum_cross_dev. cbv zeta. apply cross_dev_sym. Qed.

Lemma products_of_deviations (f g : Q -> Q) (x y : list Q) :
  map (fun p => fst p * snd p) (combine (map f x) (map g y))
  = map (fun p => f (fst p) * g (snd p)) (combine x y).
Proof.
  revert y. induction x as [|u x IH]; intros [|v y]; cbn [combine map]; auto.
  now rewrite IH.
Qed.

Lemma sum_dev_products_ok (a b : list Q) :
  length a = length b -> (2 <= length a)%nat ->
  ExplainMethods.sum_dev_products a b = Ok (sum_cross_dev a b).
Proof.
  intros Hl Hn. unfold ExplainMethods.sum_dev_products, np_multiply_arrays, np_sub_scalar.
  destruct a as [|a0 [|a1 a]]; cbn [length] in Hn; try lia.
  destruct b as [|b0 [|b1 b]]; cbn [length] in Hl; try lia.
  set (x := a0 :: a1 :: a) in *. set (y := b0 :: b1 :: b) in *.
  assert (E : broadcast2 Qmult (map (fun v => v - mean x) x) (map (fun v => v - mean y) y)
              = Ok (map (fun p => fst p * snd p)
                        (combine (map (fun v => v - mean x) x) (map (fun v => v - mean y) y)))).
  { unfold broadcast2, x, y. cbn [map]. cbn [length].
    rewrite !length_map. cbn [length] in Hl.
    now rewrite (proj2 (Nat.eqb_eq _ _) Hl). }
  rewrite E. cbn [exc_bind]. now rewrite products_of_deviations.
Qed.

Lemma sum_dev_squares_eq (a : list Q) : ExplainMethods.sum_dev_squares a = sum_sq_dev a.
Proof.
  unfold ExplainMethods.sum_dev_squares, np_sub_scalar, sum_sq_dev.
  now rewrite map_map.
Qed.

Lemma len_minus_1_eq (a : list Q) :
  (1 <= length a)%nat ->
  ExplainMethods.len_minus_1 a = inject_Z (Z.of_nat (length a - 1)).
Proof.
  intros H. unfold ExplainMethods.len_minus_1. f_equal. lia.
Qed.

Lemma all_equal_no_deviation (x0 : Q) (x : list Q) :
  forallb (fun v => Qeq_bool v x0) x = true -> sum_sq_dev x == 0.
Proof.
  intros H. apply (sum_sq_dev_const x0). intros v Hv.
  rewrite forallb_forall in H. now apply Qeq_bool_iff, H.
Qed.

Lemma variance1_pos (x : list Q) :
  (2 <= length x)%nat -> 0 < variance 1 x -> 0 < sum_sq_dev x.
Proof.
  intros Hn Hv. unfold variance in Hv.
  assert (Hp : 0 < inject_Z (Z.of_nat (length x - 1))) by (apply inject_nat_pos; lia).
  destruct (Qlt_le_dec 0 (sum_sq_dev x)) as [|Hle]; auto.
  pose proof (sum_sq_dev_nonneg x).
  assert (Hz : sum_sq_dev x == 0) by lra.
  rewrite Hz in Hv. unfold Qdiv in Hv. rewrite Qmult_0_l in Hv. lra.
Qed.

Lemma linregress_slope_ok (x y : list Q) :
  length x = length y -> (2 <= length x)%nat -> 0 < sum_sq_dev x ->
  linregress_slope x y = Ok (Finite (pop_cov x y / variance 0 x)).
Proof.
  intros Hl Hn Hs. unfold linregress_slope.
  destruct x as [|x0 x']; [cbn in Hn; lia|].
  set (x := x0 :: x') in *.
  rewrite (proj2 (Nat.eqb_eq _ _) Hl). cbn [negb].
  destruct (forallb (fun v => Qeq_bool v x0) x) eqn:Hall.
  - apply all_equal_no_deviation in Hall. lra.
  - rewrite andb_false_r. rewrite fdiv_finite; auto.
    assert (Hne : x <> []) by discriminate.
    intros Hz. apply (variance0_zero_iff x Hne) in Hz. lra.
Qed.

Lemma quotients_agree (sr mr : list Q) :
  length sr = length mr -> (2 <= length mr)%nat -> 0 < sum_sq_dev mr ->
  sample_cov sr mr / variance 1 mr == pop_cov mr sr / variance 0 mr /\
  sample_cov sr mr / variance 1 mr == sum_cross_dev mr sr / sum_sq_dev mr.
Proof.
  intros Hl Hn Hs. unfold sample_cov, pop_cov, variance, Qlen.
  rewrite Nat.sub_0_r, Hl, (sum_cross_dev_sym sr mr).
  assert (H1 : 0 < inject_Z (Z.of_nat (length mr - 1))) by (apply inject_nat_pos; lia).
  assert (H0 : 0 < inject_Z (Z.of_nat (length mr))) by (apply inject_nat_pos; lia).
  split; field; repeat split; lra.
Qed.

End RegressionSlope.

(** C3.  On every aligned pair whose benchmark has a positive sample
    variance, the covariance/variance beta with the sample convention
    (Method A of get_yahoo_style_beta, and both the numpy and the
    manual computation of demonstrate_with_real_data) and the
    regression slope (linregress, and the manual regression formula)
    are finite and equal; in particular they agree within a relative
    tolerance of 1e-9. *)
Theorem covariance_beta_equals_regression_slope (stock_ret market_ret : list Q) (v : Q) :
  length stock_ret = length market_ret ->
  np_var_ddof 1 market_ret = Finite v ->
  0 < v ->
  exists b s s',
    YahooReplication.beta_a stock_ret market_ret = Ok (Finite b) /\
    YahooReplication.beta_b stock_ret market_ret = Ok (Finite s) /\
    ExplainMethods.beta_cov_numpy stock_ret market_ret = Ok (Finite b) /\
    ExplainMethods.beta_cov_manual stock_ret market_ret = Ok (Finite b) /\
    ExplainMethods.slope stock_ret market_ret = Ok (Finite s) /\
    ExplainMethods.beta_reg_manual stock_ret market_ret = Ok (Finite s') /\
    b == s /\ b == s' /\
    Qabs (b - s) <= (1 # 1000000000) * Qabs s.
Proof.
  intros Hl Hv Hpos.
  assert (Hn : (2 <= length market_ret)%nat).
  { unfold np_var_ddof in Hv.
    destruct (Nat.leb_spec (length market_ret) 1); [discriminate|lia]. }
  rewrite np_var_ddof1 in Hv by auto. injection Hv as <-.
  pose proof (variance1_pos market_ret Hn Hpos) as Hs.
  destruct (quotients_agree stock_ret market_ret Hl Hn Hs) as [Q1 Q2].
  assert (Hv1 : ~ variance 1 market_ret == 0) by lra.
  assert (Ea : YahooReplication.beta_a stock_ret market_ret
               = Ok (Finite (sample_cov stock_ret market_ret / variance 1 market_ret))).
  { unfold YahooReplication.beta_a. rewrite np_cov_finite by lia. cbn [exc_bind].
    rewrite np_var_ddof1 by auto. now rewrite fdiv_finite. }
  assert (Eb : linregress_slope market_ret stock_ret
               = Ok (Finite (pop_cov market_ret stock_ret / variance 0 market_ret)))
    by (apply linregress_slope_ok; auto).
  exists (sample_cov stock_ret market_ret / variance 1 market_ret),
         (pop_cov market_ret stock_ret / variance 0 market_ret),
         (sum_cross_dev market_ret stock_ret / sum_sq_dev market_ret).
  split; [exact Ea|]. split; [exact Eb|]. split; [exact Ea|].
  split.
  { unfold ExplainMethods.beta_cov_manual.
    rewrite sum_dev_products_ok by lia. cbn [exc_bind].
    rewrite sum_dev_squares_eq, !len_minus_1_eq by lia.
    assert (H1 : 0 < inject_Z (Z.of_nat (length market_ret - 1)))
      by (apply inject_nat_pos; lia).
    rewrite Hl.
    rewrite (fdiv_finite (sum_cross_dev stock_ret market_ret)) by lra.
    rewrite (fdiv_finite (sum_sq_dev market_ret)) by lra.
    fold (variance 1 market_ret).
    rewrite fdiv_finite by auto.
    unfold sample_cov. now rewrite Hl. }
  split; [exact Eb|].
  split.
  { unfold ExplainMethods.beta_reg_manual.
    rewrite sum_dev_products_ok by lia. cbn [exc_bind].
    rewrite sum_dev_squares_eq. rewrite fdiv_finite by lra. reflexivity. }
  split; [exact Q1|]. split; [exact Q2|].
  rewrite Q1.
  assert (E0 : pop_cov market_ret stock_ret / variance 0 market_ret
               - pop_cov market_ret stock_ret / variance 0 market_ret == 0) by ring.
  rewrite E0. cbn [Qabs]. change (Qabs 0) with 0.
  apply Qmult_le_0_compat; [discriminate | apply Qabs_nonneg].
Qed.

(** ** Returns from prices *)

Section Returns.

Lemma nth_pct_change_from (i : nat) :
  forall (t0 : Z) (prev : price) (s : Series price) (t' t : Z) (q p : price),
    nth_error ((t0, prev) :: s) i = Some (t', q) ->
    nth_error s i = Some (t, p) ->
    nth_error (dropna (pct_change_from prev s)) i
    = Some (t, (price_val p - price_val q) / price_val q).
Proof.
  induction i as [|i IH]; intros t0 prev s t' t q p H0 H1.
  - destruct s as [|[t1 p1] s]; [discriminate|].
    cbn in H0, H1. injection H0 as <- <-. injection H1 as <- <-. reflexivity.
  - destruct s as [|[t1 p1] s]; [discriminate|].
    cbn [nth_error] in H0, H1. cbn [pct_change_from dropna nth_error].
    now apply (IH t1 p1 s t' t q p).
Qed.

Lemma np_diff_cons2 (a b : Q) (l : list Q) :
  np_diff (a :: b :: l) = (b - a) :: np_diff (b :: l).
Proof. reflexivity. Qed.

Lemma removelast_cons2 {A : Type} (a b : A) (l : list A) :
  removelast (a :: b :: l) = a :: removelast (b :: l).
Proof. reflexivity. Qed.

Lemma diff_over_previous (s : Series price) :
  forall p0 : price,
    map (fun p => fst p / snd p)
        (combine (np_diff (map price_val (p0 :: values s)))
                 (removelast (map price_val (p0 :: values s))))
    = values (dropna (pct_change_from p0 s)).
Proof.
  induction s as [|[t p] s IH]; intros p0; [reflexivity|].
  specialize (IH p). unfold values in *. cbn [map snd] in *.
  rewrite np_diff_cons2, removelast_cons2.
  cbn [combine map fst snd pct_change_from dropna].
  now rewrite IH.
Qed.

Lemma np_diff_length (x : list Q) : length (np_diff x) = (length x - 1)%nat.
Proof.
  induction x as [|a [|b x] IH]; auto.
  cbn [np_diff length] in *. rewrite IH. lia.
Qed.

Lemma removelast_length {A : Type} (x : list A) : length (removelast x) = (length x - 1)%nat.
Proof.
  induction x as [|a [|b x] IH]; auto.
  cbn [removelast length] in *. rewrite IH. lia.
Qed.

Lemma broadcast2_long (f : Q -> Q -> Q) (x y : list Q) :
  length x = length y -> (2 <= length x)%nat ->
  broadcast2 f x y = Ok (map (fun p => f (fst p) (snd p)) (combine x y)).
Proof.
  intros Hl Hn.
  destruct x as [|a [|b x]]; cbn [length] in Hn; try lia.
  destruct y as [|c [|d y]]; cbn [length] in Hl; try lia.
  unfold broadcast2. cbn [length]. now rewrite (proj2 (Nat.eqb_eq _ _) Hl).
Qed.

Lemma returns_of_values (s : Series price) :
  FinalTest.returns_of (values s) = Ok (values (dropna (pct_change s))).
Proof.
  unfold FinalTest.returns_of, np_divide_arrays.
  destruct s as [|[t0 p0] rest]; [reflexivity|].
  destruct rest as [|[t1 p1] [|[t2 p2] s]]; [reflexivity|reflexivity|].
  remember ((t1, p1) :: (t2, p2) :: s) as rest eqn:Er.
  cbn [pct_change dropna]. rewrite <- (diff_over_previous rest p0).
  change (values ((t0, p0) :: rest)) with (p0 :: values rest).
  apply broadcast2_long.
  - now rewrite np_diff_length, removelast_length.
  - rewrite np_diff_length, length_map. subst rest. cbn [values map length]. lia.
Qed.

End Returns.

(** C8, as amended.  For every price series the returns built by
    pct_change().dropna() (calculate_beta_simple) number
    len(prices) - 1 when there are prices; the return at each row
    i >= 1 is (price[i] - price[i-1]) / price[i-1], kept under the
    timestamp of row i; np.diff(prices) / prices[:-1] (final_test.py)
    gives the same values; and a series of fewer than 2 prices gives
    the empty return series, no error being raised. *)
Theorem returns_are_percentage_changes (s : Series price) :
  length (dropna (pct_change s)) = (length s - 1)%nat /\
  (forall i t' q t p,
     nth_error s i = Some (t', q) -> nth_error s (S i) = Some (t, p) ->
     nth_error (dropna (pct_change s)) i
     = Some (t, (price_val p - price_val q) / price_val q)) /\
  FinalTest.returns_of (values s) = Ok (values (dropna (pct_change s))) /\
  ((length s < 2)%nat ->
     dropna (pct_change s) = [] /\ FinalTest.returns_of (values s) = Ok []).
Proof.
  split; [apply dropna_pct_change_length|].
  split.
  - intros i t' q t p H0 H1. destruct s as [|[t0 p0] s]; [discriminate|].
    cbn [nth_error] in H1. cbn [pct_change dropna].
    now apply (nth_pct_change_from i t0 p0 s t' t q p).
  - split; [apply returns_of_values|].
    intros Hn. destruct s as [|[t0 p0] [|row s]]; cbn [length] in Hn; try lia;
      split; reflexivity.
Qed.

(** C8 as stated fails: one price is turned into the empty return
    series by both builders, which is a result and not an error. *)
Lemma single_price_yields_empty_returns :
  dropna (pct_change [(0%Z, mkPrice 5 1)]) = [] /\
  FinalTest.returns_of [mkPrice 5 1] = Ok [].
Proof. split; reflexivity. Qed.

(** ** Failures *)

Section Failures.

Import GetBars Beta5Year Main5Year.

Lemma getBars_success_log (raw : RawFrame) (kept : DataFrame) (log : list message) :
  getBars (Downloaded raw) = (Some kept, log) ->
  log = [SuccessfullyFetched (length kept)].
Proof.
  unfold getBars. destruct (raw_rows raw) as [|r rows]; [discriminate|].
  destruct (if has_adj_close raw
            then Some (map (fun r0 => (row_ts r0, row_adj_close r0)) (r :: rows))
            else if has_close raw
                 then Some (map (fun r0 => (row_ts r0, row_close r0)) (r :: rows))
                 else None) as [col|]; [|discriminate].
  destruct (dropna_close col) as [|k ks]; [discriminate|].
  intros E. injection E as <- <-. reflexivity.
Qed.

Lemma short_history_is_refused (stock_data market_data : DataFrame) :
  (length (intersection (index stock_data) (index market_data)) < 50)%nat ->
  calculate_beta_simple (Some stock_data) (Some market_data) = (None, []).
Proof.
  intros H. unfold calculate_beta_simple, calculate_beta_simple_body.
  cbn [deref exc_bind]. unfold align_on_common_dates.
  now rewrite (proj2 (Nat.ltb_lt _ _) H).
Qed.

End Failures.

(** C9, as amended.  Every failure comes back as the one value None:
    getBars returns None when the download raises,
    calculate_beta_simple returns None when fewer than 50 dates are
    common and when it is handed None in place of a frame.  The loop
    of main answers a failed download and a history of fewer than 50
    rows with the same "Insufficient 5-year data" line and no result;
    the two causes differ only in the line getBars printed before. *)
Theorem failures_share_the_value_None (market_data : DataFrame) :
  (forall e, GetBars.getBars (GetBars.DownloadRaises e) = (None, [ErrorFetchingData e])) /\
  (forall stock_data,
     (length (intersection (index stock_data) (index market_data)) < 50)%nat ->
     Beta5Year.calculate_beta_simple (Some stock_data) (Some market_data) = (None, [])) /\
  Beta5Year.calculate_beta_simple None (Some market_data)
  = (None, [ErrorCalculatingBeta AttributeError]) /\
  (forall e,
     Main5Year.process_symbol (GetBars.DownloadRaises e) market_data
     = (None, [ErrorFetchingData e; InsufficientFiveYearData])) /\
  (forall raw kept log,
     GetBars.getBars (GetBars.Downloaded raw) = (Some kept, log) ->
     (length kept < 50)%nat ->
     Main5Year.process_symbol (GetBars.Downloaded raw) market_data
     = (None, [SuccessfullyFetched (length kept); InsufficientFiveYearData])).
Proof.
  split; [reflexivity|]. split; [intros; now apply short_history_is_refused|].
  split; [reflexivity|]. split; [reflexivity|].
  intros raw kept log Hg Hlen.
  pose proof (getBars_success_log raw kept log Hg) as ->.
  unfold Main5Year.process_symbol. rewrite Hg.
  now rewrite (proj2 (Nat.ltb_lt _ _) Hlen).
Qed.

(** C9 as stated fails: a download that raises and a history of ten
    bars end with the same value (no result) and the same last line
    from main, and calculate_beta_simple answers a missing frame and a
    short history with the same value None. *)
Lemma download_failure_and_short_history_look_alike :
  let market := Examples.market_zigzag in
  let failed := GetBars.DownloadRaises ConnectionError in
  let short := GetBars.Downloaded (Examples.raw_of Examples.short_history) in
  (fst (GetBars.getBars failed) = None) /\
  (fst (GetBars.getBars short) = Some Examples.short_history) /\
  (fst (Main5Year.process_symbol failed market)
   = fst (Main5Year.process_symbol short market)) /\
  (last (snd (Main5Year.process_symbol failed market)) BetaComputed
   = last (snd (Main5Year.process_symbol short market)) BetaComputed) /\
  (fst (Beta5Year.calculate_beta_simple None (Some market))
   = fst (Beta5Year.calculate_beta_simple (Some Examples.short_history) (Some market))).
Proof. cbv zeta. repeat split; vm_compute; reflexivity. Qed.

(** ** The theorems at concrete inputs *)

Lemma directional_split_is_a_partition_witness :
  let sr := fst (Examples.aligned_of Examples.stock_wandering Examples.market_zigzag) in
  let mr := snd (Examples.aligned_of Examples.stock_wandering Examples.market_zigzag) in
  length sr = length mr /\
  feq0 (np_var mr) = false /\
  Permutation (combine sr mr)
    (positive_subset sr mr ++ negative_subset sr mr ++ zero_set sr mr) /\
  exists r, Beta5Year.estimate sr mr = Ok (Some r) /\
    Beta5Year.positive_days r = 27%nat /\
    Beta5Year.negative_days r = 27%nat /\
    Beta5Year.positive_beta r = subset_beta 10 (positive_subset sr mr) /\
    Beta5Year.positive_beta r <> None.
Proof.
  cbv zeta.
  set (sr := fst (Examples.aligned_of Examples.stock_wandering Examples.market_zigzag)).
  set (mr := snd (Examples.aligned_of Examples.stock_wandering Examples.market_zigzag)).
  assert (Hl : length sr = length mr) by (vm_compute; reflexivity).
  assert (Hv : feq0 (np_var mr) = false) by (vm_compute; reflexivity).
  destruct (directional_split_is_a_partition sr mr Hl)
    as (_ & _ & _ & _ & Hperm & _ & Hrep & _).
  destruct (Hrep Hv) as (r & Er & Hp & Hn & _ & Hpb & _).
  split; [exact Hl|]. split; [exact Hv|]. split; [exact Hperm|].
  exists r. split; [exact Er|].
  split; [rewrite Hp; vm_compute; reflexivity|].
  split; [rewrite Hn; vm_compute; reflexivity|].
  split; [exact Hpb|]. rewrite Hpb. vm_compute. discriminate.
Defined.

Lemma directional_beta_never_divides_by_zero_variance_witness :
  let sr := fst (Examples.aligned_of Examples.stock_wandering Examples.market_doubling) in
  let mr := snd (Examples.aligned_of Examples.stock_wandering Examples.market_doubling) in
  length sr = length mr /\
  exists r, Beta5Year.estimate sr mr = Ok (Some r) /\
    Beta5Year.positive_beta r = None /\
    Beta5Year.negative_beta r <> None /\
    variance_guarded 10 (positive_subset sr mr) (Beta5Year.positive_beta r) /\
    variance_guarded 10 (negative_subset sr mr) (Beta5Year.negative_beta r).
Proof.
  cbv zeta. split; [vm_compute; reflexivity|].
  eexists. split; [vm_compute; reflexivity|].
  split; [reflexivity|]. split; [discriminate|].
  apply (proj1 (directional_beta_never_divides_by_zero_variance
                  (fst (Examples.aligned_of Examples.stock_wandering Examples.market_doubling))
                  (snd (Examples.aligned_of Examples.stock_wandering Examples.market_doubling))
                  ltac:(vm_compute; reflexivity))).
  vm_compute; reflexivity.
Defined.

Lemma directional_beta_threshold_rule_witness :
  let sr := fst (Examples.aligned_of Examples.stock_still_on_rises Examples.market_zigzag) in
  let mr := snd (Examples.aligned_of Examples.stock_still_on_rises Examples.market_zigzag) in
  length sr = length mr /\
  exists r, Beta5Year.estimate sr mr = Ok (Some r) /\
    Beta5Year.beta r = cov_over_var (combine sr mr) /\
    threshold_rule 10 (positive_subset sr mr) (Beta5Year.positive_beta r) /\
    threshold_rule 10 (negative_subset sr mr) (Beta5Year.negative_beta r).
Proof.
  cbv zeta. split; [vm_compute; reflexivity|].
  eexists. split; [vm_compute; reflexivity|].
  apply (proj1 (directional_beta_threshold_rule
                  (fst (Examples.aligned_of Examples.stock_still_on_rises Examples.market_zigzag))
                  (snd (Examples.aligned_of Examples.stock_still_on_rises Examples.market_zigzag))
                  ltac:(vm_compute; reflexivity))).
  vm_compute; reflexivity.
Defined.

Lemma zero_variance_benchmark_is_refused_witness :
  exists sr mr,
    Beta5Year.align_on_common_dates Examples.stock_wandering Examples.market_flat
    = Ok (Some (sr, mr)) /\
    feq0 (np_var mr) = true /\
    Beta5Year.calculate_beta_simple (Some Examples.stock_wandering)
                                    (Some Examples.market_flat) = (None, []).
Proof.
  do 2 eexists.
  assert (Ea : Beta5Year.align_on_common_dates Examples.stock_wandering Examples.market_flat
               = Ok (Some (Examples.aligned_of Examples.stock_wandering Examples.market_flat)))
    by (vm_compute; reflexivity).
  assert (Hz : feq0 (np_var (snd (Examples.aligned_of Examples.stock_wandering
                                     Examples.market_flat))) = true)
    by (vm_compute; reflexivity).
  rewrite (surjective_pairing (Examples.aligned_of _ _)) in Ea.
  split; [exact Ea|]. split; [exact Hz|].
  exact (proj1 (zero_variance_benchmark_is_refused Examples.stock_wandering
                  Examples.market_flat) _ _ Ea Hz).
Defined.

Lemma covariance_beta_equals_regression_slope_witness :
  let sr := Examples.five_asset_returns in
  let mr := Examples.five_benchmark_returns in
  length sr = length mr /\
  np_var_ddof 1 mr = Finite (variance 1 mr) /\
  0 < variance 1 mr /\
  exists b s s',
    YahooReplication.beta_a sr mr = Ok (Finite b) /\
    YahooReplication.beta_b sr mr = Ok (Finite s) /\
    ExplainMethods.beta_cov_numpy sr mr = Ok (Finite b) /\
    ExplainMethods.beta_cov_manual sr mr = Ok (Finite b) /\
    ExplainMethods.slope sr mr = Ok (Finite s) /\
    ExplainMethods.beta_reg_manual sr mr = Ok (Finite s') /\
    b == s /\ b == s' /\
    Qabs (b - s) <= (1 # 1000000000) * Qabs s.
Proof.
  cbv zeta. split; [reflexivity|]. split; [reflexivity|].
  split; [vm_compute; reflexivity|].
  apply (covariance_beta_equals_regression_slope Examples.five_asset_returns
           Examples.five_benchmark_returns
           (variance 1 Examples.five_benchmark_returns)).
  - reflexivity.
  - reflexivity.
  - vm_compute; reflexivity.
Defined.

Lemma returns_are_percentage_changes_witness :
  let s := [(0%Z, mkPrice 5 1); (1%Z, mkPrice 10 1); (2%Z, mkPrice 8 1)] in
  let one := [(0%Z, mkPrice 5 1)] in
  nth_error s 1 = Some (1%Z, mkPrice 10 1) /\
  nth_error s 2 = Some (2%Z, mkPrice 8 1) /\
  nth_error (dropna (pct_change s)) 1 = Some (2%Z, ((8 # 1) - (10 # 1)) / (10 # 1)) /\
  (length one < 2)%nat /\
  dropna (pct_change one) = [] /\ FinalTest.returns_of (values one) = Ok [].
Proof.
  cbv zeta. split; [reflexivity|]. split; [reflexivity|].
  split.
  - exact (proj1 (proj2 (returns_are_percentage_changes
                           [(0%Z, mkPrice 5 1); (1%Z, mkPrice 10 1); (2%Z, mkPrice 8 1)]))
             1%nat 1%Z (mkPrice 10 1) 2%Z (mkPrice 8 1) eq_refl eq_refl).
  - split; [cbn; lia|].
    apply (proj2 (proj2 (proj2 (returns_are_percentage_changes [(0%Z, mkPrice 5 1)])))).
    cbn; lia.
Defined.

Lemma failures_share_the_value_None_witness :
  let market := Examples.market_zigzag in
  let short := Examples.short_history in
  (length (intersection (index short) (index market)) < 50)%nat /\
  Beta5Year.calculate_beta_simple (Some short) (Some market) = (None, []) /\
  GetBars.getBars (GetBars.Downloaded (Examples.raw_of short))
  = (Some short, [SuccessfullyFetched 10]) /\
  (length short < 50)%nat /\
  Main5Year.process_symbol (GetBars.Downloaded (Examples.raw_of short)) market
  = (None, [SuccessfullyFetched 10; InsufficientFiveYearData]).
Proof.
  cbv zeta.
  assert (H1 : (length (intersection (index Examples.short_history)
                          (index Examples.market_zigzag)) < 50)%nat)
    by (vm_compute; lia).
  assert (H2 : GetBars.getBars (GetBars.Downloaded (Examples.raw_of Examples.short_history))
               = (Some Examples.short_history, [SuccessfullyFetched 10]))
    by (vm_compute; reflexivity).
  assert (H3 : (length Examples.short_history < 50)%nat) by (vm_compute; lia).
  split; [exact H1|].
  split; [exact (proj1 (proj2 (failures_share_the_value_None Examples.market_zigzag))
                   Examples.short_history H1)|].
  split; [exact H2|]. split; [exact H3|].
  exact (proj2 (proj2 (proj2 (proj2 (failures_share_the_value_None Examples.market_zigzag))))
           (Examples.raw_of Examples.short_history) Examples.short_history
           [SuccessfullyFetched 10] H2 H3).
Defined.

(** * Further properties of the code *)

(** ** getBars *)

Section GetBarsFacts.

Import GetBars.

Lemma dropna_close_In (col : Series (option price)) (t : Z) (p : price) :
  In (t, p) (dropna_close col) <-> In (t, Some p) col.
Proof.
  induction col as [|[u [q|]] col IH]; cbn [dropna_close In].
  - reflexivity.
  - rewrite IH. split; intros [E|H]; auto; left; congruence.
  - rewrite IH. split; [auto|]. intros [E|H]; [discriminate|auto].
Qed.

Lemma dropna_close_length (col : Series (option price)) :
  (length (dropna_close col) <= length col)%nat.
Proof.
  induction col as [|[u [q|]] col IH]; cbn [dropna_close length]; lia.
Qed.

Lemma dropna_close_index_In (col : Series (option price)) (t : Z) :
  In t (index (dropna_close col)) -> In t (index col).
Proof.
  unfold index. induction col as [|[u [q|]] col IH]; cbn [dropna_close map fst In]; auto.
  intros [E|H]; auto.
Qed.

Lemma dropna_close_increasing (col : Series (option price)) :
  StronglySorted Z.lt (index col) -> StronglySorted Z.lt (index (dropna_close col)).
Proof.
  induction col as [|[u [q|]] col IH]; intros H; cbn [dropna_close]; auto.
  - unfold index in *. cbn [map fst] in *. inversion H as [|? ? Hs Hf]; subst.
    constructor; [now apply IH|].
    rewrite Forall_forall in *. intros t Ht. apply Hf.
    now apply dropna_close_index_In.
  - unfold index in *. cbn [map fst] in *. inversion H; subst. now apply IH.
Qed.

Lemma dropna_close_nil (col : Series (option price)) :
  dropna_close col = [] <-> (forall row, In row col -> snd row = None).
Proof.
  induction col as [|[u [q|]] col IH]; cbn [dropna_close].
  - split; auto. intros _ row [].
  - split; [discriminate|]. intros H. specialize (H (u, Some q) (or_introl eq_refl)).
    discriminate.
  - rewrite IH. split; intros H row.
    + intros [<-|Hr]; auto.
    + intros Hr. apply H. now right.
Qed.

(** The column of closes getBars works on. *)
Lemma getBars_unfold (raw : RawFrame) :
  getBars (Downloaded raw) =
  match raw_rows raw with
  | [] => (None, [NoDataFound])
  | _ :: _ =>
      if has_adj_close raw || has_close raw then
        match dropna_close (map (fun r => (row_ts r, close_of raw r)) (raw_rows raw)) with
        | [] => (None, [AllClosePricesNaN])
        | kept => (Some kept, [SuccessfullyFetched (length kept)])
        end
      else (None, [NoClosePriceColumn])
  end.
Proof.
  unfold getBars, close_of. destruct (raw_rows raw) as [|r rows]; auto.
  destruct (has_adj_close raw); cbn [orb]; auto.
  destruct (has_close raw); auto.
Qed.

End GetBarsFacts.

(** X1.  A frame returned by getBars is not empty; it holds, in the
    order of the download, exactly the rows whose close (Adj Close
    when the download has that column, Close otherwise) is a number;
    the row count it prints is the length of the frame; and dates
    that come in increasing order stay in increasing order. *)
Theorem getBars_keeps_the_rows_with_a_close
  (raw : GetBars.RawFrame) (df : DataFrame) (log : list message) :
  GetBars.getBars (GetBars.Downloaded raw) = (Some df, log) ->
  df <> [] /\
  log = [SuccessfullyFetched (length df)] /\
  (length df <= length (GetBars.raw_rows raw))%nat /\
  (forall t p, In (t, p) df <->
     exists r, In r (GetBars.raw_rows raw) /\ GetBars.row_ts r = t /\ close_of raw r = Some p) /\
  (StronglySorted Z.lt (map GetBars.row_ts (GetBars.raw_rows raw)) ->
   StronglySorted Z.lt (index df)).
Proof.
  rewrite getBars_unfold.
  destruct (GetBars.raw_rows raw) as [|r0 rows] eqn:Er; [discriminate|].
  destruct (GetBars.has_adj_close raw || GetBars.has_close raw); [|discriminate].
  set (col := map (fun r => (GetBars.row_ts r, close_of raw r)) (r0 :: rows)).
  destruct (GetBars.dropna_close col) as [|k ks] eqn:Ek; [discriminate|].
  intros E. injection E as <- <-.
  split; [discriminate|]. split; [reflexivity|].
  split.
  { rewrite <- Ek. pose proof (dropna_close_length col) as L.
    unfold col in L at 2. now rewrite length_map in L. }
  split.
  - intros t p. rewrite <- Ek, dropna_close_In. unfold col. rewrite in_map_iff.
    split.
    + intros [r [E Hr]]. injection E as <- E. now exists r.
    + intros [r (Hr & <- & E)]. exists r. now rewrite E.
  - intros Hs. rewrite <- Ek. apply dropna_close_increasing.
    unfold index, col. rewrite map_map. exact Hs.
Qed.

(** X2.  getBars returns None for a download that came back exactly
    when the download has no rows, or neither close column, or no row
    with a number in the column it reads; so an Adj Close column full
    of nan makes it return None whatever the Close column holds. *)
Theorem getBars_returns_None_exactly_when (raw : GetBars.RawFrame) :
  fst (GetBars.getBars (GetBars.Downloaded raw)) = None <->
  GetBars.raw_rows raw = [] \/
  (GetBars.has_adj_close raw = false /\ GetBars.has_close raw = false) \/
  (forall r, In r (GetBars.raw_rows raw) -> close_of raw r = None).
Proof.
  rewrite getBars_unfold.
  destruct (GetBars.raw_rows raw) as [|r0 rows] eqn:Er.
  - split; auto.
  - destruct (GetBars.has_adj_close raw) eqn:Ha, (GetBars.has_close raw) eqn:Hc; cbn [orb].
    4: { split; auto. }
    all: set (col := map (fun r => (GetBars.row_ts r, close_of raw r)) (r0 :: rows));
      destruct (GetBars.dropna_close col) as [|k ks] eqn:Ek; cbn [fst];
      (split;
       [ intros E; try discriminate E; right; right; intros r Hr;
         rewrite dropna_close_nil in Ek;
         apply (Ek (GetBars.row_ts r, close_of raw r));
         unfold col; apply in_map_iff; now exists r
       | intros [E|[[E1 E2]|E]]; try discriminate; auto;
         exfalso;
         assert (Hn : GetBars.dropna_close col = [])
           by (apply dropna_close_nil; unfold col; intros row Hrow;
               apply in_map_iff in Hrow; destruct Hrow as [r [<- Hr]]; cbn; now apply E);
         rewrite Hn in Ek; discriminate ]).
Qed.

(** ** calculate_beta_simple as a whole *)

Section SimpleWhole.

Import Beta5Year.

Lemma mask_counts (x : list Q) :
  (np_sum_mask (gt0_mask x) + np_sum_mask (lt0_mask x) <= length x)%nat.
Proof.
  unfold np_sum_mask, gt0_mask, lt0_mask.
  induction x as [|m x IH]; cbn [map filter length]; [lia|].
  destruct (sign_cases m) as [(E1 & E2 & _)|[(E1 & E2 & _)|(E1 & E2 & _)]];
    rewrite E1, E2; cbn [length]; lia.
Qed.

Lemma filter_comm {A : Type} (f g : A -> bool) (l : list A) :
  filter f (filter g l) = filter g (filter f l).
Proof.
  induction l as [|a l IH]; cbn [filter]; auto.
  destruct (f a) eqn:Fa, (g a) eqn:Ga; cbn [filter]; rewrite ?Fa, ?Ga, IH; auto.
Qed.

Lemma filter_absorb {A : Type} (f g : A -> bool) (l : list A) :
  (forall a, f a = true -> g a = true) -> filter f (filter g l) = filter f l.
Proof.
  intros H. induction l as [|a l IH]; cbn [filter]; auto.
  destruct (g a) eqn:Ga; cbn [filter]; rewrite IH; auto.
  destruct (f a) eqn:Fa; auto. rewrite (H a Fa) in Ga. discriminate.
Qed.

Lemma unique_filter (f : Z -> bool) (l : list Z) :
  unique (filter f l) = filter f (unique l).
Proof.
  induction l as [|a l IH]; cbn [unique filter]; auto.
  destruct (f a) eqn:Fa; cbn [unique filter]; rewrite ?Fa, IH.
  - f_equal. apply filter_comm.
  - symmetry. apply filter_absorb. intros b Fb.
    apply negb_true_iff, Z.eqb_neq. intros ->. congruence.
Qed.

Lemma filter_idem {A : Type} (f : A -> bool) (l : list A) :
  filter f (filter f l) = filter f l.
Proof.
  apply filter_all. intros a Ha. now apply filter_In in Ha.
Qed.

Lemma index_filter {A : Type} (f : Z -> bool) (s : Series A) :
  index (filter (fun row => f (fst row)) s) = filter f (index s).
Proof.
  unfold index. induction s as [|[t v] s IH]; cbn [filter map fst]; auto.
  destruct (f t); cbn [map fst]; now rewrite IH.
Qed.

Lemma filter_label_filter {A : Type} (f : Z -> bool) (s : Series A) (t : Z) :
  f t = true ->
  filter (fun row => (fst row =? t)%Z) (filter (fun row => f (fst row)) s)
  = filter (fun row => (fst row =? t)%Z) s.
Proof.
  intros Ft. induction s as [|[u v] s IH]; cbn [filter fst]; auto.
  destruct (Z.eqb_spec u t) as [->|Hne].
  - rewrite Ft. cbn [filter fst]. rewrite Z.eqb_refl. now rewrite IH.
  - destruct (f u); cbn [filter fst]; auto.
    destruct (Z.eqb_spec u t); [contradiction|auto].
Qed.

Lemma loc_filter {A : Type} (f : Z -> bool) (s : Series A) (labels : list Z) :
  (forall t, In t labels -> f t = true) ->
  loc (filter (fun row => f (fst row)) s) labels = loc s labels.
Proof.
  induction labels as [|t labels IH]; intros H; cbn [loc]; auto.
  rewrite filter_label_filter by (apply H; now left).
  rewrite IH by (intros u Hu; apply H; now right). reflexivity.
Qed.

Lemma intersection_restrict_left (a b : list Z) :
  intersection (filter (fun t => mem t b) a) b = intersection a b.
Proof.
  unfold intersection. rewrite unique_filter. apply filter_idem.
Qed.

Lemma intersection_restrict_right (a b : list Z) :
  intersection a (filter (fun t => mem t a) b) = intersection a b.
Proof.
  unfold intersection. apply filter_ext_in. intros t Ht.
  apply (proj1 (unique_In t a)) in Ht.
  destruct (mem t b) eqn:Mb.
  - apply mem_In. apply filter_In. split.
    + now apply mem_In.
    + apply mem_In. exact Ht.
  - apply not_true_iff_false. intros Hm. apply mem_In, filter_In in Hm.
    destruct Hm as [Hb _]. apply mem_In in Hb. congruence.
Qed.

Lemma align_restrict_stock (stock_data market_data : DataFrame) :
  align_on_common_dates (restrict stock_data market_data) market_data
  = align_on_common_dates stock_data market_data.
Proof.
  unfold align_on_common_dates, restrict.
  rewrite (index_filter (fun t => mem t (index market_data))).
  rewrite intersection_restrict_left.
  destruct (length (intersection (index stock_data) (index market_data)) <? 50)%nat; auto.
  rewrite (loc_filter (fun t => mem t (index market_data))); auto.
  intros t Ht. apply intersection_In in Ht. now apply mem_In.
Qed.

Lemma align_restrict_market (stock_data market_data : DataFrame) :
  align_on_common_dates stock_data (restrict market_data stock_data)
  = align_on_common_dates stock_data market_data.
Proof.
  unfold align_on_common_dates, restrict.
  rewrite (index_filter (fun t => mem t (index stock_data))).
  rewrite intersection_restrict_right.
  destruct (length (intersection (index stock_data) (index market_data)) <? 50)%nat; auto.
  rewrite (loc_filter (fun t => mem t (index stock_data)) market_data); auto.
  intros t Ht. apply intersection_In in Ht. now apply mem_In.
Qed.

Lemma align_same_frame (df : DataFrame) (sr mr : list Q) :
  align_on_common_dates df df = Ok (Some (sr, mr)) -> sr = mr.
Proof.
  unfold align_on_common_dates.
  destruct (length (intersection (index df) (index df)) <? 50)%nat; [discriminate|].
  destruct (loc df (intersection (index df) (index df))) as [rows|]; [|discriminate].
  cbn [exc_bind]. intros E. now injection E as <- <-.
Qed.

Lemma sum_cross_dev_self (x : list Q) : sum_cross_dev x x = sum_sq_dev x.
Proof.
  unfold sum_cross_dev, sum_sq_dev. cbv zeta. f_equal.
  generalize (mean x). intros m.
  induction x as [|a x IH]; cbn [combine map fst snd]; auto. now rewrite IH.
Qed.

End SimpleWhole.

(** X3.  Handed two frames, calculate_beta_simple raises nothing and
    prints nothing, whatever the dates and prices.  It returns None
    only when fewer than 50 dates are common or the aligned benchmark
    returns have zero variance; a report it returns rests on at least
    49 aligned returns, and its positive and negative day counts
    together do not exceed that number. *)
Theorem calculate_beta_simple_outcomes (stock_data market_data : DataFrame) :
  snd (Beta5Year.calculate_beta_simple (Some stock_data) (Some market_data)) = [] /\
  (fst (Beta5Year.calculate_beta_simple (Some stock_data) (Some market_data)) = None ->
   (length (intersection (index stock_data) (index market_data)) < 50)%nat \/
   exists sr mr,
     Beta5Year.align_on_common_dates stock_data market_data = Ok (Some (sr, mr)) /\
     variance 0 mr == 0) /\
  (forall r,
     fst (Beta5Year.calculate_beta_simple (Some stock_data) (Some market_data)) = Some r ->
     (50 <= length (intersection (index stock_data) (index market_data)))%nat /\
     (49 <= Beta5Year.data_points r)%nat /\
     (Beta5Year.positive_days r + Beta5Year.negative_days r
      <= Beta5Year.data_points r)%nat).
Proof.
  split; [apply calculate_beta_simple_silent|]. split.
  - unfold Beta5Year.calculate_beta_simple, Beta5Year.calculate_beta_simple_body.
    cbn [deref exc_bind].
    destruct (align_on_common_dates_ok stock_data market_data) as [a [Ea Ha]].
    rewrite Ea. cbn [exc_bind].
    destruct a as [[sr mr]|].
    + destruct (Ha sr mr eq_refl) as [Hl Hn].
      destruct (estimate_shape sr mr Hl) as [c [_ He]]. rewrite He.
      assert (Hne : mr <> []) by (intros ->; cbn in Hl; lia).
      rewrite (np_var_nonempty mr Hne). cbn [feq0].
      destruct (Qeq_bool (variance 0 mr) 0) eqn:Hz; [|discriminate].
      intros _. right. exists sr, mr. split; auto. now apply Qeq_bool_iff.
    + intros _. left. unfold Beta5Year.align_on_common_dates in Ea.
      destruct (Nat.ltb_spec (length (intersection (index stock_data) (index market_data))) 50);
        auto.
      destruct (loc stock_data _); [|discriminate].
      destruct (loc market_data _); discriminate.
  - intros r Hr.
    destruct (calculate_beta_simple_report _ _ _ Hr) as (sr & mr & Ea & Hl & Hn & He).
    destruct (estimate_shape sr mr Hl) as [c [_ E]]. rewrite E in He.
    destruct (feq0 (np_var mr)); [discriminate|]. injection He as <-. cbn.
    split.
    + unfold Beta5Year.align_on_common_dates in Ea.
      destruct (Nat.ltb_spec (length (intersection (index stock_data) (index market_data))) 50);
        [discriminate|lia].
    + split; auto. rewrite Hl. apply mask_counts.
Qed.

(** X4.  Bars on dates the other history lacks have no influence on
    calculate_beta_simple: dropping them from the stock's history, or
    from the market's, leaves the result unchanged. *)
Theorem calculate_beta_simple_ignores_unshared_dates (stock_data market_data : DataFrame) :
  Beta5Year.calculate_beta_simple (Some (restrict stock_data market_data)) (Some market_data)
  = Beta5Year.calculate_beta_simple (Some stock_data) (Some market_data) /\
  Beta5Year.calculate_beta_simple (Some stock_data) (Some (restrict market_data stock_data))
  = Beta5Year.calculate_beta_simple (Some stock_data) (Some market_data).
Proof.
  unfold Beta5Year.calculate_beta_simple, Beta5Year.calculate_beta_simple_body.
  cbn [deref exc_bind].
  now rewrite align_restrict_stock, align_restrict_market.
Qed.

(** X5.  The beta calculate_beta_simple reports for a history against
    itself is n / (n - 1), n being the number of returns: the sample
    covariance is divided by the population variance. *)
Theorem beta_of_a_history_against_itself (df : DataFrame) (r : Beta5Year.BetaResult) :
  fst (Beta5Year.calculate_beta_simple (Some df) (Some df)) = Some r ->
  exists b,
    Beta5Year.beta r = Finite b /\
    b == inject_Z (Z.of_nat (Beta5Year.data_points r))
         / (inject_Z (Z.of_nat (Beta5Year.data_points r)) - 1).
Proof.
  intros Hr.
  destruct (calculate_beta_simple_report _ _ _ Hr) as (sr & mr & Ea & Hl & Hn & He).
  apply align_same_frame in Ea. subst mr.
  destruct (beta_is_sample_cov_over_population_var sr sr r Hl) as [Hv Hb]; [lia|auto|].
  destruct (estimate_shape sr sr Hl) as [c [_ E]]. rewrite E in He.
  destruct (feq0 (np_var sr)); [discriminate|]. injection He as Er.
  exists (sample_cov sr sr / variance 0 sr). split; auto.
  rewrite <- Er. cbn [Beta5Year.data_points].
  assert (Hne : sr <> []) by (intros ->; cbn in Hn; lia).
  assert (Hs : ~ sum_sq_dev sr == 0) by (intros Hz; apply Hv; now apply variance0_zero_iff).
  unfold sample_cov, variance. rewrite sum_cross_dev_self, Nat.sub_0_r.
  assert (E1 : inject_Z (Z.of_nat (length sr - 1)) == inject_Z (Z.of_nat (length sr)) - 1).
  { rewrite Nat2Z.inj_sub by lia. unfold Z.sub. rewrite inject_Z_plus, inject_Z_opp.
    reflexivity. }
  rewrite E1.
  assert (Hp : 1 < inject_Z (Z.of_nat (length sr))).
  { replace 1 with (inject_Z 1) by reflexivity. rewrite <- Zlt_Qlt. lia. }
  field. repeat split; try lra; auto.
Qed.

(** ** calculate_beta_fixed against its neighbours *)

Section FixedWhole.

Lemma row_value_unique {A : Type} (s : Series A) (t : Z) (v v' : A) :
  NoDup (index s) -> In (t, v) s -> In (t, v') s -> v = v'.
Proof.
  unfold index. induction s as [|[u w] s IH]; intros Hnd H1 H2; [destruct H1|].
  cbn [map fst] in Hnd. inversion Hnd as [|? ? Hn Hnd']; subst.
  destruct H1 as [E1|H1], H2 as [E2|H2].
  - congruence.
  - injection E1 as -> ->. exfalso. apply Hn. apply in_map_iff. now exists (t, v').
  - injection E2 as -> ->. exfalso. apply Hn. apply in_map_iff. now exists (t, v).
  - now apply IH.
Qed.

Lemma loc_sub {A : Type} (s l : Series A) :
  NoDup (index s) -> (forall row, In row l -> In row s) -> loc s (index l) = Ok l.
Proof.
  intros Hnd. induction l as [|[t v] l IH]; intros H; [reflexivity|].
  unfold index in *. cbn [map fst loc].
  destruct (filter_one_row s t Hnd) as [v' [Ef Hv]].
  { apply in_map_iff. exists (t, v). split; auto. apply H. now left. }
  assert (v' = v) by (apply (row_value_unique s t); auto; apply H; now left).
  subst v'. rewrite Ef, IH by (intros row Hr; apply H; now right).
  reflexivity.
Qed.

Lemma loc_self {A : Type} (s : Series A) : NoDup (index s) -> loc s (index s) = Ok s.
Proof. intros H. now apply loc_sub. Qed.

Lemma intersection_self (l : list Z) : NoDup l -> intersection l l = l.
Proof.
  intros H. unfold intersection. rewrite unique_NoDup by auto.
  apply filter_all. intros t Ht. now apply mem_In.
Qed.

Lemma NoDup_tl {A : Type} (l : list A) : NoDup l -> NoDup (tl l).
Proof. destruct 1; cbn; auto. constructor. Qed.

(** Both alignments on two histories with the same increasing dates. *)
Lemma alignments_on_same_dates (stock_data market_data : DataFrame) :
  index stock_data = index market_data ->
  StronglySorted Z.lt (index stock_data) ->
  let sr := values (dropna (pct_change stock_data)) in
  let mr := values (dropna (pct_change market_data)) in
  length sr = length mr /\
  length sr = (length stock_data - 1)%nat /\
  ((50 <= length stock_data)%nat ->
   Beta5Year.align_on_common_dates stock_data market_data = Ok (Some (sr, mr))) /\
  ((51 <= length stock_data)%nat ->
   Corrected.align_returns stock_data market_data
   = Ok (Some (tl (index stock_data), sr, mr))) /\
  ((length stock_data <= 50)%nat ->
   Corrected.align_returns stock_data market_data = Ok None).
Proof.
  intros Hi Hs sr mr.
  pose proof (increasing_NoDup _ Hs) as Hnd.
  assert (Ls : length sr = (length stock_data - 1)%nat)
    by (unfold sr; now rewrite values_length, dropna_pct_change_length).
  assert (Lm : length mr = (length stock_data - 1)%nat).
  { unfold mr. rewrite values_length, dropna_pct_change_length.
    now rewrite <- (index_length market_data), <- Hi, index_length. }
  split; [lia|]. split; [exact Ls|]. split; [|split].
  - intros Hn. unfold Beta5Year.align_on_common_dates.
    rewrite <- Hi, intersection_self by auto. rewrite index_length.
    destruct (Nat.ltb_spec (length stock_data) 50); [lia|].
    rewrite loc_self by auto.
    replace (loc market_data (index stock_data)) with (Ok market_data)
      by (rewrite Hi; symmetry; apply loc_self; now rewrite <- Hi).
    cbn [exc_bind]. fold sr mr.
    rewrite <- (values_length (dropna (pct_change stock_data))).
    rewrite <- (values_length (dropna (pct_change market_data))).
    fold sr mr. rewrite Lm, Ls, Nat.min_id.
    rewrite !firstn_all2 by lia. reflexivity.
  - intros Hn. unfold Corrected.align_returns.
    rewrite !index_dropna_pct_change, <- Hi.
    rewrite intersection_self by now apply NoDup_tl.
    assert (Lt : length (tl (index stock_data)) = (length stock_data - 1)%nat).
    { rewrite <- (index_length stock_data). destruct (index stock_data); cbn; lia. }
    rewrite Lt. destruct (Nat.ltb_spec (length stock_data - 1) 50); [lia|].
    replace (loc (dropna (pct_change stock_data)) (tl (index stock_data)))
      with (Ok (dropna (pct_change stock_data)))
      by (symmetry; rewrite <- (index_dropna_pct_change stock_data); apply loc_self;
          rewrite index_dropna_pct_change; now apply NoDup_tl).
    replace (loc (dropna (pct_change market_data)) (tl (index stock_data)))
      with (Ok (dropna (pct_change market_data)))
      by (symmetry; rewrite Hi, <- (index_dropna_pct_change market_data); apply loc_self;
          rewrite index_dropna_pct_change, <- Hi; now apply NoDup_tl).
    reflexivity.
  - intros Hn. unfold Corrected.align_returns.
    rewrite !index_dropna_pct_change, <- Hi.
    rewrite intersection_self by now apply NoDup_tl.
    assert (Lt : length (tl (index stock_data)) = (length stock_data - 1)%nat).
    { rewrite <- (index_length stock_data). destruct (index stock_data); cbn; lia. }
    rewrite Lt. destruct (Nat.ltb_spec (length stock_data - 1) 50); [reflexivity|lia].
Qed.

End FixedWhole.

(** X6.  On two histories that carry the same increasing dates, at
    least 51 of them, calculate_beta_simple and calculate_beta_fixed
    work on the same return arrays: whenever the first returns a
    report the second returns one with the same overall beta, number
    of data points and day counts.  With exactly 50 dates the first
    still estimates on 49 returns while the second returns None. *)
Theorem simple_and_fixed_agree_on_same_dates (stock_data market_data : DataFrame) :
  index stock_data = index market_data ->
  StronglySorted Z.lt (index stock_data) ->
  ((51 <= length stock_data)%nat ->
   forall r,
     fst (Beta5Year.calculate_beta_simple (Some stock_data) (Some market_data)) = Some r ->
     exists r',
       Corrected.calculate_beta_fixed (Some stock_data) (Some market_data) = Ok (Some r') /\
       Corrected.traditional_beta r' = Beta5Year.beta r /\
       Corrected.data_points r' = Beta5Year.data_points r /\
       Corrected.positive_days r' = Beta5Year.positive_days r /\
       Corrected.negative_days r' = Beta5Year.negative_days r) /\
  (length stock_data = 50%nat ->
   Corrected.calculate_beta_fixed (Some stock_data) (Some market_data) = Ok None /\
   Beta5Year.align_on_common_dates stock_data market_data
   = Ok (Some (values (dropna (pct_change stock_data)),
               values (dropna (pct_change market_data)))) /\
   length (values (dropna (pct_change stock_data))) = 49%nat).
Proof.
  intros Hi Hs.
  destruct (alignments_on_same_dates stock_data market_data Hi Hs)
    as (Hl & Ls & Hsimple & Hfixed & Hshort).
  split.
  - intros Hn r Hr.
    destruct (calculate_beta_simple_report _ _ _ Hr) as (sr & mr & Ea & _ & _ & He).
    rewrite Hsimple in Ea by lia. injection Ea as <- <-.
    unfold Corrected.calculate_beta_fixed. rewrite Hfixed by auto. cbn [exc_bind].
    destruct (estimate_shape _ _ Hl) as [c [Hc E]]. rewrite E in He.
    destruct (fixed_estimate_shape (length (tl (index stock_data))) _ _ Hl) as [c' [Hc' E']].
    rewrite Hc in Hc'. injection Hc' as <-. rewrite E'.
    destruct (feq0 (np_var (values (dropna (pct_change market_data))))); [discriminate|].
    injection He as <-. eexists. split; [reflexivity|]. cbn.
    repeat split; auto.
    rewrite Ls, <- (index_length stock_data). destruct (index stock_data); cbn; lia.
  - intros Hn. split; [|split].
    + unfold Corrected.calculate_beta_fixed. now rewrite Hshort by lia.
    + apply Hsimple. lia.
    + rewrite Ls. lia.
Qed.

(** X7.  Whenever calculate_beta_fixed returns a report, its
    traditional beta is the beta the script computes by hand above it
    from the same two close columns (the check the script prints as
    "This matches our manual calculation"). *)
Theorem fixed_function_matches_manual_calculation
  (nvda_prices spy_prices : Series price) (r : Corrected.FixedResult) :
  Corrected.calculate_beta_fixed (Some nvda_prices) (Some spy_prices) = Ok (Some r) ->
  CorrectedScript.manual_beta nvda_prices spy_prices = Ok (Corrected.traditional_beta r).
Proof.
  unfold Corrected.calculate_beta_fixed, Corrected.align_returns, CorrectedScript.manual_beta.
  set (common := intersection (index (dropna (pct_change nvda_prices)))
                              (index (dropna (pct_change spy_prices)))).
  destruct (length common <? 50)%nat; [discriminate|].
  destruct (loc (dropna (pct_change nvda_prices)) common) as [srows|]; [|discriminate].
  destruct (loc (dropna (pct_change spy_prices)) common) as [mrows|]; [|discriminate].
  cbn [exc_bind]. unfold Corrected.estimate.
  destruct (np_cov (values srows) (values mrows)) as [c|]; [|discriminate].
  cbn [exc_bind].
  destruct (feq0 (np_var (values mrows))); [discriminate|].
  destruct (Corrected.directional_beta _ _ (gt0_mask _)) as [pb|]; [|discriminate].
  destruct (Corrected.directional_beta _ _ (lt0_mask _)) as [nb|]; [|discriminate].
  cbn [exc_bind]. intros E. injection E as <-. reflexivity.
Qed.

(** X8.  In a report of calculate_beta_fixed the beta_ratio is a
    number exactly when both directional betas are present and
    neither is zero, and it is then their quotient, a finite number;
    it is None as soon as one of them is missing or zero. *)
Theorem beta_ratio_rule (n : nat) (sr mr : list Q) (r : Corrected.FixedResult) :
  length sr = length mr ->
  Corrected.estimate n sr mr = Ok (Some r) ->
  (forall x, Corrected.beta_ratio r = Some x ->
     exists p q,
       Corrected.positive_beta r = Some (Finite p) /\
       Corrected.negative_beta r = Some (Finite q) /\
       ~ p == 0 /\ ~ q == 0 /\ x = Finite (p / q)) /\
  (forall p q,
     Corrected.positive_beta r = Some (Finite p) ->
     Corrected.negative_beta r = Some (Finite q) ->
     ~ p == 0 -> ~ q == 0 ->
     Corrected.beta_ratio r = Some (Finite (p / q))) /\
  (Corrected.positive_beta r = None \/ Corrected.negative_beta r = None ->
   Corrected.beta_ratio r = None) /\
  (forall p, Corrected.positive_beta r = Some (Finite p) -> p == 0 ->
     Corrected.beta_ratio r = None) /\
  (forall q, Corrected.negative_beta r = Some (Finite q) -> q == 0 ->
     Corrected.beta_ratio r = None).
Proof.
  intros Hl He. destruct (fixed_estimate_shape n sr mr Hl) as [c [_ E]].
  rewrite E in He. destruct (feq0 (np_var mr)); [discriminate|].
  cbv zeta in He. injection He as <-.
  cbn [Corrected.beta_ratio Corrected.positive_beta Corrected.negative_beta].
  set (pb := directional_value 20 sr mr (gt0_mask mr)).
  set (nb := directional_value 20 sr mr (lt0_mask mr)).
  assert (Fp : forall x, pb = Some x -> exists p, x = Finite p).
  { intros x Hx. apply directional_value_finite in Hx. destruct x; try discriminate.
    now exists q. }
  assert (Fn : forall x, nb = Some x -> exists q, x = Finite q).
  { intros x Hx. apply directional_value_finite in Hx. destruct x; try discriminate.
    now exists q. }
  split; [|split; [|split; [|split]]].
  - intros x Hx. destruct pb as [xp|] eqn:Ep.
    2: { rewrite ratio_of_missing in Hx by auto. discriminate. }
    destruct nb as [xn|] eqn:En.
    2: { rewrite ratio_of_missing in Hx by auto. discriminate. }
    destruct (Fp xp eq_refl) as [p ->]. destruct (Fn xn eq_refl) as [q ->].
    exists p, q.
    destruct (Qeq_bool p 0) eqn:Zp.
    { apply Qeq_bool_iff in Zp. rewrite ratio_of_zero_positive in Hx by auto. discriminate. }
    destruct (Qeq_bool q 0) eqn:Zq.
    { apply Qeq_bool_iff in Zq. rewrite ratio_of_zero_negative in Hx by auto. discriminate. }
    apply Qeq_bool_false_iff in Zp, Zq.
    rewrite ratio_of_nonzero in Hx by auto. injection Hx as <-. auto.
  - intros p q -> -> Hp Hq. now apply ratio_of_nonzero.
  - intros H. now apply ratio_of_missing.
  - intros p -> Hp. now apply ratio_of_zero_positive.
  - intros q -> Hq. now apply ratio_of_zero_negative.
Qed.

(** ** The two positive-beta methods of compare_positive_beta_methods.py *)

Section TwoMethods.

Import CompareMethods.

Lemma regression_method_shape (sr mr : list Q) :
  length sr = length mr ->
  (5 < np_sum_mask (gt0_mask mr))%nat ->
  0 < sum_sq_dev (masked mr (gt0_mask mr)) ->
  calculate_positive_beta_regression_method sr mr
  = Ok (Some (Finite (pop_cov (masked mr (gt0_mask mr)) (masked sr (gt0_mask mr))
                      / variance 0 (masked mr (gt0_mask mr)))),
        np_sum_mask (gt0_mask mr)).
Proof.
  intros Hl Hk Hs. unfold calculate_positive_beta_regression_method.
  destruct (Nat.ltb_spec 5 (np_sum_mask (gt0_mask mr))); [|lia].
  assert (Hs' : length sr = length (gt0_mask mr)) by now rewrite gt0_mask_length.
  assert (Hm' : length mr = length (gt0_mask mr)) by now rewrite gt0_mask_length.
  rewrite (bool_index_ok sr _ Hs'), (bool_index_ok mr _ Hm'). cbn [exc_bind].
  pose proof (masked_length sr _ Hs') as Ls.
  pose proof (masked_length mr _ Hm') as Lm.
  destruct (Nat.ltb_spec 1 (length (masked sr (gt0_mask mr)))); [|lia].
  rewrite linregress_slope_ok by (auto; lia). reflexivity.
Qed.

Lemma percent_difference (kq x y : Q) :
  20 < kq -> ~ y == 0 -> x == kq / (kq - 1) * y ->
  (y - x) / x * 100 == - (100 / kq).
Proof.
  intros Hk Hy Hx. rewrite Hx. field. repeat split; try lra; auto.
Qed.

End TwoMethods.

(** X9.  The two positive-beta methods of
    compare_positive_beta_methods.py as formulas, their statistics
    computed without rounding: whenever both return a beta, they
    count the same k positive days (more than 20), and the original
    beta is k / (k - 1) times the regression beta.  Unless the
    original beta is zero, the difference in percent of the original
    beta, which test_both_methods prints, is therefore -100 / k. *)
Theorem positive_beta_methods_differ_by_the_ddof_factor
  (sr mr : list Q) (o g : float64) (k k' : nat) :
  length sr = length mr ->
  ComparePositive.calculate_positive_beta_original_method sr mr = Ok (Some o, k) ->
  CompareMethods.calculate_positive_beta_regression_method sr mr = Ok (Some g, k') ->
  k' = k /\
  (20 < k)%nat /\
  exists x y,
    o = Finite x /\ g = Finite y /\
    x == (inject_Z (Z.of_nat k) / (inject_Z (Z.of_nat k) - 1)) * y /\
    (~ x == 0 -> (y - x) / x * 100 == - (100 / inject_Z (Z.of_nat k))).
Proof.
  intros Hl Ho Hg.
  rewrite positive_beta_original_method_shape in Ho by auto.
  injection Ho as Hv Hk.
  assert (Hm : length mr = length (gt0_mask mr)) by now rewrite gt0_mask_length.
  assert (Hs : length sr = length (gt0_mask mr)) by now rewrite gt0_mask_length.
  destruct (directional_value_cases 20 sr mr (gt0_mask mr) Hm)
    as [(Hk20 & Hvar & _ & E)|[_ E]]; rewrite E in Hv; [|discriminate].
  injection Hv as <-.
  set (sp := masked sr (gt0_mask mr)) in *. set (mp := masked mr (gt0_mask mr)) in *.
  pose proof (masked_length sr _ Hs) as Ls. pose proof (masked_length mr _ Hm) as Lm.
  fold sp in Ls. fold mp in Lm.
  assert (Hne : mp <> []) by (intros Z; rewrite Z in Lm; cbn in Lm; lia).
  assert (Hssd : 0 < sum_sq_dev mp) by now apply variance0_pos_iff.
  rewrite regression_method_shape in Hg by (auto; lia).
  injection Hg as <- <-. fold sp mp. rewrite Hk in *.
  assert (Kp : 20 < inject_Z (Z.of_nat k)).
  { replace 20 with (inject_Z 20) by reflexivity. rewrite <- Zlt_Qlt. lia. }
  assert (E1 : inject_Z (Z.of_nat (k - 1)) == inject_Z (Z.of_nat k) - 1).
  { rewrite Nat2Z.inj_sub by lia. unfold Z.sub. rewrite inject_Z_plus, inject_Z_opp.
    reflexivity. }
  assert (Rel : sample_cov sp mp / variance 0 mp
                == (inject_Z (Z.of_nat k) / (inject_Z (Z.of_nat k) - 1))
                   * (pop_cov mp sp / variance 0 mp)).
  { unfold sample_cov, pop_cov, variance, Qlen.
    rewrite Nat.sub_0_r, Ls, Lm, E1, (sum_cross_dev_sym sp mp).
    field. repeat split; lra. }
  split; [reflexivity|]. split; [exact Hk20|].
  exists (sample_cov sp mp / variance 0 mp), (pop_cov mp sp / variance 0 mp).
  split; [reflexivity|]. split; [reflexivity|]. split; [exact Rel|].
  intros Hx.
  assert (Hy : ~ pop_cov mp sp / variance 0 mp == 0).
  { intros Hy. apply Hx. rewrite Rel, Hy. ring. }
  now apply percent_difference.
Qed.

(** ** analyze_nvidia_beta_periods *)

Section AnalyzePeriods.

Import AnalyzeNvidia.

Lemma paired_returns_lengths (a b : DataFrame) :
  length (fst (paired_returns a b)) = Nat.min (length a - 1) (length b - 1) /\
  length (snd (paired_returns a b)) = Nat.min (length a - 1) (length b - 1).
Proof.
  unfold paired_returns. cbn [fst snd].
  rewrite !length_firstn, !dropna_pct_change_length. lia.
Qed.

Lemma period_beta_unfold (a b : DataFrame) :
  period_beta a b =
  if (50 <? length a)%nat && (50 <? Nat.min (length a - 1) (length b - 1))%nat
  then Ok (Some (fdiv (Finite (sample_cov (values (fst (paired_returns a b)))
                                          (values (snd (paired_returns a b)))))
                      (Finite (variance 0 (values (snd (paired_returns a b)))))))
  else Ok None.
Proof.
  unfold period_beta.
  destruct (paired_returns_lengths a b) as [L1 L2].
  destruct (paired_returns a b) as [x y]. cbn [fst snd] in *.
  destruct (50 <? length a)%nat; cbn [andb]; auto.
  rewrite values_length, L1.
  destruct (Nat.ltb_spec 50 (Nat.min (length a - 1) (length b - 1))); auto.
  rewrite np_cov_finite by (rewrite !values_length; lia). cbn [exc_bind].
  rewrite np_var_nonempty; auto.
  intros E. apply (f_equal (@length Q)) in E. rewrite values_length in E.
  cbn in E. lia.
Qed.

Lemma sum_cross_dev_flat (x y : list Q) :
  (forall v, In v y -> v == mean y) -> sum_cross_dev x y == 0.
Proof.
  intros H. unfold sum_cross_dev. cbv zeta.
  rewrite (Qsum_map_ext _ (fun _ => 0)).
  - rewrite (Qsum_const 0); [ring|].
    intros v Hv. apply in_map_iff in Hv. destruct Hv as [w [<- _]]. reflexivity.
  - intros [u v] Huv. cbn [fst snd].
    assert (Hv : v == mean y) by (apply H; eapply in_combine_r; eauto).
    rewrite Hv. ring.
Qed.

Lemma flat_prices_flat_returns (p : Q) (s : Series price) (prev : price) :
  price_val prev == p -> (forall row, In row s -> price_val (snd row) == p) ->
  forall row, In row (dropna (pct_change_from prev s)) -> snd row == 0.
Proof.
  revert prev. induction s as [|[t q] s IH]; intros prev Hp H row Hr; [destruct Hr|].
  cbn [pct_change_from dropna] in Hr.
  assert (Hq : price_val q == p) by (apply (H (t, q)); now left).
  destruct Hr as [<-|Hr].
  - cbn [snd]. rewrite Hq, Hp. unfold Qdiv. ring.
  - apply (IH q); auto. intros r Hin. apply H. now right.
Qed.

Lemma firstn_In {A : Type} (n : nat) (l : list A) (a : A) : In a (firstn n l) -> In a l.
Proof.
  revert l. induction n as [|n IH]; intros l H.
  - destruct l; destruct H.
  - destruct l as [|b l]; [destruct H|].
    cbn [firstn] in H. destruct H as [<-|H]; [now left|right; auto].
Qed.

Lemma index_firstn {A : Type} (n : nat) (s : Series A) :
  index (firstn n s) = firstn n (index s).
Proof. unfold index. symmetry. apply firstn_map. Qed.

End AnalyzePeriods.

(** X10.  The loop body of analyze_nvidia_beta_periods raises nothing.
    It prints a beta exactly when the stock's download has more than
    50 rows and more than 50 returns can be paired, the number paired
    being the smaller of the two return counts.  When the two
    downloads carry the same dates, the positional pairing joins
    returns of equal timestamps. *)
Theorem period_beta_guards (nvda_period spy_period : DataFrame) :
  (exists o, AnalyzeNvidia.period_beta nvda_period spy_period = Ok o) /\
  (AnalyzeNvidia.period_beta nvda_period spy_period = Ok None <->
   (length nvda_period <= 50)%nat \/
   (Nat.min (length nvda_period - 1) (length spy_period - 1) <= 50)%nat) /\
  length (fst (AnalyzeNvidia.paired_returns nvda_period spy_period))
  = Nat.min (length nvda_period - 1) (length spy_period - 1) /\
  (index nvda_period = index spy_period ->
   index (fst (AnalyzeNvidia.paired_returns nvda_period spy_period))
   = index (snd (AnalyzeNvidia.paired_returns nvda_period spy_period))).
Proof.
  rewrite period_beta_unfold.
  split; [|split; [|split]].
  - destruct (_ && _); eauto.
  - destruct (Nat.ltb_spec 50 (length nvda_period));
      destruct (Nat.ltb_spec 50 (Nat.min (length nvda_period - 1) (length spy_period - 1)));
      cbn [andb]; split; intros H1; auto; try discriminate; lia.
  - apply paired_returns_lengths.
  - intros Hi. unfold AnalyzeNvidia.paired_returns. cbn [fst snd].
    now rewrite !index_firstn, !index_dropna_pct_change, Hi.
Qed.

(** X11.  The division of analyze_nvidia_beta_periods is not guarded:
    for a benchmark whose closes are all one price, with enough rows
    to pass the two length tests, the beta it computes is nan. *)
Theorem period_beta_of_flat_benchmark_is_nan
  (nvda_period spy_period : DataFrame) (p : Q) :
  (50 < length nvda_period)%nat ->
  (50 < Nat.min (length nvda_period - 1) (length spy_period - 1))%nat ->
  (forall row, In row spy_period -> price_val (snd row) == p) ->
  AnalyzeNvidia.period_beta nvda_period spy_period = Ok (Some NaN).
Proof.
  intros Ha Hm Hflat. rewrite period_beta_unfold.
  rewrite (proj2 (Nat.ltb_lt _ _) Ha), (proj2 (Nat.ltb_lt _ _) Hm). cbn [andb].
  set (x := values (fst (AnalyzeNvidia.paired_returns nvda_period spy_period))).
  set (y := values (snd (AnalyzeNvidia.paired_returns nvda_period spy_period))).
  assert (Hy : forall v, In v y -> v == 0).
  { intros v Hv. unfold y, values in Hv. apply in_map_iff in Hv.
    destruct Hv as [row [<- Hr]]. unfold AnalyzeNvidia.paired_returns in Hr.
    cbn [snd] in Hr. apply firstn_In in Hr.
    destruct spy_period as [|[t0 p0] s]; [destruct Hr|].
    cbn [pct_change dropna] in Hr.
    apply (flat_prices_flat_returns p s p0); auto.
    - apply (Hflat (t0, p0)). now left.
    - intros r Hin. apply Hflat. now right. }
  assert (Ly : length y = Nat.min (length nvda_period - 1) (length spy_period - 1)).
  { unfold y. rewrite values_length. apply paired_returns_lengths. }
  assert (Hne : y <> []) by (intros E; rewrite E in Ly; cbn in Ly; lia).
  assert (Hvar : variance 0 y == 0) by now apply (variance0_const 0).
  assert (Hmean : forall v, In v y -> v == mean y).
  { intros v Hv. assert (E0 : v == 0) by now apply Hy.
    assert (Em : mean y == 0) by now apply mean_const. rewrite E0, Em. reflexivity. }
  assert (Hcov : sample_cov x y == 0).
  { unfold sample_cov. rewrite (sum_cross_dev_flat x y Hmean). unfold Qdiv. ring. }
  cbn [fdiv].
  now rewrite (proj2 (Qeq_bool_iff _ _) Hvar), (proj2 (Qeq_bool_iff _ _) Hcov).
Qed.

(** ** calculate_beta_monthly and the tables of its main *)

Section MonthlyFacts.

Lemma loc_length {A : Type} (s : Series A) (labels : list Z) (rows : Series A) :
  loc s labels = Ok rows -> (length labels <= length rows)%nat.
Proof.
  revert rows. induction labels as [|t labels IH]; intros rows H; cbn [loc] in H.
  - injection H as <-. cbn. lia.
  - destruct (filter (fun row => (fst row =? t)%Z) s) as [|r rs]; [discriminate|].
    destruct (loc s labels) as [rest|]; [|discriminate].
    cbn [exc_bind] in H. injection H as <-.
    specialize (IH rest eq_refl). cbn [app length]. rewrite ?length_app. lia.
Qed.

Lemma np_cov_ok_lengths {stats : Statistics} (x y : list Q) (c : float64) :
  np_cov x y = Ok c -> length x = length y.
Proof.
  unfold np_cov. destruct (Nat.eqb_spec (length x) (length y)); auto. discriminate.
Qed.

Lemma monthly_estimate_lengths (sr mr : list Q) (r : Monthly.MonthlyResult) :
  Monthly.estimate sr mr = Ok (Some r) -> length sr = length mr.
Proof.
  unfold Monthly.estimate.
  destruct (np_cov sr mr) as [c|] eqn:Hc; [|discriminate].
  intros _. now apply np_cov_ok_lengths in Hc.
Qed.

End MonthlyFacts.

(** X12.  calculate_beta_monthly returns None without printing when a
    frame is None or has no rows.  A report it returns was computed
    without an exception, on at least 24 months; its overall beta is
    finite, and its positive and negative month counts together do
    not exceed the number of months. *)
Theorem calculate_beta_monthly_report
  (resample_last_pct_change : DataFrame -> Series (option Q))
  (stock_data market_data : option DataFrame) :
  (stock_data = None \/ stock_data = Some [] \/
   market_data = None \/ market_data = Some [] ->
   Monthly.calculate_beta_monthly resample_last_pct_change stock_data market_data
   = (None, [])) /\
  (forall r log,
     Monthly.calculate_beta_monthly resample_last_pct_change stock_data market_data
     = (Some r, log) ->
     log = [] /\
     (24 <= Monthly.months r)%nat /\
     is_finite (Monthly.beta r) = true /\
     (Monthly.positive_months r + Monthly.negative_months r <= Monthly.months r)%nat).
Proof.
  split.
  - unfold Monthly.calculate_beta_monthly, Monthly.calculate_beta_monthly_body,
      Monthly.resample_to_monthly.
    intros [ -> | [ -> | [ -> | -> ] ] ]; cbn [length Nat.eqb]; auto;
      destruct stock_data as [[|row df]|]; reflexivity.
  - intros r log.
    unfold Monthly.calculate_beta_monthly, Monthly.calculate_beta_monthly_body.
    destruct (Monthly.resample_to_monthly _ stock_data) as [sm|]; [|discriminate].
    destruct (Monthly.resample_to_monthly _ market_data) as [mm|]; [|discriminate].
    set (common := intersection (index sm) (index mm)).
    destruct (Nat.ltb_spec (length common) 24) as [|Hc]; [discriminate|].
    destruct (loc sm common) as [srows|] eqn:Es; [|discriminate].
    destruct (loc mm common) as [mrows|] eqn:Em; [|discriminate].
    cbn [exc_bind].
    destruct (Monthly.estimate (values srows) (values mrows)) as [[r'|]|] eqn:He;
      try discriminate.
    intros E. injection E as <- <-.
    pose proof (monthly_estimate_lengths _ _ _ He) as Hl.
    pose proof (loc_length _ _ _ Es) as Ls.
    destruct (monthly_estimate_shape _ _ Hl) as [c [Hcov E]]. rewrite E in He.
    assert (Hn : (24 <= length (values srows))%nat) by (rewrite values_length; lia).
    rewrite np_cov_finite in Hcov by (auto; lia). injection Hcov as <-.
    assert (Hne : values mrows <> []).
    { intros Z. rewrite Z in Hl. cbn in Hl. lia. }
    rewrite (np_var_nonempty _ Hne) in He. cbn [feq0] in He.
    destruct (Qeq_bool (variance 0 (values mrows)) 0) eqn:Hz; [discriminate|].
    apply Qeq_bool_false_iff in Hz. injection He as <-.
    cbn [Monthly.beta Monthly.months Monthly.positive_months Monthly.negative_months].
    split; [reflexivity|]. split; [exact Hn|].
    split; [now rewrite (proj2 (Qeq_bool_false_iff _ _) Hz)|]. rewrite Hl. apply mask_counts.
Qed.

(** X13.  The results table of monthly_beta_10year.py never shows nan:
    a directional beta that calculate_beta_monthly left out (5 months
    or fewer on that side, or no variance) is listed as 0, and a beta
    that was computed is listed as it is. *)
Theorem monthly_table_lists_missing_beta_as_zero
  (sr mr : list Q) (r : Monthly.MonthlyResult) :
  length sr = length mr ->
  Monthly.estimate sr mr = Ok (Some r) ->
  ((Monthly.positive_months r <= 5)%nat ->
   MonthlyMain.table_beta (Monthly.positive_beta r) = Finite 0) /\
  ((Monthly.negative_months r <= 5)%nat ->
   MonthlyMain.table_beta (Monthly.negative_beta r) = Finite 0) /\
  (forall x, Monthly.positive_beta r = Some x ->
     MonthlyMain.table_beta (Monthly.positive_beta r) = x) /\
  (forall x, Monthly.negative_beta r = Some x ->
     MonthlyMain.table_beta (Monthly.negative_beta r) = x) /\
  is_finite (MonthlyMain.table_beta (Monthly.positive_beta r)) = true /\
  is_finite (MonthlyMain.table_beta (Monthly.negative_beta r)) = true.
Proof.
  intros Hl He. destruct (monthly_estimate_shape sr mr Hl) as [c [_ E]].
  rewrite E in He. destruct (feq0 (np_var mr)); [discriminate|]. injection He as <-.
  cbn [Monthly.positive_beta Monthly.negative_beta Monthly.positive_months
       Monthly.negative_months].
  assert (Hrule : forall mask, length mr = length mask ->
            ((np_sum_mask mask <= 5)%nat ->
             MonthlyMain.table_beta (directional_value 5 sr mr mask) = Finite 0) /\
            (forall x, directional_value 5 sr mr mask = Some x ->
               MonthlyMain.table_beta (directional_value 5 sr mr mask) = x) /\
            is_finite (MonthlyMain.table_beta (directional_value 5 sr mr mask)) = true).
  { intros mask Hm.
    destruct (directional_value_cases 5 sr mr mask Hm) as [(Hk & _ & _ & ->)|[_ ->]].
    - split; [lia|]. split; [|reflexivity]. intros x Hx. now injection Hx as <-.
    - split; [reflexivity|]. split; [discriminate|reflexivity]. }
  destruct (Hrule (gt0_mask mr)) as (P1 & P2 & P3); [now rewrite gt0_mask_length|].
  destruct (Hrule (lt0_mask mr)) as (N1 & N2 & N3); [now rewrite lt0_mask_length|].
  repeat split; auto.
Qed.

(** X14.  The market regime breakdown of monthly_beta_10year.py counts
    every month that is not positive as negative: its negative count
    is the number of negative months plus the number of flat months,
    so it exceeds the negative_months of calculate_beta_monthly by the
    number of months with a return of exactly zero. *)
Theorem regime_breakdown_counts_flat_months_as_negative (market_monthly : Series Q) :
  let mr := values market_monthly in
  MonthlyMain.regime_breakdown market_monthly
  = (length market_monthly,
     np_sum_mask (gt0_mask mr),
     (np_sum_mask (lt0_mask mr) + np_sum_mask (eq0_mask mr))%nat).
Proof.
  cbv zeta. unfold MonthlyMain.regime_breakdown.
  assert (Hp : length (filter (fun row : Z * Q => Qlt_bool 0 (snd row)) market_monthly)
               = np_sum_mask (gt0_mask (values market_monthly))).
  { unfold np_sum_mask, gt0_mask, values.
    induction market_monthly as [|[t v] s IH]; cbn [filter map snd length]; auto.
    destruct (Qlt_bool 0 v); cbn [length]; now rewrite IH. }
  rewrite Hp. f_equal.
  assert (Ht : length market_monthly
               = (np_sum_mask (gt0_mask (values market_monthly))
                  + np_sum_mask (lt0_mask (values market_monthly))
                  + np_sum_mask (eq0_mask (values market_monthly)))%nat).
  { unfold np_sum_mask, gt0_mask, lt0_mask, eq0_mask, values. clear Hp.
    induction market_monthly as [|[t v] s IH]; cbn [filter map snd length]; auto.
    destruct (sign_cases v) as [(E1 & E2 & E3)|[(E1 & E2 & E3)|(E1 & E2 & E3)]];
      rewrite E1, E2, E3; cbn [length]; lia. }
  lia.
Qed.

(** ** yahoo_beta_replication.py: one sampling method, and the best match *)

Section YahooFacts.

Lemma not_all_equal_deviates (x0 : Q) (x : list Q) :
  In x0 x -> forallb (fun v => Qeq_bool v x0) x = false -> 0 < sum_sq_dev x.
Proof.
  intros Hin Hall. destruct (Qlt_le_dec 0 (sum_sq_dev x)) as [|Hle]; auto.
  pose proof (sum_sq_dev_nonneg x).
  assert (Hz : sum_sq_dev x == 0) by lra.
  rewrite sum_sq_dev_zero_iff in Hz.
  assert (Ht : forallb (fun v => Qeq_bool v x0) x = true).
  { apply forallb_forall. intros v Hv. apply Qeq_bool_iff.
    rewrite (Hz v Hv), (Hz x0 Hin). reflexivity. }
  congruence.
Qed.

Lemma linregress_slope_ok_inv (x y : list Q) (c : float64) :
  (2 <= length x)%nat -> linregress_slope x y = Ok c ->
  length x = length y /\ 0 < sum_sq_dev x.
Proof.
  intros Hn. unfold linregress_slope.
  destruct x as [|x0 x']; [discriminate|].
  set (x := x0 :: x') in *.
  destruct (Nat.eqb_spec (length x) (length y)) as [Hl|]; [|discriminate].
  cbn [negb].
  destruct (Nat.ltb_spec 1 (length x)); [|lia]. cbn [andb].
  destruct (forallb (fun v => Qeq_bool v x0) x) eqn:Hall; [discriminate|].
  intros _. split; auto. apply (not_all_equal_deviates x0); auto. now left.
Qed.

Lemma sample_variance_pos (x : list Q) :
  (2 <= length x)%nat -> 0 < sum_sq_dev x -> 0 < variance 1 x.
Proof.
  intros Hn Hs. unfold variance.
  assert (Hp : 0 < inject_Z (Z.of_nat (length x - 1))) by (apply inject_nat_pos; lia).
  apply Qlt_shift_div_l; lra.
Qed.

Lemma tail_length {A : Type} (n : nat) (l : list A) :
  length (YahooLoop.tail n l) = Nat.min n (length l).
Proof. unfold YahooLoop.tail. rewrite length_skipn. lia. Qed.

Lemma tail_short {A : Type} (n : nat) (l : list A) :
  (length l <= n)%nat -> YahooLoop.tail n l = l.
Proof.
  intros H. unfold YahooLoop.tail.
  replace (length l - n)%nat with 0%nat by lia. reflexivity.
Qed.

Lemma tail_if_over {A : Type} (l : list A) :
  (if (60 <? length l)%nat then YahooLoop.tail 60 l else l) = YahooLoop.tail 60 l.
Proof.
  destruct (Nat.ltb_spec 60 (length l)); auto. symmetry. now apply tail_short.
Qed.

Lemma index_tail {A : Type} (n : nat) (s : Series A) :
  index (YahooLoop.tail n s) = YahooLoop.tail n (index s).
Proof.
  unfold YahooLoop.tail, index. now rewrite skipn_map, length_map.
Qed.

Lemma increasing_skipn (n : nat) (l : list Z) :
  StronglySorted Z.lt l -> StronglySorted Z.lt (skipn n l).
Proof.
  revert l. induction n as [|n IH]; intros l H; [exact H|].
  destruct l as [|a l]; [exact H|]. cbn [skipn]. apply IH.
  now inversion H.
Qed.

Lemma last_nonempty_In (b : Z) (l : list Z) (a : Z) : In (last (b :: l) a) (b :: l).
Proof.
  revert b. induction l as [|c l IH]; intros b; [now left|].
  right. change (last (b :: c :: l) a) with (last (c :: l) a). apply IH.
Qed.

Lemma increasing_first_le_last (a : Z) (l : list Z) :
  StronglySorted Z.lt (a :: l) -> (a <= last l a)%Z.
Proof.
  intros H. inversion H as [|? ? _ Hall]; subst.
  destruct l as [|b l]; [cbn; lia|].
  rewrite Forall_forall in Hall.
  specialize (Hall _ (last_nonempty_In b l a)). lia.
Qed.

End YahooFacts.

(** X15.  One sampling method of get_yahoo_style_beta: a result row is
    made from at least 12 and at most 60 monthly returns; its
    covariance/variance beta and its regression beta are finite and
    equal.  When both price series have increasing dates, the window
    is the last 60 common dates (all of them when there are fewer),
    and the row's start and end dates are its first and last date. *)
Theorem yahoo_method_result_window
  (stock_monthly market_monthly : Series price) (r : YahooLoop.MethodResult) :
  YahooLoop.method_result stock_monthly market_monthly = Ok (Some r) ->
  let common := intersection (index (dropna (pct_change stock_monthly)))
                             (index (dropna (pct_change market_monthly))) in
  (12 <= YahooLoop.Months r <= 60)%nat /\
  (exists a b, YahooLoop.Beta_CovVar r = Finite a /\
               YahooLoop.Beta_Regression r = Finite b /\ a == b) /\
  (StronglySorted Z.lt (index stock_monthly) ->
   StronglySorted Z.lt (index market_monthly) ->
   YahooLoop.Months r = Nat.min 60 (length common) /\
   (exists rest, YahooLoop.tail 60 common = YahooLoop.Start_Date r :: rest /\
                 YahooLoop.End_Date r = last rest (YahooLoop.Start_Date r)) /\
   (YahooLoop.Start_Date r <= YahooLoop.End_Date r)%Z).
Proof.
  cbv zeta. unfold YahooLoop.method_result.
  set (sret := dropna (pct_change stock_monthly)).
  set (mret := dropna (pct_change market_monthly)).
  set (common := intersection (index sret) (index mret)).
  destruct (Nat.ltb_spec (length common) 12) as [|Hc]; [discriminate|].
  destruct (loc sret common) as [sall|] eqn:Es; [|discriminate].
  destruct (loc mret common) as [mall|] eqn:Em; [|discriminate].
  cbn [exc_bind]. rewrite (tail_if_over sall).
  set (sw := YahooLoop.tail 60 sall).
  set (mw := if (60 <? length sall)%nat then YahooLoop.tail 60 mall else mall).
  destruct (index sw) as [|start rest] eqn:Ei; [discriminate|].
  cbn [YahooLoop.first_label YahooLoop.last_label exc_bind].
  destruct (YahooReplication.beta_a (values sw) (values mw)) as [ba|] eqn:Ha;
    [|discriminate].
  destruct (YahooReplication.beta_b (values sw) (values mw)) as [bb|] eqn:Hb;
    [|discriminate].
  cbn [exc_bind]. intros E. injection E as <-.
  cbn [YahooLoop.Months YahooLoop.Beta_CovVar YahooLoop.Beta_Regression
       YahooLoop.Start_Date YahooLoop.End_Date].
  pose proof (loc_length _ _ _ Es) as Ls.
  assert (Lw : length sw = Nat.min 60 (length sall)) by apply tail_length.
  assert (Hl : length (values sw) = length (values mw)).
  { unfold YahooReplication.beta_a in Ha.
    destruct (np_cov (values sw) (values mw)) as [c|] eqn:Hcov; [|discriminate].
    now apply np_cov_ok_lengths in Hcov. }
  assert (Hn : (2 <= length (values mw))%nat) by (rewrite <- Hl, values_length; lia).
  unfold YahooReplication.beta_b in Hb.
  destruct (linregress_slope_ok_inv _ _ _ Hn Hb) as [_ Hs].
  split; [lia|]. split.
  - exists (sample_cov (values sw) (values mw) / variance 1 (values mw)),
           (pop_cov (values mw) (values sw) / variance 0 (values mw)).
    pose proof (sample_variance_pos _ Hn Hs) as Hv.
    split; [|split].
    + unfold YahooReplication.beta_a in Ha.
      rewrite np_cov_finite in Ha by (auto; lia). cbn [exc_bind] in Ha.
      rewrite np_var_ddof1 in Ha by auto.
      rewrite fdiv_finite in Ha by lra. congruence.
    + rewrite linregress_slope_ok in Hb by auto. congruence.
    + now apply quotients_agree.
  - intros Ss Sm.
    assert (Sr : StronglySorted Z.lt (index sret)).
    { unfold sret. rewrite index_dropna_pct_change. now apply increasing_tl. }
    destruct (loc_rows sret common) as [rows (Er & Eri & _)].
    { now apply increasing_NoDup. }
    { intros t Ht. now apply intersection_In in Ht. }
    rewrite Er in Es. injection Es as ->.
    assert (Ew : YahooLoop.tail 60 common = start :: rest).
    { rewrite <- Eri, <- index_tail. exact Ei. }
    split; [|split].
    + rewrite Lw. f_equal. rewrite <- Eri. symmetry. apply index_length.
    + now exists rest.
    + apply increasing_first_le_last. rewrite <- Ew. unfold YahooLoop.tail.
      apply increasing_skipn. now apply intersection_increasing.
Qed.

Section BestMatch.

Context {A : Type} (beta_of : A -> float64).

Lemma best_step_keeps (seen : list A) (st : option A * float64) (row : A) :
  best_so_far beta_of seen st ->
  best_so_far beta_of (seen ++ [row]) (YahooLoop.best_step beta_of st row).
Proof.
  destruct st as [[best|] d]; unfold best_so_far, YahooLoop.best_step; cbn [fst snd].
  - intros (Hin & b & Hb & -> & Hmin).
    destruct (beta_of row) as [q| | |] eqn:Hrow; cbn [fsub fabs flt fst snd].
    + destruct (Qlt_bool (Qabs (q - YahooLoop.yahoo_target))
                         (Qabs (b - YahooLoop.yahoo_target))) eqn:Hlt; cbn [fst snd].
      * apply Qlt_bool_iff in Hlt. split; [apply in_or_app; right; now left|].
        exists q. repeat split; auto.
        intros row' b' Hin' Hb'. apply in_app_or in Hin'.
        destruct Hin' as [Hs|[<-|[]]].
        -- specialize (Hmin _ _ Hs Hb'). lra.
        -- rewrite Hrow in Hb'. injection Hb' as <-. lra.
      * apply Qlt_bool_false_iff in Hlt. split; [apply in_or_app; now left|].
        exists b. repeat split; auto.
        intros row' b' Hin' Hb'. apply in_app_or in Hin'.
        destruct Hin' as [Hs|[<-|[]]]; [now apply (Hmin row')|].
        rewrite Hrow in Hb'. injection Hb' as <-. exact Hlt.
    + split; [apply in_or_app; now left|]. exists b. repeat split; auto.
      intros row' b' Hin' Hb'. apply in_app_or in Hin'.
      destruct Hin' as [Hs|[<-|[]]]; [now apply (Hmin row')|congruence].
    + split; [apply in_or_app; now left|]. exists b. repeat split; auto.
      intros row' b' Hin' Hb'. apply in_app_or in Hin'.
      destruct Hin' as [Hs|[<-|[]]]; [now apply (Hmin row')|congruence].
    + split; [apply in_or_app; now left|]. exists b. repeat split; auto.
      intros row' b' Hin' Hb'. apply in_app_or in Hin'.
      destruct Hin' as [Hs|[<-|[]]]; [now apply (Hmin row')|congruence].
  - intros [-> Hnone].
    destruct (beta_of row) as [q| | |] eqn:Hrow; cbn [fsub fabs flt fst snd].
    + split; [apply in_or_app; right; now left|].
      exists q. repeat split; auto.
      intros row' b' Hin' Hb'. apply in_app_or in Hin'.
      destruct Hin' as [Hs|[<-|[]]].
      * specialize (Hnone _ Hs). rewrite Hb' in Hnone. discriminate.
      * rewrite Hrow in Hb'. injection Hb' as <-. lra.
    + split; auto. intros row' Hin'. apply in_app_or in Hin'.
      destruct Hin' as [Hs|[<-|[]]]; auto. now rewrite Hrow.
    + split; auto. intros row' Hin'. apply in_app_or in Hin'.
      destruct Hin' as [Hs|[<-|[]]]; auto. now rewrite Hrow.
    + split; auto. intros row' Hin'. apply in_app_or in Hin'.
      destruct Hin' as [Hs|[<-|[]]]; auto. now rewrite Hrow.
Qed.

Lemma best_fold_keeps (rest seen : list A) (st : option A * float64) :
  best_so_far beta_of seen st ->
  best_so_far beta_of (seen ++ rest) (fold_left (YahooLoop.best_step beta_of) rest st).
Proof.
  revert seen st. induction rest as [|row rest IH]; intros seen st H.
  - now rewrite app_nil_r.
  - cbn [fold_left]. replace (seen ++ row :: rest) with ((seen ++ [row]) ++ rest)
      by now rewrite <- app_assoc.
    apply IH. now apply best_step_keeps.
Qed.

End BestMatch.

(** X16.  The best-match loop of yahoo_beta_replication.py: it ends
    with no best match exactly when no row has a finite regression
    beta (nan and infinite betas are never chosen); otherwise the row
    it keeps is one of the rows, its beta is finite, the distance kept
    with it is its distance to 2.12, and no row with a finite beta is
    nearer to 2.12. *)
Theorem best_match_is_nearest_finite_beta {A : Type}
  (beta_of : A -> float64) (rows : list A) :
  (fst (YahooLoop.best_match beta_of rows) = None <->
   forall row, In row rows -> is_finite (beta_of row) = false) /\
  (forall best, fst (YahooLoop.best_match beta_of rows) = Some best ->
     In best rows /\
     exists b, beta_of best = Finite b /\
       snd (YahooLoop.best_match beta_of rows)
       = Finite (Qabs (b - YahooLoop.yahoo_target)) /\
       forall row b', In row rows -> beta_of row = Finite b' ->
         Qabs (b - YahooLoop.yahoo_target) <= Qabs (b' - YahooLoop.yahoo_target)).
Proof.
  assert (H : best_so_far beta_of rows (YahooLoop.best_match beta_of rows)).
  { unfold YahooLoop.best_match.
    apply (best_fold_keeps beta_of rows [] (None, PosInf)).
    split; [reflexivity|]. intros row []. }
  unfold best_so_far in H.
  destruct (fst (YahooLoop.best_match beta_of rows)) as [best|].
  - destruct H as (Hin & b & Hb & Hd & Hmin). split.
    + split; [discriminate|]. intros Hnone. specialize (Hnone _ Hin).
      rewrite Hb in Hnone. discriminate.
    + intros best' E. injection E as <-. split; auto. now exists b.
  - destruct H as [_ Hnone]. split; [tauto|discriminate].
Qed.

(** ** A stock that moves linearly with the benchmark *)

Section LinearStock.

Variables a b : Q.

Lemma Qsum_affine (l : list Q) :
  Qsum (map (fun m => a + b * m) l) == Qlen l * a + b * Qsum l.
Proof.
  unfold Qlen. induction l as [|v l IH].
  - cbn [map length]. change (Qsum []) with 0. cbn. ring.
  - cbn [map]. rewrite !Qsum_cons, IH.
    assert (E : inject_Z (Z.of_nat (length (v :: l)))
                == inject_Z (Z.of_nat (length l)) + 1).
    { cbn [length]. rewrite Nat2Z.inj_succ. unfold Z.succ.
      rewrite inject_Z_plus. reflexivity. }
    rewrite E. ring.
Qed.

Lemma mean_affine (l : list Q) :
  l <> [] -> mean (map (fun m => a + b * m) l) == a + b * mean l.
Proof.
  intros Hne. rewrite !mean_spec. unfold Qlen at 1. rewrite length_map.
  fold (Qlen l). rewrite Qsum_affine.
  pose proof (Qlen_pos l Hne). field. lra.
Qed.

Lemma cross_dev_affine (c d : Q) (l : list Q) :
  c == a + b * d ->
  Qsum (map (fun p => (fst p - c) * (snd p - d)) (combine (map (fun m => a + b * m) l) l))
  == b * Qsum (map (fun v => (v - d) * (v - d)) l).
Proof.
  intros Hc. induction l as [|v l IH].
  - cbn [map combine]. change (Qsum []) with 0. ring.
  - cbn [map combine fst snd]. rewrite !Qsum_cons, IH. rewrite Hc. ring.
Qed.

Lemma sum_cross_dev_affine (l : list Q) :
  l <> [] ->
  sum_cross_dev (map (fun m => a + b * m) l) l == b * sum_sq_dev l.
Proof.
  intros Hne. unfold sum_cross_dev, sum_sq_dev. cbv zeta.
  apply cross_dev_affine. now apply mean_affine.
Qed.

End LinearStock.

(** X17.  A stock whose returns are a + b * (benchmark return) on
    every date: when the benchmark has two returns or more that are
    not all equal, Method A and Method B of get_yahoo_style_beta both
    return the finite value b, whereas the overall beta that the
    estimate of calculate_beta_simple reports is b * n / (n - 1). *)
Theorem linear_stock_beta (a b : Q) (market_ret : list Q) :
  (2 <= length market_ret)%nat ->
  0 < variance 1 market_ret ->
  let stock_ret := map (fun m => a + b * m) market_ret in
  (exists x, YahooReplication.beta_a stock_ret market_ret = Ok (Finite x) /\ x == b) /\
  (exists x, YahooReplication.beta_b stock_ret market_ret = Ok (Finite x) /\ x == b) /\
  (exists r x, Beta5Year.estimate stock_ret market_ret = Ok (Some r) /\
     Beta5Year.beta r = Finite x /\
     x == b * (Qlen market_ret / (Qlen market_ret - 1))).
Proof.
  intros Hn Hv. cbv zeta.
  set (sr := map (fun m => a + b * m) market_ret).
  assert (Hl : length sr = length market_ret) by apply length_map.
  assert (Hne : market_ret <> []) by (intros ->; cbn in Hn; lia).
  pose proof (variance1_pos _ Hn Hv) as Hs.
  pose proof (sum_cross_dev_affine a b market_ret Hne) as Hx. fold sr in Hx.
  destruct (quotients_agree sr market_ret Hl Hn Hs) as [Q1 Q2].
  assert (Eb : sample_cov sr market_ret / variance 1 market_ret == b).
  { rewrite Q2, sum_cross_dev_sym, Hx. field. lra. }
  split; [|split].
  - exists (sample_cov sr market_ret / variance 1 market_ret). split; auto.
    unfold YahooReplication.beta_a.
    rewrite np_cov_finite by (auto; lia). cbn [exc_bind].
    rewrite np_var_ddof1 by auto. rewrite fdiv_finite by lra. reflexivity.
  - exists (pop_cov market_ret sr / variance 0 market_ret). split.
    + unfold YahooReplication.beta_b. now apply linregress_slope_ok.
    + now rewrite <- Q1.
  - assert (H0 : ~ variance 0 market_ret == 0).
    { intros Hz. apply (variance0_zero_iff market_ret Hne) in Hz. lra. }
    destruct (estimate_shape sr market_ret Hl) as [c [Hc E]].
    rewrite np_cov_finite in Hc by (auto; lia). injection Hc as <-.
    rewrite (np_var_nonempty _ Hne) in E. cbn [feq0] in E.
    rewrite (proj2 (Qeq_bool_false_iff _ _) H0) in E.
    eexists. exists (sample_cov sr market_ret / variance 0 market_ret).
    split; [exact E|]. cbn [Beta5Year.beta]. split; [now apply fdiv_finite|].
    rewrite population_vs_sample_quotient by (auto; lra). rewrite Eb. ring.
Qed.

(** X18.  One turn of the loop of main in beta_5year_comparison.py,
    after its heading line: getBars prints one line and the loop one
    outcome line, with no error line of calculate_beta_simple in
    between (the detail lines printed for PLTR are left out).  The
    loop appends a row only after getBars returned at least 50 rows
    of which at least 50 dates are shared with the market; the row is
    the report of calculate_beta_simple and rests on at least 49
    returns.  Without a row, the outcome line is the
    insufficient-data line or the calculation-failed line. *)
Theorem process_symbol_outcomes
  (download : GetBars.download_result) (market_data : DataFrame) :
  let out := Main5Year.process_symbol download market_data in
  length (snd out) = 2%nat /\
  (forall r, fst out = Some r ->
     exists stock_df,
       GetBars.getBars download = (Some stock_df, [SuccessfullyFetched (length stock_df)]) /\
       (50 <= length stock_df)%nat /\
       (50 <= length (intersection (index stock_df) (index market_data)))%nat /\
       fst (Beta5Year.calculate_beta_simple (Some stock_df) (Some market_data)) = Some r /\
       (49 <= Beta5Year.data_points r)%nat /\
       snd out = [SuccessfullyFetched (length stock_df); BetaComputed]) /\
  (fst out = None ->
     exists line, snd out = [line; InsufficientFiveYearData] \/
                  snd out = [line; BetaCalculationFailed]).
Proof.
  cbv zeta. unfold Main5Year.process_symbol.
  destruct download as [e|raw].
  - cbn. split; [reflexivity|]. split; [discriminate|]. intros _. eexists. now left.
  - destruct (GetBars.getBars (GetBars.Downloaded raw)) as [[df|] log1] eqn:Eg.
    + pose proof (getBars_success_log raw df log1 Eg) as ->.
      destruct (Nat.ltb_spec (length df) 50) as [Hs|Hs].
      * cbn. split; [reflexivity|]. split; [discriminate|]. intros _. eexists. now left.
      * pose proof (calculate_beta_simple_silent df market_data) as Hq.
        pose proof (calculate_beta_simple_report df market_data) as Hrep.
        destruct (Beta5Year.calculate_beta_simple (Some df) (Some market_data))
          as [[r|] log2] eqn:Ec; rewrite ?Ec in Hq; rewrite ?Ec in Hrep;
          cbn [snd] in Hq; subst log2; cbn [fst] in Hrep.
        -- cbn [fst snd app length]. split; [reflexivity|]. split; [|discriminate].
           intros r' E. injection E as <-. exists df.
           destruct (Hrep r eq_refl) as (sr & mr & Ea & Hl & Hn & He).
           pose proof (f_equal fst Ec) as Ef. cbn [fst] in Ef.
           repeat split; auto.
           ++ unfold Beta5Year.align_on_common_dates in Ea.
              destruct (Nat.ltb_spec
                          (length (intersection (index df) (index market_data))) 50);
                [discriminate|lia].
           ++ destruct (estimate_shape sr mr Hl) as [c [_ E]]. rewrite E in He.
              destruct (feq0 (np_var mr)); [discriminate|]. injection He as <-.
              exact Hn.
        -- cbn [fst snd app length]. split; [reflexivity|]. split; [discriminate|].
           intros _. eexists. now right.
    + assert (Hlog : length log1 = 1%nat).
      { unfold GetBars.getBars in Eg.
        destruct (GetBars.raw_rows raw) as [|r0 rows]; [now injection Eg as <-|].
        destruct (if GetBars.has_adj_close raw then _ else _) as [col|];
          [|now injection Eg as <-].
        destruct (GetBars.dropna_close col); [now injection Eg as <-|discriminate]. }
      destruct log1 as [|line [|]]; try discriminate.
      cbn. split; [reflexivity|]. split; [discriminate|]. intros _. eexists. now left.
Qed.

(** ** The further properties at concrete inputs *)

Lemma increasing_by_steps (l : list Z) :
  forallb (fun p => (fst p <? snd p)%Z) (combine l (tl l)) = true ->
  StronglySorted Z.lt l.
Proof.
  intros H. apply Sorted_StronglySorted; [intros x y z; lia|].
  induction l as [|a l IH]; [constructor|].
  destruct l as [|b l]; [repeat constructor|].
  cbn [tl combine forallb fst snd] in H. apply andb_prop in H. destruct H as [Hab H].
  constructor; [now apply IH|]. constructor. now apply Z.ltb_lt.
Qed.

Lemma getBars_keeps_the_rows_with_a_close_witness :
  let raw := Examples.raw_of Examples.short_history in
  GetBars.getBars (GetBars.Downloaded raw)
  = (Some Examples.short_history, [SuccessfullyFetched 10]) /\
  StronglySorted Z.lt (map GetBars.row_ts (GetBars.raw_rows raw)) /\
  Examples.short_history <> [] /\
  StronglySorted Z.lt (index Examples.short_history).
Proof.
  cbv zeta.
  assert (Hg : GetBars.getBars (GetBars.Downloaded (Examples.raw_of Examples.short_history))
               = (Some Examples.short_history, [SuccessfullyFetched 10]))
    by (vm_compute; reflexivity).
  assert (Hs : StronglySorted Z.lt
                 (map GetBars.row_ts
                    (GetBars.raw_rows (Examples.raw_of Examples.short_history))))
    by (apply increasing_by_steps; vm_compute; reflexivity).
  destruct (getBars_keeps_the_rows_with_a_close
              (Examples.raw_of Examples.short_history) Examples.short_history
              [SuccessfullyFetched 10] Hg) as (Hne & _ & _ & _ & Hinc).
  split; [exact Hg|]. split; [exact Hs|]. split; [exact Hne|]. exact (Hinc Hs).
Defined.

Lemma getBars_returns_None_exactly_when_witness :
  let raw := {| GetBars.has_adj_close := true;
                GetBars.has_close := true;
                GetBars.raw_rows :=
                  [GetBars.mkRawRow 0 None (Some (mkPrice 5 1));
                   GetBars.mkRawRow 1 None (Some (mkPrice 6 1))] |} in
  (forall r, In r (GetBars.raw_rows raw) -> close_of raw r = None) /\
  fst (GetBars.getBars (GetBars.Downloaded raw)) = None.
Proof.
  cbv zeta.
  assert (H : forall r,
             In r (GetBars.raw_rows
                     {| GetBars.has_adj_close := true;
                        GetBars.has_close := true;
                        GetBars.raw_rows :=
                          [GetBars.mkRawRow 0 None (Some (mkPrice 5 1));
                           GetBars.mkRawRow 1 None (Some (mkPrice 6 1))] |}) ->
             close_of
               {| GetBars.has_adj_close := true;
                  GetBars.has_close := true;
                  GetBars.raw_rows :=
                    [GetBars.mkRawRow 0 None (Some (mkPrice 5 1));
                     GetBars.mkRawRow 1 None (Some (mkPrice 6 1))] |} r = None).
  { intros r [<-|[<-|[]]]; reflexivity. }
  split; [exact H|].
  apply (proj2 (getBars_returns_None_exactly_when
                  {| GetBars.has_adj_close := true;
                     GetBars.has_close := true;
                     GetBars.raw_rows :=
                       [GetBars.mkRawRow 0 None (Some (mkPrice 5 1));
                        GetBars.mkRawRow 1 None (Some (mkPrice 6 1))] |})).
  right. right. exact H.
Defined.

Lemma calculate_beta_simple_outcomes_witness :
  let stock := Examples.stock_still_on_rises in
  let market := Examples.market_zigzag in
  exists r,
    fst (Beta5Year.calculate_beta_simple (Some stock) (Some market)) = Some r /\
    (50 <= length (intersection (index stock) (index market)))%nat /\
    (49 <= Beta5Year.data_points r)%nat /\
    (Beta5Year.positive_days r + Beta5Year.negative_days r
     <= Beta5Year.data_points r)%nat.
Proof.
  cbv zeta. eexists. split; [vm_compute; reflexivity|].
  apply (proj2 (proj2 (calculate_beta_simple_outcomes Examples.stock_still_on_rises
                         Examples.market_zigzag))).
  vm_compute; reflexivity.
Defined.

Lemma beta_of_a_history_against_itself_witness :
  exists r,
    fst (Beta5Year.calculate_beta_simple (Some Examples.market_zigzag)
                                         (Some Examples.market_zigzag)) = Some r /\
    exists b,
      Beta5Year.beta r = Finite b /\
      b == inject_Z (Z.of_nat (Beta5Year.data_points r))
           / (inject_Z (Z.of_nat (Beta5Year.data_points r)) - 1).
Proof.
  eexists. split; [vm_compute; reflexivity|].
  apply (beta_of_a_history_against_itself Examples.market_zigzag).
  vm_compute; reflexivity.
Defined.

Lemma simple_and_fixed_agree_on_same_dates_witness :
  let stock := Examples.stock_still_on_rises in
  let market := Examples.market_zigzag in
  index stock = index market /\
  StronglySorted Z.lt (index stock) /\
  (51 <= length stock)%nat /\
  exists r r',
    fst (Beta5Year.calculate_beta_simple (Some stock) (Some market)) = Some r /\
    Corrected.calculate_beta_fixed (Some stock) (Some market) = Ok (Some r') /\
    Corrected.traditional_beta r' = Beta5Year.beta r /\
    Corrected.data_points r' = Beta5Year.data_points r /\
    Corrected.positive_days r' = Beta5Year.positive_days r /\
    Corrected.negative_days r' = Beta5Year.negative_days r.
Proof.
  cbv zeta.
  assert (Hi : index Examples.stock_still_on_rises = index Examples.market_zigzag)
    by (vm_compute; reflexivity).
  assert (Hs : StronglySorted Z.lt (index Examples.stock_still_on_rises))
    by (apply increasing_by_steps; vm_compute; reflexivity).
  assert (Hn : (51 <= length Examples.stock_still_on_rises)%nat) by (vm_compute; lia).
  split; [exact Hi|]. split; [exact Hs|]. split; [exact Hn|].
  eexists. 
  assert (Hr : fst (Beta5Year.calculate_beta_simple (Some Examples.stock_still_on_rises)
                      (Some Examples.market_zigzag)) = Some ?[r])
    by (vm_compute; reflexivity).
  destruct (proj1 (simple_and_fixed_agree_on_same_dates Examples.stock_still_on_rises
                     Examples.market_zigzag Hi Hs) Hn _ Hr) as [r' Hr'].
  exists r'. split; [exact Hr|exact Hr'].
Defined.

Lemma fixed_function_matches_manual_calculation_witness :
  exists r,
    Corrected.calculate_beta_fixed (Some Examples.stock_wandering)
                                   (Some Examples.market_zigzag) = Ok (Some r) /\
    CorrectedScript.manual_beta Examples.stock_wandering Examples.market_zigzag
    = Ok (Corrected.traditional_beta r).
Proof.
  eexists. split; [vm_compute; reflexivity|].
  apply (fixed_function_matches_manual_calculation Examples.stock_wandering
           Examples.market_zigzag).
  vm_compute; reflexivity.
Defined.

Lemma beta_ratio_rule_witness :
  let sr := fst (Examples.aligned_of Examples.stock_wandering Examples.market_zigzag) in
  let mr := snd (Examples.aligned_of Examples.stock_wandering Examples.market_zigzag) in
  length sr = length mr /\
  exists r p q,
    Corrected.estimate 54 sr mr = Ok (Some r) /\
    Corrected.positive_beta r = Some (Finite p) /\
    Corrected.negative_beta r = Some (Finite q) /\
    ~ p == 0 /\ ~ q == 0 /\
    Corrected.beta_ratio r = Some (Finite (p / q)).
Proof.
  cbv zeta. split; [vm_compute; reflexivity|].
  do 3 eexists.
  split; [vm_compute; reflexivity|].
  split; [vm_compute; reflexivity|].
  split; [vm_compute; reflexivity|].
  assert (Hp : ~ (-18954 # 958230) == 0) by (vm_compute; discriminate).
  assert (Hq : ~ (8647398 # 758918160) == 0) by (vm_compute; discriminate).
  split; [exact Hp|]. split; [exact Hq|].
  apply (proj1 (proj2 (beta_ratio_rule 54
           (fst (Examples.aligned_of Examples.stock_wandering Examples.market_zigzag))
           (snd (Examples.aligned_of Examples.stock_wandering Examples.market_zigzag))
           _ ltac:(vm_compute; reflexivity) ltac:(vm_compute; reflexivity)))
         _ _ ltac:(vm_compute; reflexivity) ltac:(vm_compute; reflexivity) Hp Hq).
Defined.

Lemma positive_beta_methods_differ_by_the_ddof_factor_witness :
  let sr := fst (Examples.aligned_of Examples.stock_wandering Examples.market_zigzag) in
  let mr := snd (Examples.aligned_of Examples.stock_wandering Examples.market_zigzag) in
  length sr = length mr /\
  exists o g,
    ComparePositive.calculate_positive_beta_original_method sr mr = Ok (Some o, 27%nat) /\
    CompareMethods.calculate_positive_beta_regression_method sr mr
    = Ok (Some g, 27%nat) /\
    exists x y,
      o = Finite x /\ g = Finite y /\
      x == (inject_Z (Z.of_nat 27) / (inject_Z (Z.of_nat 27) - 1)) * y.
Proof.
  cbv zeta. split; [vm_compute; reflexivity|].
  do 2 eexists. split; [vm_compute; reflexivity|]. split; [vm_compute; reflexivity|].
  destruct (positive_beta_methods_differ_by_the_ddof_factor
              (fst (Examples.aligned_of Examples.stock_wandering Examples.market_zigzag))
              (snd (Examples.aligned_of Examples.stock_wandering Examples.market_zigzag))
              _ _ 27%nat 27%nat
              ltac:(vm_compute; reflexivity) ltac:(vm_compute; reflexivity)
              ltac:(vm_compute; reflexivity))
    as (_ & _ & x & y & Ho & Hg & Hxy & _).
  exists x, y. split; [exact Ho|]. split; [exact Hg|exact Hxy].
Defined.

Lemma period_beta_guards_witness :
  let nvda := Examples.stock_still_on_rises in
  let spy := Examples.market_zigzag in
  index nvda = index spy /\
  index (fst (AnalyzeNvidia.paired_returns nvda spy))
  = index (snd (AnalyzeNvidia.paired_returns nvda spy)).
Proof.
  cbv zeta.
  assert (Hi : index Examples.stock_still_on_rises = index Examples.market_zigzag)
    by (vm_compute; reflexivity).
  split; [exact Hi|].
  exact (proj2 (proj2 (proj2 (period_beta_guards Examples.stock_still_on_rises
                                Examples.market_zigzag))) Hi).
Defined.

Lemma period_beta_of_flat_benchmark_is_nan_witness :
  let nvda := Examples.stock_wandering in
  let spy := Examples.market_flat in
  (50 < length nvda)%nat /\
  (50 < Nat.min (length nvda - 1) (length spy - 1))%nat /\
  (forall row, In row spy -> price_val (snd row) == 7) /\
  AnalyzeNvidia.period_beta nvda spy = Ok (Some NaN).
Proof.
  cbv zeta.
  assert (H1 : (50 < length Examples.stock_wandering)%nat) by (vm_compute; lia).
  assert (H2 : (50 < Nat.min (length Examples.stock_wandering - 1)
                             (length Examples.market_flat - 1))%nat)
    by (vm_compute; lia).
  assert (H3 : forall row, In row Examples.market_flat -> price_val (snd row) == 7).
  { assert (Hall : forallb (fun row : Z * price => Qeq_bool (price_val (snd row)) 7)
                     Examples.market_flat = true) by (vm_compute; reflexivity).
    rewrite forallb_forall in Hall. intros row Hrow.
    apply Qeq_bool_iff. now apply Hall. }
  split; [exact H1|]. split; [exact H2|]. split; [exact H3|].
  exact (period_beta_of_flat_benchmark_is_nan Examples.stock_wandering
           Examples.market_flat 7 H1 H2 H3).
Defined.

Lemma calculate_beta_monthly_report_witness :
  let stock := Examples.stock_wandering in
  let market := Examples.market_zigzag in
  Monthly.calculate_beta_monthly pct_change None (Some market) = (None, []) /\
  exists r,
    Monthly.calculate_beta_monthly pct_change (Some stock) (Some market) = (Some r, []) /\
    (24 <= Monthly.months r)%nat /\
    is_finite (Monthly.beta r) = true /\
    (Monthly.positive_months r + Monthly.negative_months r <= Monthly.months r)%nat.
Proof.
  cbv zeta. split.
  - apply (proj1 (calculate_beta_monthly_report pct_change None
                    (Some Examples.market_zigzag))).
    left. reflexivity.
  - eexists. split; [vm_compute; reflexivity|].
    apply (proj2 (calculate_beta_monthly_report pct_change
                    (Some Examples.stock_wandering) (Some Examples.market_zigzag))
             _ [] ltac:(vm_compute; reflexivity)).
Defined.

Lemma monthly_table_lists_missing_beta_as_zero_witness :
  let sr := Examples.five_asset_returns in
  let mr := Examples.five_benchmark_returns in
  length sr = length mr /\
  exists r,
    Monthly.estimate sr mr = Ok (Some r) /\
    (Monthly.positive_months r <= 5)%nat /\
    MonthlyMain.table_beta (Monthly.positive_beta r) = Finite 0.
Proof.
  cbv zeta. split; [reflexivity|].
  eexists. split; [vm_compute; reflexivity|].
  split; [vm_compute; lia|].
  apply (proj1 (monthly_table_lists_missing_beta_as_zero
                  Examples.five_asset_returns Examples.five_benchmark_returns _
                  eq_refl ltac:(vm_compute; reflexivity))).
  vm_compute; lia.
Defined.

Lemma yahoo_method_result_window_witness :
  let stock := Examples.bars [10; 10; 5; 5]%positive 20 in
  let market := Examples.bars [4; 6; 3; 6]%positive 20 in
  StronglySorted Z.lt (index stock) /\
  StronglySorted Z.lt (index market) /\
  exists r,
    YahooLoop.method_result stock market = Ok (Some r) /\
    YahooLoop.Months r = 60%nat /\
    (exists a b, YahooLoop.Beta_CovVar r = Finite a /\
                 YahooLoop.Beta_Regression r = Finite b /\ a == b) /\
    (YahooLoop.Start_Date r <= YahooLoop.End_Date r)%Z.
Proof.
  cbv zeta.
  assert (Hs : StronglySorted Z.lt (index (Examples.bars [10; 10; 5; 5]%positive 20)))
    by (apply increasing_by_steps; vm_compute; reflexivity).
  assert (Hm : StronglySorted Z.lt (index (Examples.bars [4; 6; 3; 6]%positive 20)))
    by (apply increasing_by_steps; vm_compute; reflexivity).
  split; [exact Hs|]. split; [exact Hm|].
  eexists. split; [vm_compute; reflexivity|].
  destruct (yahoo_method_result_window (Examples.bars [10; 10; 5; 5]%positive 20)
              (Examples.bars [4; 6; 3; 6]%positive 20) _
              ltac:(vm_compute; reflexivity)) as (_ & Hb & Hw).
  destruct (Hw Hs Hm) as (_ & _ & Hd).
  split; [reflexivity|]. split; [exact Hb|exact Hd].
Defined.

Lemma best_match_is_nearest_finite_beta_witness :
  let rows := [Finite 1; NaN; Finite 2; PosInf; Finite (5 # 2)] in
  fst (YahooLoop.best_match (fun b : float64 => b) rows) = Some (Finite 2) /\
  In (Finite 2) rows /\
  exists b, Finite 2 = Finite b /\
    snd (YahooLoop.best_match (fun b : float64 => b) rows)
    = Finite (Qabs (b - YahooLoop.yahoo_target)) /\
    forall row b', In row rows -> row = Finite b' ->
      Qabs (b - YahooLoop.yahoo_target) <= Qabs (b' - YahooLoop.yahoo_target).
Proof.
  cbv zeta. split; [vm_compute; reflexivity|].
  apply (proj2 (best_match_is_nearest_finite_beta (fun b : float64 => b)
                  [Finite 1; NaN; Finite 2; PosInf; Finite (5 # 2)])).
  vm_compute; reflexivity.
Defined.

Lemma linear_stock_beta_witness :
  let market_ret := Examples.five_benchmark_returns in
  let stock_ret := map (fun m => (1 # 100) + (3 # 2) * m) market_ret in
  (2 <= length market_ret)%nat /\
  0 < variance 1 market_ret /\
  (exists x, YahooReplication.beta_a stock_ret market_ret = Ok (Finite x) /\ x == 3 # 2) /\
  (exists x, YahooReplication.beta_b stock_ret market_ret = Ok (Finite x) /\ x == 3 # 2) /\
  (exists r x, Beta5Year.estimate stock_ret market_ret = Ok (Some r) /\
     Beta5Year.beta r = Finite x /\
     x == (3 # 2) * (Qlen market_ret / (Qlen market_ret - 1))).
Proof.
  cbv zeta.
  assert (Hn : (2 <= length Examples.five_benchmark_returns)%nat) by (vm_compute; lia).
  assert (Hv : 0 < variance 1 Examples.five_benchmark_returns)
    by (vm_compute; reflexivity).
  split; [exact Hn|]. split; [exact Hv|].
  exact (linear_stock_beta (1 # 100) (3 # 2) Examples.five_benchmark_returns Hn Hv).
Defined.

Lemma process_symbol_outcomes_witness :
  let download := GetBars.Downloaded (Examples.raw_of Examples.stock_still_on_rises) in
  let market := Examples.market_zigzag in
  exists r stock_df,
    fst (Main5Year.process_symbol download market) = Some r /\
    GetBars.getBars download = (Some stock_df, [SuccessfullyFetched (length stock_df)]) /\
    (50 <= length stock_df)%nat /\
    (49 <= Beta5Year.data_points r)%nat /\
    snd (Main5Year.process_symbol download market)
    = [SuccessfullyFetched (length stock_df); BetaComputed].
Proof.
  cbv zeta. eexists.
  assert (Hr : fst (Main5Year.process_symbol
                      (GetBars.Downloaded (Examples.raw_of Examples.stock_still_on_rises))
                      Examples.market_zigzag) = Some ?[r])
    by (vm_compute; reflexivity).
  destruct (proj1 (proj2 (process_symbol_outcomes
                            (GetBars.Downloaded
                               (Examples.raw_of Examples.stock_still_on_rises))
                            Examples.market_zigzag)) _ Hr)
    as (df & Hg & Hl & _ & _ & Hp & Hlog).
  exists df. split; [exact Hr|]. split; [exact Hg|]. split; [exact Hl|].
  split; [exact Hp|exact Hlog].
Defined.
